(** * Invoice extraction pipeline: a shallow embedding and its properties

    The Python sources under [src/] are embedded function by function:
    [segmenter.py], [extractors/identifiers.py], [extractors/dates.py],
    [extractors/weights.py], [extractors/costs.py], [validate.py] and the
    orchestrator [extract.py].

    Modelling choices, fixed once for the whole development:
    - a Python [str] is the list of its code points, taken below 256
      (ASCII and the Latin-1 letters of German invoices), one [ascii] each;
      the character tests follow Python's Unicode tables on that range, so
      what is said of a text is said of the texts without characters beyond
      U+00FF (the only decimal digits of the range are 0 to 9);
    - a compiled [re] pattern is a term of type [re], run by a backtracking
      matcher that explores alternatives in the order of Python's engine;
    - a Python [float] obtained from a decimal literal is the binary64
      number nearest to the literal, given by its exact value, a rational in
      lowest terms;
    - [strftime("%Y")] prints the year as glibc does, without padding;
    - functions of external packages (dateutil, rapidfuzz, pycountry) are
      parameters of the sections that use them. *)

From Stdlib Require Import Ascii String Bool Arith ZArith QArith Lia.
From Stdlib Require Import List.
Import ListNotations.
Local Open Scope list_scope.
Local Open Scope nat_scope.

Set Implicit Arguments.

(** ** Python strings *)

Definition str := list ascii.

(** String literals are written [L "..."]. *)
Definition L (x : string) : str := list_ascii_of_string x.

Definition ascii_eqb (a b : ascii) : bool := Ascii.eqb a b.

Definition in_range (lo hi c : ascii) : bool :=
  (N_of_ascii lo <=? N_of_ascii c)%N && (N_of_ascii c <=? N_of_ascii hi)%N.

(** ASCII digits and letters, as in the classes [0-9], [A-Z], [a-z]; [\d]
    and [str.isdecimal] hold of the ASCII digits only on this range. *)
Definition is_digit (c : ascii) : bool := in_range "0" "9" c.
Definition is_upper (c : ascii) : bool := in_range "A" "Z" c.
Definition is_lower (c : ascii) : bool := in_range "a" "z" c.
Definition is_alnum (c : ascii) : bool :=
  is_upper c || is_lower c || is_digit c.

(** Latin-1 capitals (U+00C0-U+00DE but the multiplication sign) and small
    letters (U+00DF-U+00FF but the division sign). *)
Definition is_upper1 (c : ascii) : bool :=
  in_range "192" "214" c || in_range "216" "222" c.
Definition is_lower1 (c : ascii) : bool :=
  in_range "223" "246" c || in_range "248" "255" c.

(** [c.isalpha()]: the letters above, and U+00AA, U+00B5, U+00BA. *)
Definition py_isalpha (c : ascii) : bool :=
  is_upper c || is_lower c || is_upper1 c || is_lower1 c
  || ascii_eqb c "170" || ascii_eqb c "181" || ascii_eqb c "186".

(** [c.isdigit()]: the ASCII digits and the superscripts U+00B2, U+00B3,
    U+00B9. *)
Definition py_isdigit (c : ascii) : bool :=
  is_digit c || ascii_eqb c "178" || ascii_eqb c "179" || ascii_eqb c "185".

(** [\w] of the [re] module: [c.isalnum()] or the underscore; the vulgar
    fractions U+00BC-U+00BE are numeric. *)
Definition is_word (c : ascii) : bool :=
  py_isalpha c || py_isdigit c || in_range "188" "190" c || ascii_eqb c "_".

(** White space of [str.strip], [str.split] and [\s]: TAB, LF, VT, FF, CR,
    the separators 0x1c-0x1f, the blank, NEL and the no-break space. *)
Definition is_space (c : ascii) : bool :=
  in_range "009" "013" c || in_range "028" "031" c || ascii_eqb c " "
  || ascii_eqb c "133" || ascii_eqb c "160".

Definition lower_c (c : ascii) : ascii :=
  if is_upper c || is_upper1 c then ascii_of_N (N_of_ascii c + 32) else c.

(** The one-character upper case; U+00DF, U+00B5 and U+00FF have none on
    this range. *)
Definition upper_c (c : ascii) : ascii :=
  if is_lower c || (is_lower1 c && negb (ascii_eqb c "223")
                                && negb (ascii_eqb c "255"))
  then ascii_of_N (N_of_ascii c - 32) else c.

(** [s.lower()]. *)
Definition lower (s : str) : str := map lower_c s.

(** [s.upper()]: the sharp s becomes "SS". The upper-case forms of U+00B5
    and U+00FF lie above the range and are left as they are. *)
Definition upper (s : str) : str :=
  flat_map (fun c => if ascii_eqb c "223" then ["S"; "S"]%char
                     else [upper_c c]) s.

Definition str_eqb (a b : str) : bool :=
  if list_eq_dec ascii_dec a b then true else false.

(** [s.startswith(p)]. *)
Fixpoint starts_with (p s : str) : bool :=
  match p, s with
  | [], _ => true
  | a :: p', b :: s' => ascii_eqb a b && starts_with p' s'
  | _ :: _, [] => false
  end.

(** [p in s] for strings. *)
Fixpoint contains (p s : str) : bool :=
  starts_with p s ||
  match s with
  | [] => false
  | _ :: s' => contains p s'
  end.

(** [s.split(sep)] for a one-character separator: always at least one piece. *)
Fixpoint split_on (sep : ascii) (s : str) : list str :=
  match s with
  | [] => [[]]
  | c :: t =>
      if ascii_eqb c sep then [] :: split_on sep t
      else match split_on sep t with
           | [] => [[c]]
           | w :: ws => (c :: w) :: ws
           end
  end.

(** [sep.join(pieces)]. *)
Fixpoint join (sep : str) (pieces : list str) : str :=
  match pieces with
  | [] => []
  | [p] => p
  | p :: ps => p ++ sep ++ join sep ps
  end.

Fixpoint lstrip (s : str) : str :=
  match s with
  | [] => []
  | c :: t => if is_space c then lstrip t else s
  end.

Definition rstrip (s : str) : str := rev (lstrip (rev s)).

(** [s.strip()]. *)
Definition strip (s : str) : str := rstrip (lstrip s).

(** [s.split()]: pieces separated by runs of white space, none empty. *)
Fixpoint split_ws_aux (cur : str) (s : str) : list str :=
  match s with
  | [] => match cur with [] => [] | _ => [rev cur] end
  | c :: t =>
      if is_space c
      then match cur with
           | [] => split_ws_aux [] t
           | _ => rev cur :: split_ws_aux [] t
           end
      else split_ws_aux (c :: cur) t
  end.

Definition split_ws (s : str) : list str := split_ws_aux [] s.

(** [s.replace(a, b)] where [a] is one character and [b] any string. *)
Definition replace_c (a : ascii) (b : str) (s : str) : str :=
  flat_map (fun c => if ascii_eqb c a then b else [c]) s.

(** The idiom [[ln.strip() for ln in text.split("\n") if ln.strip()]]. *)
Definition stripped_lines (text : str) : list str :=
  filter (fun ln => negb (str_eqb ln [])) (map strip (split_on "010" text)).

(** [bool(xs)] for a list. *)
Definition nonempty {A} (l : list A) : bool :=
  match l with [] => false | _ :: _ => true end.

(** [xs[-1]] on a non-empty list. *)
Definition last_opt {A} (xs : list A) : option A :=
  match rev xs with
  | [] => None
  | x :: _ => Some x
  end.

(** ** Regular expressions

    The fragment of Python's [re] syntax the sources use. *)

Inductive citem : Type :=
| CChar (c : ascii)          (* a single character *)
| CRange (lo hi : ascii)     (* lo-hi *)
| CDigit                     (* \d *)
| CSpace.                    (* \s *)

Definition citem_has (i : citem) (c : ascii) : bool :=
  match i with
  | CChar x => ascii_eqb x c
  | CRange lo hi => in_range lo hi c
  | CDigit => is_digit c
  | CSpace => is_space c
  end.

Inductive re : Type :=
| Eps                                           (* empty pattern *)
| Lit (c : ascii)                               (* a literal character *)
| Cls (neg : bool) (items : list citem)         (* [...] and [^...] *)
| AnyC                                          (* . *)
| Seq (a b : re)                                (* ab *)
| Alt (a b : re)                                (* a|b *)
| Rep (a : re) (lo : nat) (hi : option nat) (greedy : bool)
                                                (* a{lo,hi}, a*, a+, a?, a+? *)
| Grp (i : nat) (a : re)                        (* capturing group number i *)
| WordB                                         (* \b *)
| Bos                                           (* ^ *)
| Eos.                                          (* $ *)

(** The matcher's position: the character before the cursor (None at the
    start of the string), the text still to read, and the groups captured so
    far (most recent first). *)
Record st : Type := mkst {
  prev : option ascii;
  rest : str;
  caps : list (nat * str)
}.

Definition K := st -> option st.

Definition adv (x : ascii) (t : str) (s : st) : st :=
  mkst (Some x) t (caps s).

Definition lit_ok (ic : bool) (c x : ascii) : bool :=
  if ic then ascii_eqb (lower_c c) (lower_c x) else ascii_eqb c x.

Definition items_have (items : list citem) (x : ascii) : bool :=
  existsb (fun i => citem_has i x) items.

Definition cls_ok (ic neg : bool) (items : list citem) (x : ascii) : bool :=
  xorb neg
    (if ic
     then items_have items x || items_have items (lower_c x)
          || items_have items (upper_c x)
     else items_have items x).

Definition opt_word (o : option ascii) : bool :=
  match o with
  | Some c => is_word c
  | None => false
  end.

Definition at_boundary (s : st) : bool :=
  xorb (opt_word (prev s)) (opt_word (hd_error (rest s))).

(** Greedy repetition: as many iterations as possible first, between [lo]
    and [hi]. *)
Fixpoint rep_greedy (step : K -> K) (lo hi : nat) (k : K) (s : st)
  : option st :=
  match hi with
  | O => match lo with O => k s | S _ => None end
  | S hi' =>
      match lo with
      | S lo' => step (rep_greedy step lo' hi' k) s
      | O =>
          match step (rep_greedy step 0 hi' k) s with
          | Some r => Some r
          | None => k s
          end
      end
  end.

(** Lazy repetition: as few iterations as possible first. *)
Fixpoint rep_lazy (step : K -> K) (lo hi : nat) (k : K) (s : st)
  : option st :=
  match hi with
  | O => match lo with O => k s | S _ => None end
  | S hi' =>
      match lo with
      | S lo' => step (rep_lazy step lo' hi' k) s
      | O =>
          match k s with
          | Some r => Some r
          | None => step (rep_lazy step 0 hi' k) s
          end
      end
  end.

Definition set_cap (i : nat) (from : st) (to : st) : st :=
  mkst (prev to) (rest to)
       ((i, firstn (length (rest from) - length (rest to)) (rest from))
          :: caps to).

(** Every repeated sub-pattern of the sources consumes at least one
    character per iteration, so an unbounded repetition iterates at most
    once per remaining character. *)
Definition rep_bound (lo : nat) (hi : option nat) (s : st) : nat :=
  match hi with
  | Some h => h
  | None => lo + length (rest s)
  end.

Fixpoint m (ic : bool) (r : re) (k : K) (s : st) {struct r} : option st :=
  match r with
  | Eps => k s
  | Lit c =>
      match rest s with
      | x :: t => if lit_ok ic c x then k (adv x t s) else None
      | [] => None
      end
  | Cls neg items =>
      match rest s with
      | x :: t => if cls_ok ic neg items x then k (adv x t s) else None
      | [] => None
      end
  | AnyC =>
      match rest s with
      | x :: t => if ascii_eqb x "010" then None else k (adv x t s)
      | [] => None
      end
  | Seq a b => m ic a (m ic b k) s
  | Alt a b =>
      match m ic a k s with
      | Some r' => Some r'
      | None => m ic b k s
      end
  | Rep a lo hi greedy =>
      if greedy
      then rep_greedy (m ic a) lo (rep_bound lo hi s) k s
      else rep_lazy (m ic a) lo (rep_bound lo hi s) k s
  | Grp i a => m ic a (fun s' => k (set_cap i s s')) s
  | WordB => if at_boundary s then k s else None
  | Bos => match prev s with None => k s | Some _ => None end
  | Eos =>
      match rest s with
      | [] => k s
      | [c] => if ascii_eqb c "010" then k s else None
      | _ => None
      end
  end.

(** One attempt at one position. *)
Definition match_at (ic : bool) (r : re) (p : option ascii) (s : str)
  : option st :=
  m ic r (fun x => Some x) (mkst p s []).

(** A match object: the matched text and the captured groups. *)
Record mobj : Type := mkmobj {
  m_text : str;
  m_caps : list (nat * str)
}.

Definition mobj_of (s : str) (e : st) : mobj :=
  mkmobj (firstn (length s - length (rest e)) s) (caps e).

(** [m.group(i)]: the last capture of group [i], if it took part. *)
Fixpoint assoc (i : nat) (l : list (nat * str)) : option str :=
  match l with
  | [] => None
  | (j, v) :: l' => if Nat.eqb i j then Some v else assoc i l'
  end.

Definition group (i : nat) (x : mobj) : option str := assoc i (m_caps x).

(** [pattern.match(s)]. *)
Definition re_match (ic : bool) (r : re) (s : str) : option mobj :=
  option_map (mobj_of s) (match_at ic r None s).

(** [pattern.search(s)], scanning from a position whose previous character
    is [p]. *)
Fixpoint search_from (ic : bool) (r : re) (p : option ascii) (s : str)
  : option mobj :=
  match match_at ic r p s with
  | Some e => Some (mobj_of s e)
  | None =>
      match s with
      | [] => None
      | c :: t => search_from ic r (Some c) t
      end
  end.

Definition re_search (ic : bool) (r : re) (s : str) : option mobj :=
  search_from ic r None s.

Definition is_some {A} (o : option A) : bool :=
  match o with Some _ => true | None => false end.

(** [bool(pattern.search(s))]. *)
Definition re_test (ic : bool) (r : re) (s : str) : bool :=
  is_some (re_search ic r s).

(** [pattern.finditer(s)]: the non-overlapping matches, left to right.
    [skip] counts the characters of the last match still to step over. *)
Fixpoint scan (ic : bool) (r : re) (p : option ascii) (s : str) (skip : nat)
  : list mobj :=
  match skip with
  | S n =>
      match s with
      | [] => []
      | c :: t => scan ic r (Some c) t n
      end
  | O =>
      match match_at ic r p s with
      | Some e =>
          mobj_of s e ::
          match s with
          | [] => []
          | c :: t =>
              scan ic r (Some c) t (length s - length (rest e) - 1)
          end
      | None =>
          match s with
          | [] => []
          | c :: t => scan ic r (Some c) t 0
          end
      end
  end.

Definition finditer (ic : bool) (r : re) (s : str) : list mobj :=
  scan ic r None s 0.

(** [pattern.findall(s)] for a pattern without groups. *)
Definition findall (ic : bool) (r : re) (s : str) : list str :=
  map m_text (finditer ic r s).

(** *** What a successful match is

    [run ic r s s'] holds when pattern [r] can take the matcher from
    position [s] to position [s'], whatever the order of the attempts. *)

Fixpoint iter (R : st -> st -> Prop) (n : nat) (s s' : st) : Prop :=
  match n with
  | O => s' = s
  | S n' => exists s2, R s s2 /\ iter R n' s2 s'
  end.

Fixpoint run (ic : bool) (r : re) (s s' : st) {struct r} : Prop :=
  match r with
  | Eps => s' = s
  | Lit c =>
      exists x t, rest s = x :: t /\ lit_ok ic c x = true /\ s' = adv x t s
  | Cls neg items =>
      exists x t, rest s = x :: t /\ cls_ok ic neg items x = true
                  /\ s' = adv x t s
  | AnyC =>
      exists x t, rest s = x :: t /\ ascii_eqb x "010" = false
                  /\ s' = adv x t s
  | Seq a b => exists s2, run ic a s s2 /\ run ic b s2 s'
  | Alt a b => run ic a s s' \/ run ic b s s'
  | Rep a lo hi _ =>
      exists n, lo <= n <= rep_bound lo hi s /\ iter (run ic a) n s s'
  | Grp i a => exists s2, run ic a s s2 /\ s' = set_cap i s s2
  | WordB => at_boundary s = true /\ s' = s
  | Bos => prev s = None /\ s' = s
  | Eos => (rest s = [] \/ rest s = ["010"%char]) /\ s' = s
  end.

(** The 256 characters. *)
Definition all_chars : list ascii := map ascii_of_nat (seq 0 256).

(** Every character that [r] can consume satisfies [P]. *)
Fixpoint atoms_ok (ic : bool) (P : ascii -> bool) (r : re) : bool :=
  match r with
  | Eps | WordB | Bos | Eos => true
  | Lit c => forallb (fun x => implb (lit_ok ic c x) (P x)) all_chars
  | Cls neg items =>
      forallb (fun x => implb (cls_ok ic neg items x) (P x)) all_chars
  | AnyC => forallb (fun x => implb (negb (ascii_eqb x "010")) (P x)) all_chars
  | Seq a b | Alt a b => atoms_ok ic P a && atoms_ok ic P b
  | Rep a _ _ _ => atoms_ok ic P a
  | Grp _ a => atoms_ok ic P a
  end.

(** Pattern-building shorthands. *)
Definition lits (x : string) : re :=
  fold_right (fun c r => Seq (Lit c) r) Eps (list_ascii_of_string x).
Definition alts (rs : list re) : re :=
  match rs with
  | [] => Eps
  | r :: rs' => fold_left Alt rs' r
  end.
Definition digit : re := Cls false [CDigit].
Definition space : re := Cls false [CSpace].
Definition star (a : re) : re := Rep a 0 None true.
Definition plus (a : re) : re := Rep a 1 None true.
Definition opt (a : re) : re := Rep a 0 (Some 1) true.
Definition between (a : re) (lo hi : nat) : re := Rep a lo (Some hi) true.
Definition exactly (a : re) (n : nat) : re := Rep a n (Some n) true.

Declare Scope re_scope.
Delimit Scope re_scope with re.
Infix ";;" := Seq (at level 61, right associativity) : re_scope.

(** ** [pdf_loader.py] and [segmenter.py] *)

Definition nl : str := ["010"%char].

Record Page : Type := mkPage {
  page_num : Z;
  text : str;
  is_scanned : bool
}.

(** [page_num] is whatever [current_page_start] holds when the block is
    appended; the variable starts as [None]. *)
Record ShipmentBlock : Type := mkBlock {
  b_text : str;
  b_page_num : option Z
}.

Module Segmenter.

(** [\b1Z[0-9A-Z]{8,18}\b] *)
Definition RE_TRACKING : re :=
  (WordB ;; Lit "1" ;; Lit "Z" ;;
   between (Cls false [CRange "0" "9"; CRange "A" "Z"]) 8 18 ;; WordB)%re.

(** [(Rechnung|Invoice|UPS|Kunden\-Nr|Rechnungsdatum|Lieferant|Dachser)],
    IGNORECASE *)
Definition RE_INVOICE_HEADER : re :=
  Grp 1 (alts [lits "Rechnung"; lits "Invoice"; lits "UPS"; lits "Kunden-Nr";
               lits "Rechnungsdatum"; lits "Lieferant"; lits "Dachser"]).

(** [(Seite\s+\d+|Page\s+\d+)], IGNORECASE *)
Definition RE_FOOTER : re :=
  Grp 1 (Alt (lits "Seite" ;; plus space ;; plus digit)
             (lits "Page" ;; plus space ;; plus digit))%re.

Definition has_tracking (line : str) : bool := re_test false RE_TRACKING line.
Definition is_header (line : str) : bool := re_test true RE_INVOICE_HEADER line.
Definition is_footer (line : str) : bool := re_test true RE_FOOTER line.

(** The local variables of [segment]. *)
Record state : Type := mkstate {
  blocks : list ShipmentBlock;
  current_lines : list str;
  current_page_start : option Z;
  inside_shipment : bool
}.

Definition close_block (s : state) : state :=
  mkstate (blocks s ++ [mkBlock (join nl (current_lines s))
                                (current_page_start s)])
          [] (current_page_start s) (inside_shipment s).

(** The body of [for line in lines]. *)
Definition line_step (pn : Z) (s : state) (line : str) : state :=
  if is_header line || is_footer line then s
  else
    let s1 :=
      if has_tracking line then
        let s0 := if inside_shipment s && nonempty (current_lines s)
                  then close_block s else s in
        mkstate (blocks s0) (current_lines s0) (Some pn) true
      else s in
    if inside_shipment s1
    then mkstate (blocks s1) (current_lines s1 ++ [line])
                 (current_page_start s1) (inside_shipment s1)
    else s1.

(** The page-break logic: [later] holds [pages[idx+1:]]. *)
Definition page_break (later : list Page) (s : state) : state :=
  if inside_shipment s then
    match later with
    | next :: _ =>
        if existsb has_tracking (stripped_lines (text next))
        then mkstate (blocks (close_block s)) [] (current_page_start s) false
        else s
    | [] => s
    end
  else s.

(** The body of [for idx, page in enumerate(pages)] and the loop itself. *)
Fixpoint pages_loop (pages : list Page) (s : state) : state :=
  match pages with
  | [] => s
  | page :: later =>
      let s' := fold_left (line_step (page_num page))
                          (stripped_lines (text page)) s in
      pages_loop later (page_break later s')
  end.

(** The end-of-file flush. *)
Definition finish (s : state) : list ShipmentBlock :=
  if inside_shipment s && nonempty (current_lines s)
  then blocks (close_block s) else blocks s.

Definition segment (pages : list Page) : list ShipmentBlock :=
  finish (pages_loop pages (mkstate [] [] None false)).

(** The lines of a page that the header and footer filter lets through. *)
Definition kept_lines (p : Page) : list str :=
  filter (fun l => negb (is_header l || is_footer l))
         (stripped_lines (text p)).

End Segmenter.


(** *** Vocabulary for the segmentation properties *)

Module SegSpec.
Import Segmenter.

(** The lines of [l] from the first tracking line on. *)
Fixpoint from_tracking (l : list str) : list str :=
  match l with
  | [] => []
  | x :: t => if has_tracking x then l else from_tracking t
  end.

(** The page has exactly one line with a tracking number, [t]. *)
Definition one_tracking_line (p : Page) (t : str) : Prop :=
  filter has_tracking (stripped_lines (text p)) = [t].

(** The block [segment] is expected to cut out of a page that opens a
    shipment, followed by the continuation lines [cont]. *)
Definition block_of (p : Page) (cont : list str) : ShipmentBlock :=
  mkBlock (join nl (from_tracking (kept_lines p) ++ cont))
          (Some (page_num p)).

End SegSpec.

Definition pg (n : Z) (x : string) : Page := mkPage n (L x) false.

(** ** Python floats

    A [float] is a binary64 number. The extractors build their floats from
    unsigned decimal literals, so a float is given here by its exact value, a
    rational that is not negative, or it is the infinity that [float] returns
    for a literal beyond the largest finite number. *)

Inductive pyfloat : Type :=
| Finite (v : Q)
| Infinity.

(** [n/d] rounded to the nearest integer, a tie to the even one. *)
Definition round_half_even (n d : Z) : Z :=
  let f := (n / d)%Z in
  match (2 * (n mod d) ?= d)%Z with
  | Lt => f
  | Gt => (f + 1)%Z
  | Eq => if Z.even f then f else (f + 1)%Z
  end.

(** [2^e] is [pow2_up e / pow2_down e], for every integer [e]. *)
Definition pow2_up (e : Z) : Z := (2 ^ Z.max e 0)%Z.
Definition pow2_down (e : Z) : Z := (2 ^ Z.max (- e) 0)%Z.

(** The exponent [e] with [2^e <= n/d < 2^(e+1)], for positive [n] and
    [d]. *)
Definition floor_log2 (n d : Z) : Z :=
  let k := (Z.log2 n - Z.log2 d)%Z in
  if (d * pow2_up k <=? n * pow2_down k)%Z then k else (k - 1)%Z.

(** The binary64 number nearest to [q], a tie to the even significand, as
    [float] rounds a decimal literal: 53 bits, the least exponent -1074 of
    the subnormal numbers, and infinity from [2^1024] on. *)
Definition binary64 (q : Q) : pyfloat :=
  let n := Qnum q in
  let d := Zpos (Qden q) in
  if (n <=? 0)%Z then Finite 0
  else
    let e := Z.max (floor_log2 n d - 52) (-1074) in
    let m := round_half_even (n * pow2_down e) (d * pow2_up e) in
    if (2 ^ 1024 <=? m * pow2_up e)%Z then Infinity
    else Finite (Qred (Qmake (m * pow2_up e) (Z.to_pos (pow2_down e)))).

(** [float(s)] for the literals the extractors pass to it: digits with at
    most one point, at least one digit. Signs, exponents, underscores,
    surrounding blanks and the special values, which [float] accepts as well,
    never reach it, and are rejected here like any other text. *)

Definition digit_val (c : ascii) : Z := Z.of_nat (nat_of_ascii c - 48).

Definition digits_Z (ds : str) : Z :=
  fold_left (fun acc c => (10 * acc + digit_val c)%Z) ds 0%Z.

(** The number that the digits [i], a point and the digits [f] denote. *)
Definition decimal (i f : str) : Q :=
  Qmake (digits_Z (i ++ f)) (Z.to_pos (10 ^ Z.of_nat (length f))).

Definition py_float (s : str) : option pyfloat :=
  match split_on "." s with
  | [i] =>
      if forallb is_digit i && nonempty i
      then Some (binary64 (decimal i [])) else None
  | [i; f] =>
      if forallb is_digit (i ++ f) && nonempty (i ++ f)
      then Some (binary64 (decimal i f)) else None
  | _ => None
  end.

(** [val if val < 1e7 else None]. *)
Definition below_1e7 (v : pyfloat) : option Q :=
  match v with
  | Finite x => if Qle_bool (inject_Z 10000000) x then None else Some x
  | Infinity => None
  end.

Definition opt_list {A} (o : option A) : list A :=
  match o with Some x => [x] | None => [] end.

Definition opt_bind {A B} (o : option A) (f : A -> option B) : option B :=
  match o with Some x => f x | None => None end.

(** Python's [a or b] on optional strings: the empty string is falsy. *)
Definition truthy (o : option str) : bool :=
  match o with
  | Some (_ :: _) => true
  | _ => false
  end.

Definition py_or (a b : option str) : option str :=
  if truthy a then a else b.

(** ** [extractors/costs.py] *)

Record CostItem : Type := mkCostItem {
  extracted_category : option str;
  total_cost_in_shipment_currency : option Q;
  currency : option str;
  mention : option str
}.

Definition a_uml : ascii := "228".   (* U+00E4 *)
Definition o_uml : ascii := "246".   (* U+00F6 *)
Definition u_uml : ascii := "252".   (* U+00FC *)
Definition A_uml : ascii := "196".   (* U+00C4 *)
Definition O_uml : ascii := "214".   (* U+00D6 *)
Definition U_uml : ascii := "220".   (* U+00DC *)
Definition sharp_s : ascii := "223". (* U+00DF *)

Module CostExtractor.

(** [\d{1,3}(?:\.\d{3})*,\d{1,2}] *)
Definition german_number : re :=
  (between digit 1 3 ;; star (Lit "." ;; exactly digit 3) ;;
   Lit "," ;; between digit 1 2)%re.

Definition g_desc : nat := 1.
Definition g_numcols : nat := 2.

(** [^(?P<desc>[A-Za-zÄÖÜäöüß0-9\-\.\(\)\/ ,]+?)\s+]
    [(?P<numcols>(\d{1,3}(?:\.\d{3})*,\d{1,2}\s+)+\d{1,3}(?:\.\d{3})*,\d{1,2})$] *)
Definition ROW_RE : re :=
  (Bos ;;
   Grp g_desc
     (Rep (Cls false [CRange "A" "Z"; CRange "a" "z";
                      CChar A_uml; CChar O_uml; CChar U_uml;
                      CChar a_uml; CChar o_uml; CChar u_uml; CChar sharp_s;
                      CRange "0" "9"; CChar "-"; CChar "."; CChar "(";
                      CChar ")"; CChar "/"; CChar " "; CChar ","])
          1 None false) ;;
   plus space ;;
   Grp g_numcols
     (plus (Grp 3 (german_number ;; plus space)) ;; german_number) ;;
   Eos)%re.

(** [Gesamtkosten\s+(?P<cur>[A-Z]{3})], IGNORECASE *)
Definition CURRENCY_RE : re :=
  (lits "Gesamtkosten" ;; plus space ;;
   Grp 1 (exactly (Cls false [CRange "A" "Z"]) 3))%re.

(** [\b(CHF|EUR|USD|GBP)\b], IGNORECASE *)
Definition INLINE_CURRENCY_RE : re :=
  (WordB ;; Grp 1 (alts [lits "CHF"; lits "EUR"; lits "USD"; lits "GBP"]) ;;
   WordB)%re.

Definition SKIP_KEYWORDS : list str :=
  [L "gesamtkosten"; L "gesamtbetrag"; L "anzahl"; L "anzahl worldwide";
   L "anzahl ww express"; L "package"; L "packages";
   L "ww express saver package"; L "rabatt (gesamt)";
   L "rabattzusammenfassung"; L "rabatt (gesamt)";
   L "gesamtbetrag zus" ++ a_uml :: L "tzliche tarife"].

Definition CATEGORY_MAP : list (str * str) :=
  [(L "transport", L "Freight");
   (L "dritte partei transport", L "Freight");
   (L "benzinzuschlag", L "Fuel");
   (L "diesel", L "Fuel");
   (L "maut", L "Toll");
   (L "toll", L "Toll");
   (L "zoll", L "Customs");
   (L "customs", L "Customs");
   (L "verzollung", L "Customs");
   (L "handling", L "Handling");
   (L "lager", L "Storage");
   (L "storage", L "Storage");
   (L "versicherung", L "Insurance");
   (L "insurance", L "Insurance");
   (L "rabatt", L "Discount");
   (L "discount", L "Discount");
   (L "surcharge", L "Surcharge");
   (L "geb" ++ u_uml :: L "hr", L "Surcharge");
   (L "surge fee", L "Surcharge")].

(** [_to_float] *)
Definition _to_float (s : str) : option Q :=
  match s with
  | [] => None
  | _ =>
      let clean := replace_c "," (L ".") (replace_c "." [] s) in
      opt_bind (py_float clean) below_1e7
  end.

Definition _detect_invoice_currency (text : str) : option str :=
  opt_bind (re_search true CURRENCY_RE text) (group 1).

Definition _detect_currency_inline (line : str) : option str :=
  option_map upper (opt_bind (re_search true INLINE_CURRENCY_RE line) (group 1)).

(** The dedup key [sig] and its equality, as Python compares tuples. *)
Definition signature : Type := (option str * option Q * option str)%type.

Definition opt_eqb {A} (eqb : A -> A -> bool) (a b : option A) : bool :=
  match a, b with
  | Some x, Some y => eqb x y
  | None, None => true
  | _, _ => false
  end.

Definition sig_eqb (a b : signature) : bool :=
  let '(c1, v1, u1) := a in
  let '(c2, v2, u2) := b in
  opt_eqb str_eqb c1 c2 && opt_eqb Qeq_bool v1 v2 && opt_eqb str_eqb u1 u2.

Definition sig_of (item : CostItem) : signature :=
  (extracted_category item, total_cost_in_shipment_currency item,
   currency item).

Section WithFuzz.

(** [rapidfuzz.fuzz.partial_ratio], a score between 0 and 100. *)
Variable partial_ratio : str -> str -> Q.

(** [_normalize_category]: the loop state is [(best_cat, best_score)]. *)
Definition _normalize_category (desc : str) : option str :=
  let d := strip (lower desc) in
  let '(best_cat, best_score) :=
    fold_left
      (fun (acc : option str * Q) (kc : str * str) =>
         let score := partial_ratio (fst kc) d in
         if Qle_bool score (snd acc) then acc else (Some (snd kc), score))
      CATEGORY_MAP (None, inject_Z 0) in
  if Qle_bool (inject_Z 70) best_score then best_cat else Some desc.

(** What one line contributes: nothing, or the item built from the row. *)
Definition row_item (currency_invoice : option str) (raw : str)
  : option CostItem :=
  let line := strip raw in
  match line with
  | [] => None
  | _ =>
      let low := lower line in
      if existsb (fun k => contains k low) SKIP_KEYWORDS then None
      else
        match re_match false ROW_RE line with
        | None => None
        | Some mo =>
            match group g_desc mo, group g_numcols mo with
            | Some gd, Some gn =>
                let desc := strip gd in
                let numcols := split_ws gn in
                match last_opt numcols with
                | None => None
                | Some raw_val =>
                    let cost_val := _to_float raw_val in
                    let currency_line := _detect_currency_inline line in
                    let currency := py_or currency_line currency_invoice in
                    Some (mkCostItem (_normalize_category desc)
                                     cost_val currency (Some line))
                end
            | _, _ => None
            end
        end
  end.

(** The loop state: [cost_items] and [seen]. *)
Definition cost_step (currency_invoice : option str)
           (acc : list CostItem * list signature) (raw : str)
  : list CostItem * list signature :=
  match row_item currency_invoice raw with
  | None => acc
  | Some item =>
      let sig := sig_of item in
      if existsb (sig_eqb sig) (snd acc) then acc
      else (fst acc ++ [item], sig :: snd acc)
  end.

Definition extract (text : str) : list CostItem :=
  let currency_invoice := _detect_invoice_currency text in
  fst (fold_left (cost_step currency_invoice) (split_on "010" text) ([], [])).

End WithFuzz.

End CostExtractor.

(** ** [extract.py] *)

(** [_extract_block_currency] *)
Fixpoint first_currency (items : list CostItem) : option str :=
  match items with
  | [] => None
  | item :: more =>
      if truthy (currency item) then currency item else first_currency more
  end.

Definition _extract_block_currency (cost_items : list CostItem) : option str :=
  first_currency (rev cost_items).

(** ** Dates

    The date part of a [datetime]. [strftime("%Y-%m-%d")] writes month and
    day on two digits and leaves the year to the C library: glibc, which
    CPython uses on Linux, writes it without padding, so that a year below
    1000 has fewer than four digits. *)

Record Date : Type := mkDate {
  d_year : nat;
  d_month : nat;
  d_day : nat
}.

Definition digit_char (n : nat) : ascii := ascii_of_nat (48 + n mod 10).

Fixpoint dec_aux (fuel n : nat) (acc : str) : str :=
  match fuel with
  | O => acc
  | S f =>
      if n <? 10 then digit_char n :: acc
      else dec_aux f (n / 10) (digit_char n :: acc)
  end.

(** [str(n)] for a natural number. *)
Definition dec (n : nat) : str := dec_aux (S n) n [].

(** [f"{n:0{w}d}"]. *)
Definition zfill (w n : nat) : str :=
  repeat "0"%char (w - length (dec n)) ++ dec n.

(** The last two digits of [n], and its last four. *)
Definition two_digits (n : nat) : str :=
  [digit_char (n / 10); digit_char n].

Definition four_digits (n : nat) : str :=
  two_digits (n / 100) ++ two_digits n.

Definition strftime_iso (d : Date) : str :=
  dec (d_year d) ++ L "-" ++ two_digits (d_month d) ++ L "-"
  ++ two_digits (d_day d).

(** What a [datetime] guarantees of its fields. *)
Definition valid_date (d : Date) : Prop :=
  d_year d < 100 * 100 /\ d_month d <= 12 /\ d_day d <= 31.

(** [a <= b] on dates. *)
Definition date_le (a b : Date) : Prop :=
  d_year a < d_year b
  \/ (d_year a = d_year b /\
      (d_month a < d_month b
       \/ (d_month a = d_month b /\ d_day a <= d_day b))).

(** ** [validate.py] *)

(** The record the orchestrator assembles, with the types its fields have
    there. *)
Record ShipmentRecord : Type := mkRecord {
  identifier : str;
  invoice_page : option Z;
  shipment_date : option str;
  shipment_type : option str;
  currency_shipment : option str;
  origin_country : option str;
  origin_city : option str;
  origin_zipcode : option str;
  destination_country : option str;
  destination_city : option str;
  destination_zipcode : option str;
  gross_weight : option Q;
  chargeable_weight : option Q;
  loading_meter : option Q;
  cubic_meter : option Q;
  pallet_amount : option Z;
  cost_items : list CostItem
}.

Module Validator.

(** [_clean_str]: [str(value)] is [value] on a string. *)
Definition _clean_str (value : option str) : option str :=
  match value with
  | None => None
  | Some v =>
      match strip v with
      | [] => None
      | val => Some val
      end
  end.

(** [_clean_float]: [float(value)] is [value] on a float. *)
Definition _clean_float (value : option Q) : option Q :=
  match value with
  | None => None
  | Some v => Some v
  end.

(** [_clean_int]: [int(value)] is [value] on an int. *)
Definition _clean_int (value : option Z) : option Z :=
  match value with
  | None => None
  | Some v => Some v
  end.

Section WithLibraries.

(** [datetime.strptime(value, "%Y-%m-%d")] and
    [dateutil.parser.parse(value, dayfirst=True)]; [None] stands for the
    exception. *)
Variable strptime_iso : str -> option Date.
Variable parse_dayfirst : str -> option Date.

(** [pycountry.countries.get(alpha_2=code)] as a truth value, and
    [pycountry.countries.lookup(code).alpha_2], [None] for [LookupError]. *)
Variable countries_get_alpha_2 : str -> bool.
Variable countries_lookup : str -> option str.

(** [_clean_date] *)
Definition _clean_date (value : option str) : option str :=
  if negb (truthy value) then None
  else
    match value with
    | None => None
    | Some v =>
        match strptime_iso v with
        | Some dt => Some (strftime_iso dt)
        | None =>
            match parse_dayfirst v with
            | Some dt => Some (strftime_iso dt)
            | None => None
            end
        end
    end.

(** [_clean_country] *)
Definition _clean_country (code : option str) : option str :=
  if negb (truthy code) then None
  else
    match code with
    | None => None
    | Some c =>
        let code := upper (strip c) in
        if countries_get_alpha_2 code then Some code
        else
          match countries_lookup code with
          | Some alpha_2 => Some alpha_2
          | None => Some code
          end
    end.

(** [_clean_cost_item] *)
Definition _clean_cost_item (item : CostItem) : CostItem :=
  mkCostItem (_clean_str (extracted_category item))
             (_clean_float (total_cost_in_shipment_currency item))
             (_clean_str (currency item))
             (_clean_str (mention item)).

(** [validate_record] *)
Definition validate_record (record : ShipmentRecord) : ShipmentRecord :=
  mkRecord (identifier record)
           (invoice_page record)
           (_clean_date (shipment_date record))
           (_clean_str (shipment_type record))
           (_clean_str (currency_shipment record))
           (_clean_country (origin_country record))
           (_clean_str (origin_city record))
           (_clean_str (origin_zipcode record))
           (_clean_country (destination_country record))
           (_clean_str (destination_city record))
           (_clean_str (destination_zipcode record))
           (_clean_float (gross_weight record))
           (_clean_float (chargeable_weight record))
           (_clean_float (loading_meter record))
           (_clean_float (cubic_meter record))
           (_clean_int (pallet_amount record))
           (map _clean_cost_item (cost_items record)).

End WithLibraries.

End Validator.

(** ** [extractors/identifiers.py] *)

Module IdentifierExtractor.

Definition upper_or_digit : re :=
  Cls false [CRange "0" "9"; CRange "A" "Z"].

(** [\b1Z[0-9A-Z]{8,20}\b] *)
Definition RE_UPS_STRICT : re :=
  (WordB ;; Lit "1" ;; Lit "Z" ;; between upper_or_digit 8 20 ;; WordB)%re.

(** [\b[1Iil][Zz][0-9A-Z]{8,20}\b] *)
Definition RE_UPS_LOOSE : re :=
  (WordB ;; Cls false [CChar "1"; CChar "I"; CChar "i"; CChar "l"] ;;
   Cls false [CChar "Z"; CChar "z"] ;; between upper_or_digit 8 20 ;;
   WordB)%re.

(** [\b[A-Z0-9]{8,25}\b] *)
Definition RE_GENERIC : re :=
  (WordB ;; between (Cls false [CRange "A" "Z"; CRange "0" "9"]) 8 25 ;;
   WordB)%re.

Definition KEYWORDS : list str :=
  [L "paketnummer"; L "frachtbrief"; L "tracking"; L "waybill"; L "awb";
   L "referenz"; L "sendung"; L "shipment"; L "consignment"].

(** [_fix_ocr] *)
Definition _fix_ocr (s : str) : str :=
  replace_c "l" (L "1")
    (replace_c "I" (L "1") (replace_c "o" (L "0") (replace_c "O" (L "0") s))).

(** [re.sub(r"^[Iil]", "1", cleaned)] *)
Definition fix_leading (s : str) : str :=
  match s with
  | c :: t =>
      if ascii_eqb c "I" || ascii_eqb c "i" || ascii_eqb c "l"
      then "1"%char :: t else s
  | [] => []
  end.

(** [_clean_id]; [re.sub(r"[^A-Za-z0-9]", "", s)] keeps the ASCII letters
    and digits. *)
Definition _clean_id (s : str) : str :=
  upper (fix_leading (filter is_alnum s)).

(** [s.isdigit()] *)
Definition py_str_isdigit (s : str) : bool :=
  forallb py_isdigit s && nonempty s.

(** [^0{3,}] *)
Definition RE_ZEROS : re := (Bos ;; Rep (Lit "0") 3 None true)%re.

(** [_is_plausible] *)
Definition _is_plausible (s : str) : bool :=
  if length s <? 8 then false
  else if py_str_isdigit s && (length s <? 10) then false
  else if is_some (re_match false RE_ZEROS s) then false
  else if contains (L "PKG") s || contains (L "PACKAGE") s then false
  else true.

Definition first_cleaned (l : list str) : option str :=
  match l with
  | [] => None
  | x :: _ => Some (_clean_id x)
  end.

(** Tier 2: the first line with a loose match. *)
Fixpoint loose_tier (lines : list str) : option str :=
  match lines with
  | [] => None
  | line :: more =>
      match findall false RE_UPS_LOOSE (_fix_ocr line) with
      | [] => loose_tier more
      | loose => first_cleaned loose
      end
  end.

(** Tier 3: the first keyword line with a plausible generic token. *)
Fixpoint keyword_tier (lines : list str) : option str :=
  match lines with
  | [] => None
  | line :: more =>
      if existsb (fun k => contains k (lower line)) KEYWORDS then
        match filter _is_plausible
                (findall false RE_GENERIC (_fix_ocr line)) with
        | [] => keyword_tier more
        | cand => first_cleaned cand
        end
      else keyword_tier more
  end.

(** [extract] *)
Definition extract (block_text : str) : option str :=
  let lines := split_on "010" block_text in
  match findall false RE_UPS_STRICT block_text with
  | [] =>
      match loose_tier lines with
      | Some r => Some r
      | None =>
          match keyword_tier lines with
          | Some r => Some r
          | None =>
              first_cleaned
                (filter _is_plausible
                   (findall false RE_GENERIC (_fix_ocr block_text)))
          end
      end
  | strict => first_cleaned strict
  end.

End IdentifierExtractor.

(** ** [extractors/dates.py] *)

(** [int(s)] for a string of ASCII digits that is not empty. *)
Definition digits_nat (ds : str) : nat :=
  fold_left (fun acc c => 10 * acc + (nat_of_ascii c - 48)) ds 0.

(** Lexicographic order on strings, by code point: [a <= b]. *)
Fixpoint str_leb (a b : str) : bool :=
  match a, b with
  | [], _ => true
  | _ :: _, [] => false
  | x :: a', y :: b' =>
      if (N_of_ascii x <? N_of_ascii y)%N then true
      else if (N_of_ascii y <? N_of_ascii x)%N then false
      else str_leb a' b'
  end.

Fixpoint insert_sorted (x : str) (l : list str) : list str :=
  match l with
  | [] => [x]
  | y :: l' => if str_leb x y then x :: l else y :: insert_sorted x l'
  end.

(** [sorted(xs)] on strings. *)
Definition py_sorted (l : list str) : list str :=
  fold_right insert_sorted [] l.

Module DateExtractor.

Definition MONTH_MAP : list (str * str) :=
  [(L "jan", L "January"); (L "januar", L "January");
   (L "feb", L "February"); (L "februar", L "February");
   ([ "m"%char; a_uml; "r"%char ], L "March");
   (L "maerz", L "March");
   ([ "m"%char; a_uml; "r"%char; "z"%char ], L "March");
   (L "mar", L "March"); (L "mrz", L "March");
   (L "apr", L "April"); (L "april", L "April");
   (L "mai", L "May");
   (L "jun", L "June"); (L "juni", L "June");
   (L "jul", L "July"); (L "juli", L "July");
   (L "aug", L "August"); (L "august", L "August");
   (L "sep", L "September"); (L "sept", L "September");
   (L "september", L "September");
   (L "okt", L "October"); (L "oktober", L "October"); (L "oct", L "October");
   (L "nov", L "November"); (L "november", L "November");
   (L "dez", L "December"); (L "dezember", L "December");
   (L "dec", L "December")].

Definition date_sep : re := Cls false [CChar "."; CChar "-"; CChar "/"].

(** [\b(\d{1,2})[\.\-/]?\s*([A-Za-zÄÖÜäöü]{3,12})\.?,?\s*(\d{2,4})?\b] *)
Definition RE_TEXTUAL : re :=
  (WordB ;; Grp 1 (between digit 1 2) ;; opt date_sep ;; star space ;;
   Grp 2 (between (Cls false [CRange "A" "Z"; CRange "a" "z";
                              CChar A_uml; CChar O_uml; CChar U_uml;
                              CChar a_uml; CChar o_uml; CChar u_uml]) 3 12) ;;
   opt (Lit ".") ;; opt (Lit ",") ;; star space ;;
   opt (Grp 3 (between digit 2 4)) ;; WordB)%re.

(** [\b(\d{1,2})[./-](\d{1,2})[./-](\d{2,4})\b] and
    [\b(\d{4})[./-](\d{1,2})[./-](\d{1,2})\b] *)
Definition RE_NUMERIC : list re :=
  [(WordB ;; Grp 1 (between digit 1 2) ;; date_sep ;;
    Grp 2 (between digit 1 2) ;; date_sep ;;
    Grp 3 (between digit 2 4) ;; WordB)%re;
   (WordB ;; Grp 1 (exactly digit 4) ;; date_sep ;;
    Grp 2 (between digit 1 2) ;; date_sep ;;
    Grp 3 (between digit 1 2) ;; WordB)%re].

(** One tuple of [findall] for a pattern with three groups: a group that
    took no part yields the empty string. *)
Definition groups3 (mo : mobj) : str * str * str :=
  let g i := match group i mo with Some v => v | None => [] end in
  (g 1, g 2, g 3).

Definition findall3 (r : re) (s : str) : list (str * str * str) :=
  map groups3 (finditer false r s).

(** [m[k]] for a dict kept as its list of items. *)
Fixpoint lookup (k : str) (m : list (str * str)) : option str :=
  match m with
  | [] => None
  | (k', v) :: m' => if str_eqb k k' then Some v else lookup k m'
  end.

(** [_normalize_month] *)
Definition _normalize_month (raw : str) : option str :=
  let r := replace_c "0" (L "o") (replace_c "." [] (lower raw)) in
  if is_some (lookup r MONTH_MAP) then Some r
  else
    match find (fun key => str_eqb (firstn 3 r) (firstn 3 key))
               (map fst MONTH_MAP) with
    | Some key => Some key
    | None =>
        find (fun key => str_eqb (firstn 2 r) (firstn 2 key))
             (map fst MONTH_MAP)
    end.

(** Truth value of an optional int. *)
Definition truthy_nat (o : option nat) : bool :=
  match o with
  | Some (S _) => true
  | _ => false
  end.

(** [_fix_year], on the strings that [extract] passes to it: groups of one
    to four digits of the patterns, for which [int(y)] is the number that
    the digits write. On other strings [int] raises [ValueError] or returns
    a negative number; none reaches [_fix_year]. Years are natural
    numbers. *)
Definition _fix_year (y : str) (invoice_year : option nat) : option nat :=
  let y := digits_nat y in
  if 1900 <=? y then Some y
  else if y <? 100 then
    if truthy_nat invoice_year then
      match invoice_year with
      | Some iy =>
          let century := firstn 2 (dec iy) in
          Some (digits_nat (century ++ zfill 2 y))
      | None => Some (2000 + y)
      end
    else Some (2000 + y)
  else None.

Section WithDateutil.

(** [dateutil.parser.parse(ds, dayfirst=True)]; [None] stands for the
    exception that [_safe_parse] catches. *)
Variable parse_dayfirst : str -> option Date.

Definition _safe_parse (ds : str) : option Date := parse_dayfirst ds.

(** The candidate, if any, of one textual match. *)
Definition textual_candidate (invoice_year : option nat)
           (t : str * str * str) : option Date :=
  let '(day, month_raw, year_raw) := t in
  match _normalize_month month_raw with
  | None => None
  | Some month_key =>
      match lookup month_key MONTH_MAP with
      | None => None
      | Some month_name =>
          let year :=
            match year_raw with
            | [] => invoice_year
            | _ => _fix_year year_raw invoice_year
            end in
          if truthy_nat year then
            match year with
            | Some yr =>
                _safe_parse (day ++ L " " ++ month_name ++ L " " ++ dec yr)
            | None => None
            end
          else None
      end
  end.

(** The candidate, if any, of one numeric match. *)
Definition numeric_candidate (invoice_year : option nat)
           (t : str * str * str) : option Date :=
  let '(n0, n1, n2) := t in
  let '(d, m, y) := if length n0 <=? 2 then (n0, n1, n2) else (n2, n1, n0) in
  let y := _fix_year y invoice_year in
  if truthy_nat y then
    match y with
    | Some yr => _safe_parse (d ++ L "-" ++ m ++ L "-" ++ dec yr)
    | None => None
    end
  else None.

(** The list [candidates] at the end of the two passes. *)
Definition candidates (block_text : str) (invoice_year : option nat)
  : list Date :=
  flat_map (fun t => opt_list (textual_candidate invoice_year t))
           (findall3 RE_TEXTUAL block_text)
  ++ flat_map
       (fun regex =>
          flat_map (fun t => opt_list (numeric_candidate invoice_year t))
                   (findall3 regex block_text))
       RE_NUMERIC.

(** [extract] *)
Definition extract (block_text : str) (invoice_year : option nat)
  : option str :=
  match candidates block_text invoice_year with
  | [] => None
  | cands => hd_error (py_sorted (map strftime_iso cands))
  end.

End WithDateutil.

End DateExtractor.

(** ** [extractors/weights.py] *)

(** [int(s)] for a string of digits. *)
Definition py_int (ds : str) : Z := digits_Z ds.

(** A pattern character above U+00FF: no text of the model has it. *)
Definition never : re := Cls false [].

Record Weights : Type := mkWeights {
  w_gross_weight : option Q;
  w_chargeable_weight : option Q;
  w_loading_meter : option Q;
  w_cubic_meter : option Q;
  w_pallet_amount : option Z
}.

Module WeightExtractor.

(** The group [\d+[.,]?\d*], in parentheses. *)
Definition RE_NUMBER : re :=
  Grp 1 (plus digit ;; opt (Cls false [CChar "."; CChar ","]) ;;
         star digit)%re.

(** [(pakete|pieces|st√ºck|stk|packages|pkgs?|colis|pallets?)[:,]?\s*(\d+)],
    IGNORECASE; the third alternative has the character U+221A. *)
Definition RE_PAKETE : re :=
  (Grp 1 (alts [lits "pakete"; lits "pieces";
                (lits "st" ;; never ;; Lit "186" ;; lits "ck")%re;
                lits "stk"; lits "packages";
                (lits "pkg" ;; opt (Lit "s"))%re; lits "colis";
                (lits "pallet" ;; opt (Lit "s"))%re]) ;;
   opt (Cls false [CChar ":"; CChar ","]) ;; star space ;;
   Grp 2 (plus digit))%re.

(** [\b(WW|TB|Express|Worldwide|Package|PKG)\b], IGNORECASE *)
Definition RE_SERVICE_LINE_KEY : re :=
  (WordB ;;
   Grp 1 (alts [lits "WW"; lits "TB"; lits "Express"; lits "Worldwide";
                lits "Package"; lits "PKG"]) ;;
   WordB)%re.

(** [\b1Z[0-9A-Z]{8,20}\b], IGNORECASE *)
Definition RE_TRACKING : re :=
  (WordB ;; Lit "1" ;; Lit "Z" ;;
   between (Cls false [CRange "0" "9"; CRange "A" "Z"]) 8 20 ;; WordB)%re.

(** [(gross|brutto|actual weight|gewicht|weight|chargeable|chargeable weight|rechnungsgewicht)],
    IGNORECASE *)
Definition RE_WEIGHT_KW : re :=
  Grp 1 (alts [lits "gross"; lits "brutto"; lits "actual weight";
               lits "gewicht"; lits "weight"; lits "chargeable";
               lits "chargeable weight"; lits "rechnungsgewicht"]).

(** [(lademeter|loading\s*meter|ld\.?m|lm)], IGNORECASE *)
Definition RE_LM : re :=
  Grp 1 (alts [lits "lademeter";
               (lits "loading" ;; star space ;; lits "meter")%re;
               (lits "ld" ;; opt (Lit ".") ;; Lit "m")%re;
               lits "lm"]).

(** [(m3|cbm|cubic|kubik|volume)], IGNORECASE *)
Definition RE_CBM : re :=
  Grp 1 (alts [lits "m3"; lits "cbm"; lits "cubic"; lits "kubik";
               lits "volume"]).

Definition comma_or_dot : re := Cls false [CChar ","; CChar "."].

(** [\d+[,\.]\d{2}\s+\d+[,\.]\d{2}] *)
Definition RE_COST_ROW : re :=
  (plus digit ;; comma_or_dot ;; exactly digit 2 ;; plus space ;;
   plus digit ;; comma_or_dot ;; exactly digit 2)%re.

(** [\b(\d+)\s+(\d+[.,]\d+)\b] *)
Definition RE_INT_FLOAT : re :=
  (WordB ;; Grp 1 (plus digit) ;; plus space ;;
   Grp 2 (plus digit ;; Cls false [CChar "."; CChar ","] ;; plus digit) ;;
   WordB)%re.

(** [(\d+)\s*(?:PKG|pkg|Packages|PKGS)\b], IGNORECASE *)
Definition RE_NUM_PKG : re :=
  (Grp 1 (plus digit) ;; star space ;;
   alts [lits "PKG"; lits "pkg"; lits "Packages"; lits "PKGS"] ;;
   WordB)%re.

(** [(chargeable|berechnet|frachtpflichtig|rechnungsgewicht)], IGNORECASE *)
Definition RE_CHARGEABLE : re :=
  Grp 1 (alts [lits "chargeable"; lits "berechnet"; lits "frachtpflichtig";
               lits "rechnungsgewicht"]).

(** [pattern.findall(s)] for a pattern whose only group is number 1. *)
Definition findall1 (ic : bool) (r : re) (s : str) : list str :=
  map (fun mo => match group 1 mo with Some v => v | None => [] end)
      (finditer ic r s).

(** [_to_float] *)
Definition _to_float (s : str) : option Q :=
  opt_bind (py_float (replace_c "," (L ".") s)) below_1e7.

Definition is_cost_row (ln : str) : bool := re_test false RE_COST_ROW ln.

(** Step 0: the lines that are not cost rows. *)
Definition clean_lines (lines : list str) : list str :=
  filter (fun ln => negb (is_cost_row ln)) lines.

Definition falsy_int (o : option Z) : bool :=
  match o with
  | None => true
  | Some z => Z.eqb z 0
  end.

(** Pass 1, the body of the loop. *)
Definition pass1_step (w : Weights) (line : str) : Weights :=
  if re_test true RE_TRACKING line || re_test true RE_SERVICE_LINE_KEY line
  then
    let w1 :=
      match re_search false RE_INT_FLOAT line with
      | Some mo =>
          match group 1 mo, group 2 mo with
          | Some g1, Some g2 =>
              mkWeights (_to_float g2) (w_chargeable_weight w)
                        (w_loading_meter w) (w_cubic_meter w)
                        (Some (py_int g1))
          | _, _ => w
          end
      | None => w
      end in
    match re_search true RE_NUM_PKG line with
    | Some mo =>
        if falsy_int (w_pallet_amount w1) then
          match group 1 mo with
          | Some g1 =>
              mkWeights (w_gross_weight w1) (w_chargeable_weight w1)
                        (w_loading_meter w1) (w_cubic_meter w1)
                        (Some (py_int g1))
          | None => w1
          end
        else w1
    | None => w1
    end
  else w.

(** Pass 2, the body of the loop. *)
Definition pass2_step (w : Weights) (line : str) : Weights :=
  match re_search true RE_PAKETE line with
  | Some mo =>
      match group 2 mo with
      | Some g2 =>
          mkWeights (w_gross_weight w) (w_chargeable_weight w)
                    (w_loading_meter w) (w_cubic_meter w) (Some (py_int g2))
      | None => w
      end
  | None => w
  end.

(** [_to_float(nums[-1])] when [nums] is not empty. *)
Definition last_number (line : str) : option (option Q) :=
  option_map _to_float (last_opt (findall1 false RE_NUMBER line)).

(** Pass 3, the body of the loop. *)
Definition pass3_step (w : Weights) (line : str) : Weights :=
  let w1 :=
    if re_test true RE_WEIGHT_KW line then
      match last_number line with
      | Some (Some val) =>
          if re_test true RE_CHARGEABLE line
          then mkWeights (w_gross_weight w) (Some val) (w_loading_meter w)
                         (w_cubic_meter w) (w_pallet_amount w)
          else
            match w_gross_weight w with
            | None => mkWeights (Some val) (w_chargeable_weight w)
                                (w_loading_meter w) (w_cubic_meter w)
                                (w_pallet_amount w)
            | Some _ => w
            end
      | _ => w
      end
    else w in
  let w2 :=
    if re_test true RE_LM line then
      match last_number line with
      | Some v => mkWeights (w_gross_weight w1) (w_chargeable_weight w1) v
                            (w_cubic_meter w1) (w_pallet_amount w1)
      | None => w1
      end
    else w1 in
  if re_test true RE_CBM line then
    match last_number line with
    | Some v => mkWeights (w_gross_weight w2) (w_chargeable_weight w2)
                          (w_loading_meter w2) v (w_pallet_amount w2)
    | None => w2
    end
  else w2.

(** [max(values)] and [min(values)] on two floats; comparing [None] with a
    float raises [TypeError], rendered as [None] here. *)
Definition max2 (a b : option Q) : option Q :=
  match a, b with
  | Some x, Some y => Some (if Qle_bool y x then x else y)
  | _, _ => None
  end.

Definition min2 (a b : option Q) : option Q :=
  match a, b with
  | Some x, Some y => Some (if Qle_bool x y then x else y)
  | _, _ => None
  end.

(** Pass 4, the body of the loop; [None] is the [TypeError] above. *)
Definition pass4_step (w : Weights) (line : str) : option Weights :=
  if contains (L "gewicht/container") (lower line) then
    let nums := findall1 false RE_NUMBER line in
    let values := map _to_float (filter nonempty nums) in
    match values with
    | [a; b] =>
        match max2 a b, min2 a b with
        | Some mx, Some mn =>
            Some (mkWeights (Some mn) (Some mx) (w_loading_meter w)
                            (w_cubic_meter w) (w_pallet_amount w))
        | _, _ => None
        end
    | [a] =>
        match w_gross_weight w with
        | None => Some (mkWeights a (w_chargeable_weight w)
                                  (w_loading_meter w) (w_cubic_meter w)
                                  (w_pallet_amount w))
        | Some _ => Some w
        end
    | _ => Some w
    end
  else Some w.

Definition pass4 (lines : list str) (w : Weights) : option Weights :=
  fold_left (fun acc line => opt_bind acc (fun w' => pass4_step w' line))
            lines (Some w).

Definition no_weights : Weights := mkWeights None None None None None.

(** The four passes over the lines left by step 0. *)
Definition passes (lines : list str) : option Weights :=
  let w1 := fold_left pass1_step lines no_weights in
  let w2 := fold_left pass2_step lines w1 in
  let w3 := fold_left pass3_step lines w2 in
  pass4 lines w3.

(** [extract]; [None] when it raises. *)
Definition extract (block_text : str) : option Weights :=
  passes (clean_lines (stripped_lines block_text)).

End WeightExtractor.

(** ** [extract.py], continued *)

Record Locations : Type := mkLocations {
  l_origin_country : option str;
  l_origin_city : option str;
  l_origin_zipcode : option str;
  l_destination_country : option str;
  l_destination_city : option str;
  l_destination_zipcode : option str
}.

Module Orchestrator.

(** [\b(20\d{2})\b] *)
Definition YEAR_RE : re :=
  (WordB ;; Grp 1 (Lit "2" ;; Lit "0" ;; exactly digit 2) ;; WordB)%re.

(** [_infer_invoice_year] *)
Fixpoint _infer_invoice_year (pages : list Page) : option nat :=
  match pages with
  | [] => None
  | page :: more =>
      match opt_bind (re_search false YEAR_RE (text page)) (group 1) with
      | Some y => Some (digits_nat y)
      | None => _infer_invoice_year more
      end
  end.

Section WithCollaborators.

Variable partial_ratio : str -> str -> Q.
Variable parse_dayfirst : str -> option Date.
Variable strptime_iso : str -> option Date.
Variable countries_get_alpha_2 : str -> bool.
Variable countries_lookup : str -> option str.

(** [ServiceExtractor.extract] and [LocationExtractor.extract]: the record
    takes their results over as they are. *)
Variable service_extract : str -> option str.
Variable location_extract : str -> Locations.

(** The body of [for block in shipment_blocks]: [Some None] when the block
    is skipped, [None] when an extractor raises. *)
Definition block_record (invoice_year : option nat) (block : ShipmentBlock)
  : option (option ShipmentRecord) :=
  let text := b_text block in
  let page := b_page_num block in
  match IdentifierExtractor.extract text with
  | None => Some None
  | Some identifier =>
      if negb (nonempty identifier) then Some None
      else
        let shipment_date :=
          DateExtractor.extract parse_dayfirst text invoice_year in
        let shipment_type := service_extract text in
        let locations := location_extract text in
        match WeightExtractor.extract text with
        | None => None
        | Some weights =>
            let cost_items := CostExtractor.extract partial_ratio text in
            let currency := _extract_block_currency cost_items in
            let result :=
              mkRecord identifier page shipment_date shipment_type currency
                       (l_origin_country locations)
                       (l_origin_city locations)
                       (l_origin_zipcode locations)
                       (l_destination_country locations)
                       (l_destination_city locations)
                       (l_destination_zipcode locations)
                       (w_gross_weight weights)
                       (w_chargeable_weight weights)
                       (w_loading_meter weights)
                       (w_cubic_meter weights)
                       (w_pallet_amount weights)
                       cost_items in
            Some (Some (Validator.validate_record
                          strptime_iso parse_dayfirst
                          countries_get_alpha_2 countries_lookup result))
        end
  end.

Fixpoint blocks_loop (invoice_year : option nat)
         (blocks : list ShipmentBlock) : option (list ShipmentRecord) :=
  match blocks with
  | [] => Some []
  | block :: more =>
      match block_record invoice_year block with
      | None => None
      | Some r =>
          match blocks_loop invoice_year more with
          | None => None
          | Some rs => Some (opt_list r ++ rs)
          end
      end
  end.

(** [extract_invoice], from the loaded pages on. *)
Definition extract_invoice (pages : list Page)
  : option (list ShipmentRecord) :=
  blocks_loop (_infer_invoice_year pages) (Segmenter.segment pages).

End WithCollaborators.

End Orchestrator.

(** *** Vocabulary for the currency property *)

(** The currency of the last item that has one. *)
Definition last_with_currency (items : list CostItem) : option str :=
  match last_opt (filter (fun it => is_some (currency it)) items) with
  | Some it => currency it
  | None => None
  end.

(** ** Stand-ins for the external packages

    Simple functions of the right types, to run the pipeline on examples. *)

Module Sample.

(** 100 when the key occurs in the text, else 0. *)
Definition partial_ratio (key d : str) : Q :=
  if contains key d then inject_Z 100 else inject_Z 0.

Definition leap (y : nat) : bool :=
  ((y mod 4 =? 0) && negb (y mod 100 =? 0)) || (y mod 400 =? 0).

Definition days_in_month (y m : nat) : nat :=
  match m with
  | 2 => if leap y then 29 else 28
  | 4 | 6 | 9 | 11 => 30
  | _ => 31
  end.

(** [datetime(y, m, d)], [None] for [ValueError]. *)
Definition make_date (y m d : nat) : option Date :=
  if (1 <=? y) && (y <? 100 * 100) && (1 <=? m) && (m <=? 12)
     && (1 <=? d) && (d <=? days_in_month y m)
  then Some (mkDate y m d) else None.

Definition month_number (name : str) : option nat :=
  let names := [L "January"; L "February"; L "March"; L "April"; L "May";
                L "June"; L "July"; L "August"; L "September"; L "October";
                L "November"; L "December"] in
  let fix go (i : nat) (l : list str) : option nat :=
    match l with
    | [] => None
    | n :: l' => if str_eqb n name then Some i else go (S i) l'
    end in
  go 1 names.

Definition all_digits (s : str) : bool := forallb is_digit s && nonempty s.

(** Day-first reading of "D-M-YYYY" and "D Month YYYY"; anything else is
    refused. *)
Definition parse_dayfirst (ds : str) : option Date :=
  match split_on "-" ds with
  | [a; b; y] =>
      if all_digits a && all_digits b && all_digits y then
        let a := digits_nat a in
        let b := digits_nat b in
        let y := digits_nat y in
        if (12 <? a) || (b <=? 12) then make_date y b a
        else make_date y a b
      else None
  | _ =>
      match split_on " " ds with
      | [d; mn; y] =>
          if all_digits d && all_digits y then
            match month_number mn with
            | Some mo => make_date (digits_nat y) mo (digits_nat d)
            | None => None
            end
          else None
      | _ => None
      end
  end.

(** "YYYY-MM-DD" with a four-digit year. *)
Definition strptime_iso (s : str) : option Date :=
  match split_on "-" s with
  | [y; mo; d] =>
      if all_digits y && (length y =? 4) && all_digits mo
         && (length mo <=? 2) && all_digits d && (length d <=? 2)
      then make_date (digits_nat y) (digits_nat mo) (digits_nat d)
      else None
  | _ => None
  end.

(** A reader kept to the years from 1000 on, which [%Y] prints on four
    digits whatever the C library. *)
Definition from_1000 (read : str -> option Date) (s : str) : option Date :=
  match read s with
  | Some d => if 1000 <=? d_year d then Some d else None
  | None => None
  end.

(** An excerpt of ISO 3166. *)
Definition countries : list (str * str) :=
  [(L "DE", L "GERMANY"); (L "CH", L "SWITZERLAND"); (L "FR", L "FRANCE");
   (L "HK", L "HONG KONG"); (L "US", L "UNITED STATES")].

Definition countries_get_alpha_2 (code : str) : bool :=
  existsb (fun c => str_eqb (fst c) code) countries.

Definition countries_lookup (value : str) : option str :=
  option_map fst
    (find (fun c => str_eqb (lower (fst c)) (lower value)
                    || str_eqb (lower (snd c)) (lower value)) countries).

Definition service_extract (text : str) : option str :=
  if contains (L "express") (lower text) then Some (L "Express") else None.

Definition location_extract (text : str) : Locations :=
  mkLocations None None None None None None.

Definition extract_invoice : list Page -> option (list ShipmentRecord) :=
  Orchestrator.extract_invoice partial_ratio parse_dayfirst strptime_iso
    countries_get_alpha_2 countries_lookup service_extract location_extract.

End Sample.

(** *** Vocabulary for the weight properties *)

Module WeightSpec.
Import WeightExtractor.

(** The state after passes 1 to 3. *)
Definition after_pass1 (lines : list str) : Weights :=
  fold_left pass1_step lines no_weights.

Definition after_pass3 (lines : list str) : Weights :=
  fold_left pass3_step lines (fold_left pass2_step lines (after_pass1 lines)).

(** The values pass 4 reads on a line. *)
Definition container_values (line : str) : list (option Q) :=
  map _to_float (filter nonempty (findall1 false RE_NUMBER line)).

Definition is_container_line (line : str) : bool :=
  contains (L "gewicht/container") (lower line).

End WeightSpec.

(** *** Vocabulary for the identifier properties *)

(** No attempt of pattern [r] succeeds at a position inside [pre], in the
    text [pre ++ rest] read from a position whose previous character is
    [p]. *)
Fixpoint no_match_in (ic : bool) (r : re) (p : option ascii)
         (pre rest : str) : bool :=
  match pre with
  | [] => true
  | c :: pre' =>
      negb (is_some (match_at ic r p (pre ++ rest)))
      && no_match_in ic r (Some c) pre' rest
  end.

(** The character before the position that follows [pre]. *)
Definition prev_after (p : option ascii) (pre : str) : option ascii :=
  match last_opt pre with
  | Some c => Some c
  | None => p
  end.

Definition ups_token : str := L "1Z12345E0205271688".
Definition bogus_id : str := L "00001618HS".

(** *** Vocabulary for the cost properties *)

(** The characters of a German-formatted number. *)
Definition german_char (x : ascii) : bool :=
  is_digit x || ascii_eqb x "." || ascii_eqb x ",".

(** *** Vocabulary for the date property *)

Definition date_27 : Date := mkDate 2025 11 27.
Definition date_30 : Date := mkDate 2025 11 30.

(** *** A record for the validator *)

(** A record whose origin country is made of two blanks. *)
Definition blank_country_record : ShipmentRecord :=
  mkRecord (L "1Z12345678AB") (Some 1%Z) None None None
           (Some (L "  ")) None None None None None
           None None None None None [].

(** *** Vocabulary for the proofs *)

(** A matcher step is sound for the relation [R]. *)
Definition sound_step (R : st -> st -> Prop) (step : K -> K) : Prop :=
  forall k s res, step k s = Some res -> exists s', R s s' /\ k s' = Some res.

(** [s'] is [s] after reading [w], all of whose characters satisfy [P]. *)
Definition reads (P : ascii -> bool) (s s' : st) (w : str) : Prop :=
  rest s = w ++ rest s' /\ forallb P w = true.

Definition any_char (_ : ascii) : bool := true.

(** The characters of the generic identifier pattern. *)
Definition generic_char : ascii -> bool :=
  cls_ok false false [CRange "A" "Z"; CRange "0" "9"].

(** No two items share their signature. *)
Definition distinct_sigs (items : list CostItem) : Prop :=
  ForallOrdPairs
    (fun a b => CostExtractor.sig_eqb (CostExtractor.sig_of a)
                                      (CostExtractor.sig_of b) = false)
    items.

(** [seen] holds the signatures of the items kept so far. *)
Definition seen_ok (acc : list CostItem * list CostExtractor.signature)
  : Prop :=
  snd acc = rev (map CostExtractor.sig_of (fst acc)).

(** A currency the validator leaves alone: [None], or a non-empty string
    without blanks around it. *)
Definition cur_ok (o : option str) : Prop := Validator._clean_str o = o.

(** * Further vocabulary

    Definitions used by the properties that go beyond the ten claims. *)

(** *** Segmentation *)

Module SegInv.
Import Segmenter.

(** The lines of a block cut out of [pages]: a tracking line kept on the page
    whose number the block carries, then kept lines without a tracking
    number. *)
Definition block_lines_ok (pages : list Page) (pn : option Z)
           (ls : list str) : Prop :=
  match ls with
  | [] => False
  | t :: more =>
      (exists p, In p pages /\ pn = Some (page_num p) /\ In t (kept_lines p))
      /\ has_tracking t = true
      /\ Forall (fun l => In l (flat_map kept_lines pages)
                          /\ has_tracking l = false) more
  end.

Definition good_block (pages : list Page) (b : ShipmentBlock) : Prop :=
  exists ls, b_text b = join nl ls /\ block_lines_ok pages (b_page_num b) ls.

(** The invariant of the two loops of [segment]. *)
Definition inv (pages : list Page) (s : state) : Prop :=
  Forall (good_block pages) (blocks s)
  /\ (inside_shipment s = true ->
      block_lines_ok pages (current_page_start s) (current_lines s))
  /\ (inside_shipment s = false -> current_lines s = []).

(** Blocks closed so far, and the one that is open. *)
Definition started (s : state) : nat :=
  length (blocks s) + (if inside_shipment s then 1 else 0).

End SegInv.

(** *** Validation *)

(** A country field that is absent, empty, or holds a character that is not
    white space. *)
Definition not_blank (o : option str) : Prop :=
  match o with
  | Some c => c = [] \/ strip c <> []
  | None => True
  end.

(** A record as the extractors may leave it: blanks around the strings, a
    date in day-first form, a country by name. *)
Definition messy_record : ShipmentRecord :=
  mkRecord (L "1Z12345678AB") (Some 1%Z) (Some (L "27-11-2025"))
           (Some (L " Express Saver")) (Some (L "CHF "))
           (Some (L " germany")) (Some (L "Oberschleissheim "))
           (Some (L "85764"))
           (Some (L "ch")) (Some (L "  ")) None
           (Some (2 # 1)) (Some (5 # 2)) None None (Some 1%Z)
           [mkCostItem (Some (L "Freight ")) (Some (61728 # 100))
                       (Some (L "CHF")) (Some (L " Transport 700,00 617,28"))].

(** ** [pdf_loader.py] *)

(** [s.replace(old, new)] for a non-empty [old]: the occurrences are taken
    from left to right and do not overlap. [skip] counts the characters of
    the occurrence just replaced that are still to be passed. *)
Fixpoint replace_from (old new : str) (s : str) (skip : nat) : str :=
  match s with
  | [] => []
  | c :: t =>
      match skip with
      | S n => replace_from old new t n
      | O =>
          if starts_with old s
          then new ++ replace_from old new t (length old - 1)
          else c :: replace_from old new t 0
      end
  end.

Definition replace_s (old new s : str) : str := replace_from old new s 0.

Definition cr : ascii := "013".

Module PDFLoader.

(** What [load] makes of [page.extract_text()], which is a string or
    [None]. *)
Definition page_text (extracted : option str) : str :=
  let raw_text := match py_or extracted (Some []) with
                  | Some t => t
                  | None => []
                  end in
  replace_c cr nl (replace_s (cr :: nl) nl raw_text).

(** The loop over [enumerate(pdf.pages)], from index [i] on. *)
Fixpoint load_from (i : Z) (extracted : list (option str)) : list Page :=
  match extracted with
  | [] => []
  | e :: more =>
      mkPage (i + 1) (page_text e) false :: load_from (i + 1) more
  end.

(** [load], from the texts that pdfplumber extracts from the pages of the
    file. *)
Definition load (extracted : list (option str)) : list Page :=
  load_from 0 extracted.

End PDFLoader.

(** ** [extractors/service.py] *)

Module ServiceExtractor.

Definition CANONICAL : list str :=
  [L "Express"; L "Express Saver"; L "Express Worldwide";
   L "International Priority"; L "International Economy"; L "Standard";
   L "Economy"; L "Premium"; L "Domestic"; L "Worldwide"].

(** [(?:(WW|TB)\s+[A-Za-z ]{3,25})|(Express(?:\s+Saver|\s+Worldwide|\s+Domestic)?)|]
    [(International\s+(?:Priority|Economy))|(Economy\s+Select)|]
    [(Standard|Economy|Premium|Worldwide)], IGNORECASE *)
Definition RE_SERVICE : re :=
  alts
    [(Grp 1 (alts [lits "WW"; lits "TB"]) ;; plus space ;;
      between (Cls false [CRange "A" "Z"; CRange "a" "z"; CChar " "]) 3 25)%re;
     Grp 2 (lits "Express" ;;
            opt (alts [(plus space ;; lits "Saver")%re;
                       (plus space ;; lits "Worldwide")%re;
                       (plus space ;; lits "Domestic")%re]))%re;
     Grp 3 (lits "International" ;; plus space ;;
            alts [lits "Priority"; lits "Economy"])%re;
     Grp 4 (lits "Economy" ;; plus space ;; lits "Select")%re;
     Grp 5 (alts [lits "Standard"; lits "Economy"; lits "Premium";
                  lits "Worldwide"])].

(** One tuple of [findall] for the five groups: a group that took no part
    yields the empty string. *)
Definition groups5 (mo : mobj) : list str :=
  map (fun i => match group i mo with Some v => v | None => [] end)
      [1; 2; 3; 4; 5].

Section WithFuzz.

(** [rapidfuzz.fuzz.ratio] and [rapidfuzz.fuzz.partial_ratio], scores
    between 0 and 100. *)
Variable ratio : str -> str -> Q.
Variable partial_ratio : str -> str -> Q.

(** [_normalize]: the loop state is [(best, best_score)]. *)
Definition _normalize (raw : str) : option str :=
  let raw := strip raw in
  let '(best, best_score) :=
    fold_left
      (fun (acc : option str * Q) (canon : str) =>
         let score := ratio (lower raw) (lower canon) in
         if Qle_bool score (snd acc) then acc else (Some canon, score))
      CANONICAL (None, inject_Z 0) in
  if Qle_bool (inject_Z 70) best_score then best else None.

(** Pass 1: the strong patterns on the whole block. *)
Definition strong_pass (text : str) : option str :=
  match map groups5 (finditer true RE_SERVICE text) with
  | [] => None
  | matches =>
      let flat := strip (join (L " ") (filter nonempty (concat matches))) in
      if nonempty flat then
        let norm := _normalize flat in
        if truthy norm then norm else None
      else None
  end.

(** Pass 2: the first canonical name close enough to the block. *)
Definition fuzzy_pass (text : str) : option str :=
  find (fun canon =>
          negb (Qle_bool (partial_ratio (lower canon) (lower text))
                         (inject_Z 85)))
       CANONICAL.

(** [canon.lower().split()[0]]; no canonical name is blank. *)
Definition first_word (canon : str) : str :=
  match split_ws (lower canon) with
  | w :: _ => w
  | [] => []
  end.

(** Pass 3: the first canonical name whose first word occurs in the
    block. *)
Definition keyword_pass (text : str) : option str :=
  find (fun canon => contains (first_word canon) (lower text)) CANONICAL.

(** [extract] *)
Definition extract (block_text : str) : option str :=
  let text := strip (replace_c "010" (L " ") block_text) in
  match strong_pass text with
  | Some norm => Some norm
  | None =>
      match fuzzy_pass text with
      | Some canon => Some canon
      | None => keyword_pass text
      end
  end.

End WithFuzz.

End ServiceExtractor.

(** ** [extractors/locations.py] *)

(** A pattern that is a plain text: one literal per character. *)
Definition lits_of (k : str) : re :=
  fold_right (fun c r => Seq (Lit c) r) Eps k.

(** [re.split] on a one-character class: pieces between the characters
    that satisfy [sep], empty pieces included. *)
Fixpoint split_by (sep : ascii -> bool) (s : str) : list str :=
  match s with
  | [] => [[]]
  | c :: t =>
      if sep c then [] :: split_by sep t
      else match split_by sep t with
           | [] => [[c]]
           | w :: ws => (c :: w) :: ws
           end
  end.

(** [re.sub(pattern, repl, s)] for a pattern that matches no empty string:
    the matches are taken from left to right and do not overlap. [skip]
    counts the characters of the match just replaced that are still to be
    passed. *)
Fixpoint sub_from (ic : bool) (r : re) (repl : str) (p : option ascii)
         (s : str) (skip : nat) : str :=
  match s with
  | [] => []
  | c :: t =>
      match skip with
      | S n => sub_from ic r repl (Some c) t n
      | O =>
          match match_at ic r p s with
          | Some e =>
              match length s - length (rest e) with
              | O => c :: sub_from ic r repl (Some c) t 0
              | S n => repl ++ sub_from ic r repl (Some c) t n
              end
          | None => c :: sub_from ic r repl (Some c) t 0
          end
      end
  end.

Definition re_sub (ic : bool) (r : re) (repl s : str) : str :=
  sub_from ic r repl None s 0.

(** [s.capitalize()]: the first character in title case, the others in
    lower case; the title case of the sharp s is "Ss". *)
Definition capitalize (s : str) : str :=
  match s with
  | [] => []
  | c :: t =>
      (if ascii_eqb c sharp_s then ["S"; "s"]%char else [upper_c c])
      ++ lower t
  end.

Module LocationExtractor.

(** [(versender|empf[aä]nger)[:]\s*(.+)], IGNORECASE *)
Definition RE_INLINE : re :=
  (Grp 1 (Alt (lits "versender")
              (lits "empf" ;; Cls false [CChar "a"; CChar a_uml] ;;
               lits "nger")) ;;
   Lit ":" ;; star space ;; Grp 2 (plus AnyC))%re.

(** [\b(\d{3,7})\b] *)
Definition RE_ZIP : re := (WordB ;; Grp 1 (between digit 3 7) ;; WordB)%re.

(** [(Transport|Zuschlag|Package|Anzahl|Gebühr|Rabatt|Tarife|Gesamt|Service|]
    [Beschreibung|MWST|Basic)], IGNORECASE *)
Definition END_MARKERS : re :=
  Grp 1 (alts [lits "Transport"; lits "Zuschlag"; lits "Package";
               lits "Anzahl"; (lits "Geb" ;; Lit u_uml ;; lits "hr")%re;
               lits "Rabatt"; lits "Tarife"; lits "Gesamt"; lits "Service";
               lits "Beschreibung"; lits "MWST"; lits "Basic"]).

(** [fr"{keyword}[:]\s*$"], IGNORECASE *)
Definition block_start (keyword : str) : re :=
  (lits_of keyword ;; Lit ":" ;; star space ;; Eos)%re.

(** [\d+[,\.]\d{2}\s+\d+[,\.]\d{2}] *)
Definition RE_COST_PAIR : re :=
  (plus digit ;; Cls false [CChar ","; CChar "."] ;; exactly digit 2 ;;
   plus space ;;
   plus digit ;; Cls false [CChar ","; CChar "."] ;; exactly digit 2)%re.

(** [\s{2,}] *)
Definition RE_BLANKS : re := Rep space 2 None true.

Definition versender : str := L "versender".
Definition empfaenger : str := L "empf" ++ a_uml :: L "nger".

Definition COUNTRY_MAP : list (str * str) :=
  [(L "deutschland", L "DE"); (L "germany", L "DE");
   (L "schweiz", L "CH"); (L "switzerland", L "CH");
   (L "china", L "CN"); (L "volksrepublik", L "CN");
   (L "hongkong", L "HK"); (L "hong kong", L "HK");
   (o_uml :: L "sterreich", L "AT"); (L "austria", L "AT");
   (L "italien", L "IT"); (L "italy", L "IT");
   (L "polen", L "PL"); (L "poland", L "PL");
   (L "frankreich", L "FR"); (L "france", L "FR");
   (L "spanien", L "ES"); (L "spain", L "ES");
   (L "usa", L "US"); (L "vereinigte staaten", L "US")].

(** [_extract_block]: the loop over the lines left, with the flag
    [collecting]; the result is what the loop appends to [block] from there
    on. *)
Fixpoint _extract_block_from (keyword : str) (lines : list str)
         (collecting : bool) : list str :=
  match lines with
  | [] => []
  | line :: more =>
      match re_search true RE_INLINE line with
      | Some mo =>
          match group 1 mo, group 2 mo with
          | Some tag, Some content =>
              if contains keyword (lower tag)
              then strip content :: _extract_block_from keyword more true
              else _extract_block_from keyword more collecting
          | _, _ => _extract_block_from keyword more collecting
          end
      | None =>
          if re_test true (block_start keyword) line
          then _extract_block_from keyword more true
          else if collecting && re_test true END_MARKERS line then []
          else if collecting && re_test false RE_COST_PAIR line then []
          else if collecting
               then line :: _extract_block_from keyword more collecting
               else _extract_block_from keyword more collecting
      end
  end.

Definition _extract_block (lines : list str) (keyword : str) : list str :=
  _extract_block_from keyword lines false.

(** The characters that the clean-up of the city keeps:
    [A-Za-zÄÖÜäöü0-9\s\-]. *)
Definition city_char (c : ascii) : bool :=
  cls_ok false false
    [CRange "A" "Z"; CRange "a" "z"; CChar A_uml; CChar O_uml; CChar U_uml;
     CChar a_uml; CChar o_uml; CChar u_uml; CRange "0" "9"; CSpace;
     CChar "-"] c.

Section WithPycountry.

(** [pycountry.countries.get(name=...)] followed by [.alpha_2]; [None] when
    there is no such country. *)
Variable countries_get_name : str -> option str.

(** The fallback loop of [_extract_country]. *)
Fixpoint pycountry_fallback (tokens : list str) : option str :=
  match tokens with
  | [] => None
  | t :: more =>
      if length t <? 3 then pycountry_fallback more
      else match countries_get_name (capitalize t) with
           | Some alpha_2 => Some alpha_2
           | None => pycountry_fallback more
           end
  end.

(** [_extract_country] *)
Definition _extract_country (text : str) : option str :=
  let low := lower text in
  match find (fun kv => contains (fst kv) low) COUNTRY_MAP with
  | Some kv => Some (snd kv)
  | None =>
      pycountry_fallback
        (split_by (fun c => ascii_eqb c "," || ascii_eqb c " ") low)
  end.

(** [_parse_block]: city, zip code, country. *)
Definition _parse_block (block : list str)
  : option str * option str * option str :=
  match block with
  | [] => (None, None, None)
  | _ :: _ =>
      let text := join (L " ") block in
      let zipcode := opt_bind (re_search false RE_ZIP text) (group 1) in
      let country := _extract_country text in
      let city_line := text in
      let city_line :=
        if truthy zipcode then
          match zipcode with
          | Some z => replace_s z [] city_line
          | None => city_line
          end
        else city_line in
      let city_line :=
        if truthy country then
          fold_left (fun acc key => re_sub true (lits_of key) [] acc)
                    (map fst COUNTRY_MAP) city_line
        else city_line in
      let city_line := filter city_char city_line in
      let city_line := strip (re_sub false RE_BLANKS (L " ") city_line) in
      let city_line :=
        if negb (nonempty city_line)
           && CostExtractor.opt_eqb str_eqb country (Some (L "HK"))
        then L "HONG KONG" else city_line in
      (if nonempty city_line then Some city_line else None,
       zipcode, country)
  end.

(** [extract] *)
Definition extract (block_text : str) : Locations :=
  let lines := stripped_lines block_text in
  let origin_block := _extract_block lines versender in
  let dest_block := _extract_block lines empfaenger in
  let '(origin_city, origin_zip, origin_country) :=
    _parse_block origin_block in
  let '(dest_city, dest_zip, dest_country) := _parse_block dest_block in
  mkLocations origin_country origin_city origin_zip
              dest_country dest_city dest_zip.

End WithPycountry.

End LocationExtractor.

(** *** Vocabulary for the location properties *)

(** Every match of [r] reads at least one character that satisfies [P]. *)
Fixpoint must_read (ic : bool) (P : ascii -> bool) (r : re) : bool :=
  match r with
  | Eps | WordB | Bos | Eos => false
  | Lit c => forallb (fun x => implb (lit_ok ic c x) (P x)) all_chars
  | Cls neg items =>
      forallb (fun x => implb (cls_ok ic neg items x) (P x)) all_chars
  | AnyC => forallb (fun x => implb (negb (ascii_eqb x "010")) (P x)) all_chars
  | Seq a b => must_read ic P a || must_read ic P b
  | Alt a b => must_read ic P a && must_read ic P b
  | Rep a lo _ _ => (0 <? lo) && must_read ic P a
  | Grp _ a => must_read ic P a
  end.

Definition is_colon (x : ascii) : bool := ascii_eqb x ":".

Definition no_locations : Locations :=
  mkLocations None None None None None None.

(** A zip code: three to seven digits. *)
Definition zip_ok (o : option str) : Prop :=
  match o with
  | Some z => 3 <= length z <= 7 /\ forallb is_digit z = true
  | None => True
  end.

(** A city: not empty, no white space around it, made of the characters
    that the clean-up keeps. *)
Definition city_ok (o : option str) : Prop :=
  match o with
  | Some c =>
      c <> [] /\ strip c = c
      /\ forallb LocationExtractor.city_char c = true
  | None => True
  end.

(** A country: a code of [COUNTRY_MAP], or what pycountry gave for one of
    the words. *)
Definition country_ok (countries_get_name : str -> option str)
           (o : option str) : Prop :=
  match o with
  | Some c =>
      In c (map snd LocationExtractor.COUNTRY_MAP)
      \/ exists t, countries_get_name t = Some c
  | None => True
  end.

(** ** Vocabulary for the numbers

    The middle between [1e7] and the float before it, [1e7 - 2^-30]: a
    number rounds to a float below [1e7] exactly when it is below it. *)
Definition float_edge : Q := Qmake (10000000 * 2 ^ 30 - 1) (2 ^ 30).

(** A German-formatted number, as the cost rows write it: groups of digits
    between points, a comma and the decimals; and the number it denotes. *)
Definition german (groups : list str) (decimals : str) : str :=
  join (L ".") groups ++ L "," ++ decimals.

Definition german_value (groups : list str) (decimals : str) : Q :=
  decimal (concat groups) decimals.

Definition german_ok (groups : list str) (decimals : str) : Prop :=
  groups <> []
  /\ Forall (fun g => g <> [] /\ forallb is_digit g = true) groups
  /\ 1 <= length decimals <= 2 /\ forallb is_digit decimals = true.

(** ** Vocabulary for the dates of a block

    The two date strings of the date property, and the characters that the
    numeric patterns accept between the parts of a date. *)
Definition day_27 : str := L "27.11.2025".
Definition day_30 : str := L "30.11.2025".

Definition is_date_sep (c : ascii) : bool :=
  ascii_eqb c "." || ascii_eqb c "-" || ascii_eqb c "/".

(** * Properties *)

(** ** Lists and strings *)

Lemma filter_singleton_split {A} (f : A -> bool) (l : list A) (x : A) :
  filter f l = [x] ->
  exists a b, l = a ++ x :: b /\ f x = true /\
              filter f a = [] /\ filter f b = [].
Proof.
  induction l as [|y l IH]; simpl; [discriminate|].
  destruct (f y) eqn:E.
  - intros H. injection H as -> Hl.
    exists [], l. simpl. auto.
  - intros H. destruct (IH H) as (a & b & -> & Hx & Ha & Hb).
    exists (y :: a), b. simpl. rewrite E. auto.
Qed.

Lemma filter_filter_comm {A} (f g : A -> bool) (l : list A) :
  filter f (filter g l) = filter g (filter f l).
Proof.
  induction l as [|y l IH]; simpl; [reflexivity|].
  destruct (g y) eqn:G, (f y) eqn:F; simpl; rewrite ?G, ?F, IH; reflexivity.
Qed.

Lemma filter_nil_existsb {A} (f : A -> bool) (l : list A) :
  filter f l = [] -> existsb f l = false.
Proof.
  induction l as [|y l IH]; simpl; [reflexivity|].
  destruct (f y); [discriminate | auto].
Qed.

Lemma starts_with_app (p s : str) : starts_with p (p ++ s) = true.
Proof.
  induction p as [|c p IH]; simpl; [reflexivity|].
  unfold ascii_eqb. rewrite Ascii.eqb_refl. exact IH.
Qed.

Lemma starts_with_join (t : str) (more : list str) :
  starts_with t (join nl (t :: more)) = true.
Proof.
  destruct more; simpl.
  - rewrite <- (app_nil_r t) at 2. apply starts_with_app.
  - apply starts_with_app.
Qed.

(** ** The matcher is sound

    Whatever the matcher returns was reached through a run of the pattern
    followed by the continuation. *)

Lemma rep_greedy_sound R step :
  sound_step R step ->
  forall hi lo k s res,
    rep_greedy step lo hi k s = Some res ->
    exists n s', lo <= n <= hi /\ iter R n s s' /\ k s' = Some res.
Proof.
  intros Hstep. induction hi as [|hi IH]; intros lo k s res H; simpl in H.
  - destruct lo; [|discriminate]. exists 0, s. simpl. auto.
  - destruct lo as [|lo].
    + destruct (step (rep_greedy step 0 hi k) s) as [r'|] eqn:E.
      * injection H as ->. apply Hstep in E. destruct E as (s2 & HR & E).
        apply IH in E. destruct E as (n & s' & Hn & Hit & Hk).
        exists (S n), s'. split; [lia|]. split; auto. simpl. eauto.
      * exists 0, s. simpl. split; [lia|]. auto.
    + apply Hstep in H. destruct H as (s2 & HR & E).
      apply IH in E. destruct E as (n & s' & Hn & Hit & Hk).
      exists (S n), s'. split; [lia|]. split; auto. simpl. eauto.
Qed.

Lemma rep_lazy_sound R step :
  sound_step R step ->
  forall hi lo k s res,
    rep_lazy step lo hi k s = Some res ->
    exists n s', lo <= n <= hi /\ iter R n s s' /\ k s' = Some res.
Proof.
  intros Hstep. induction hi as [|hi IH]; intros lo k s res H; simpl in H.
  - destruct lo; [|discriminate]. exists 0, s. simpl. auto.
  - destruct lo as [|lo].
    + destruct (k s) as [r'|] eqn:E.
      * injection H as ->. exists 0, s. simpl. split; [lia|]. auto.
      * apply Hstep in H. destruct H as (s2 & HR & E2).
        apply IH in E2. destruct E2 as (n & s' & Hn & Hit & Hk).
        exists (S n), s'. split; [lia|]. split; auto. simpl. eauto.
    + apply Hstep in H. destruct H as (s2 & HR & E).
      apply IH in E. destruct E as (n & s' & Hn & Hit & Hk).
      exists (S n), s'. split; [lia|]. split; auto. simpl. eauto.
Qed.

Lemma m_sound ic r : sound_step (run ic r) (m ic r).
Proof.
  induction r as [|c|neg items| |a IHa b IHb|a IHa b IHb|a IHa lo hi g
                 |i a IHa| | |];
    intros k s res H; simpl in H |- *.
  - eauto.
  - destruct (rest s) as [|x t] eqn:E; [discriminate|].
    destruct (lit_ok ic c x) eqn:O; [|discriminate]. eauto 8.
  - destruct (rest s) as [|x t] eqn:E; [discriminate|].
    destruct (cls_ok ic neg items x) eqn:O; [|discriminate]. eauto 8.
  - destruct (rest s) as [|x t] eqn:E; [discriminate|].
    destruct (ascii_eqb x "010") eqn:O; [discriminate|]. eauto 8.
  - apply IHa in H. destruct H as (s2 & Ha & H).
    apply IHb in H. destruct H as (s3 & Hb & H). eauto.
  - destruct (m ic a k s) as [r'|] eqn:E.
    + injection H as ->. apply IHa in E. destruct E as (s' & ? & ?). eauto.
    + apply IHb in H. destruct H as (s' & ? & ?). eauto.
  - destruct g.
    + apply (rep_greedy_sound IHa) in H.
      destruct H as (n & s' & ? & ? & ?). eauto.
    + apply (rep_lazy_sound IHa) in H.
      destruct H as (n & s' & ? & ? & ?). eauto.
  - apply IHa in H. destruct H as (s2 & ? & ?). eauto.
  - destruct (at_boundary s); [|discriminate]. eauto.
  - destruct (prev s) eqn:E; [discriminate|]. eauto.
  - destruct (rest s) as [|c [|? ?]] eqn:E; try discriminate.
    + eauto.
    + destruct (ascii_eqb c "010") eqn:C; [|discriminate].
      unfold ascii_eqb in C. apply Ascii.eqb_eq in C. subst. eauto.
Qed.

Lemma match_at_sound ic r p s e :
  match_at ic r p s = Some e -> run ic r (mkst p s []) e.
Proof.
  unfold match_at. intros H. apply m_sound in H.
  destruct H as (s' & Hrun & [= <-]). exact Hrun.
Qed.

(** A successful search is a run from some position of the text. *)
Lemma search_from_sound ic r : forall s p mo,
  search_from ic r p s = Some mo ->
  exists pre p' s' e, s = pre ++ s' /\ run ic r (mkst p' s' []) e /\
                      mo = mobj_of s' e.
Proof.
  induction s as [|c t IH]; intros p mo H; simpl in H.
  - destruct (match_at ic r p []) as [e|] eqn:E; [|discriminate].
    injection H as <-. exists [], p, [], e. auto using match_at_sound.
  - destruct (match_at ic r p (c :: t)) as [e|] eqn:E.
    + injection H as <-. exists [], p, (c :: t), e.
      auto using match_at_sound.
    + apply IH in H. destruct H as (pre & p' & s' & e & -> & ? & ?).
      exists (c :: pre), p', s', e. auto.
Qed.

(** ** Segmenter *)

Section SegmenterFacts.
Import Segmenter SegSpec.

Local Abbreviation hf l := (is_header l || is_footer l).

Lemma fold_kept pn ls s :
  fold_left (line_step pn) ls s
  = fold_left (line_step pn) (filter (fun l => negb (hf l)) ls) s.
Proof.
  revert s. induction ls as [|l ls IH]; intros s; simpl; [reflexivity|].
  destruct (hf l) eqn:E; simpl.
  - unfold line_step at 2. rewrite E. apply IH.
  - apply IH.
Qed.

(** Outside a shipment, lines without a tracking number change nothing. *)
Lemma fold_outside pn ls s :
  inside_shipment s = false ->
  filter has_tracking ls = [] ->
  fold_left (line_step pn) ls s = s.
Proof.
  revert s. induction ls as [|l ls IH]; intros s Hin Hf; simpl; [reflexivity|].
  simpl in Hf. destruct (has_tracking l) eqn:T; [discriminate|].
  unfold line_step at 2. rewrite T, Hin.
  destruct (is_header l || is_footer l); apply IH; assumption.
Qed.

(** Inside a shipment, kept lines without a tracking number are appended. *)
Lemma fold_inside pn ls s :
  inside_shipment s = true ->
  filter has_tracking ls = [] ->
  Forall (fun l => hf l = false) ls ->
  fold_left (line_step pn) ls s
  = mkstate (blocks s) (current_lines s ++ ls) (current_page_start s) true.
Proof.
  revert s. induction ls as [|l ls IH]; intros s Hin Hf Hk; simpl.
  - rewrite app_nil_r. destruct s; simpl in *; subst; reflexivity.
  - simpl in Hf. inversion Hk as [|? ? E Hk']; subst.
    destruct (has_tracking l) eqn:T; [discriminate|].
    unfold line_step at 2. rewrite E, T, Hin.
    rewrite IH; simpl; auto.
    rewrite <- app_assoc. reflexivity.
Qed.

Lemma from_tracking_split a t b :
  has_tracking t = true -> filter has_tracking a = [] ->
  from_tracking (a ++ t :: b) = t :: b.
Proof.
  intros Ht. induction a as [|x a IH]; simpl; intros Ha.
  - rewrite Ht. reflexivity.
  - destruct (has_tracking x); [discriminate | auto].
Qed.

Lemma kept_lines_hf p : Forall (fun l => hf l = false) (kept_lines p).
Proof.
  apply Forall_forall. intros l Hl. unfold kept_lines in Hl.
  apply filter_In in Hl. destruct Hl as [_ Hl].   destruct (hf l); [discriminate | reflexivity].
Qed.

(** The kept lines of a page whose only tracking line [t] is kept. *)
Lemma kept_lines_split p t :
  one_tracking_line p t -> hf t = false ->
  exists a b, kept_lines p = a ++ t :: b /\ has_tracking t = true /\
              filter has_tracking a = [] /\ filter has_tracking b = [].
Proof.
  intros Hone Hhf. apply filter_singleton_split.
  unfold kept_lines. rewrite filter_filter_comm.
  unfold one_tracking_line in Hone. rewrite Hone. simpl.
  rewrite Hhf. reflexivity.
Qed.

(** Such a page, read from outside a shipment: the lines from the tracking
    line on become the open block. *)
Lemma page_opens p t s :
  one_tracking_line p t -> hf t = false ->
  inside_shipment s = false -> current_lines s = [] ->
  fold_left (line_step (page_num p)) (stripped_lines (text p)) s
  = mkstate (blocks s) (from_tracking (kept_lines p))
            (Some (page_num p)) true.
Proof.
  intros Hone Hhf Hin Hcur.
  rewrite fold_kept. fold (kept_lines p).
  assert (Hall := kept_lines_hf p).
  destruct (kept_lines_split Hone Hhf) as (a & b & Hab & Ht & Ha & Hb).
  rewrite Hab in Hall |- *.
  rewrite from_tracking_split by assumption.
  apply Forall_app in Hall. destruct Hall as [_ Hall].
  inversion Hall as [|? ? _ Hallb]; subst.
  rewrite fold_left_app. rewrite (@fold_outside (page_num p) a s Hin Ha). simpl.
  unfold line_step at 2. rewrite Hhf, Ht, Hin. simpl.
  rewrite fold_inside; simpl; auto.
  rewrite Hcur. reflexivity.
Qed.

Lemma from_tracking_kept p t :
  one_tracking_line p t -> hf t = false ->
  exists more, from_tracking (kept_lines p) = t :: more.
Proof.
  intros Hone Hhf.
  destruct (kept_lines_split Hone Hhf) as (a & b & Hab & Ht & Ha & _).
  exists b. rewrite Hab. apply from_tracking_split; assumption.
Qed.

Lemma filter_singleton_existsb {A} (f : A -> bool) l (x : A) :
  filter f l = [x] -> existsb f l = true.
Proof.
  intros H. destruct (filter_singleton_split _ _ H) as (a & b & -> & Hx & _).
  rewrite existsb_app. simpl. rewrite Hx. apply orb_true_r.
Qed.

Lemma block_of_nil p :
  block_of p []
  = mkBlock (join nl (from_tracking (kept_lines p))) (Some (page_num p)).
Proof. unfold block_of. rewrite app_nil_r. reflexivity. Qed.

(** The loop over pages that each open exactly one shipment, started outside
    a shipment: one block per page is appended. *)
Lemma loop_one_per_page pages : forall s,
  inside_shipment s = false -> current_lines s = [] ->
  (forall p, In p pages ->
     exists t, one_tracking_line p t /\ hf t = false) ->
  finish (pages_loop pages s)
  = blocks s ++ map (fun p => block_of p []) pages.
Proof.
  induction pages as [|p later IH]; intros s Hin Hcur Hgood.
  - simpl. unfold finish. rewrite Hin. simpl. rewrite app_nil_r. reflexivity.
  - destruct (Hgood p (or_introl eq_refl)) as (t & Hone & Hhf).
    destruct (from_tracking_kept Hone Hhf) as (more & Hmore).
    cbn [pages_loop map]. rewrite (page_opens s Hone Hhf Hin Hcur).
    rewrite block_of_nil.
    destruct later as [|next later'].
    + cbn [pages_loop page_break inside_shipment]. unfold finish.
      cbn [inside_shipment current_lines close_block blocks
           current_page_start andb map].
      rewrite Hmore. reflexivity.
    + destruct (Hgood next (or_intror (or_introl eq_refl)))
        as (t' & Hone' & _).
      unfold page_break. cbn [inside_shipment].
      rewrite (filter_singleton_existsb _ _ Hone').
      rewrite IH; cbn [blocks close_block current_lines
                       current_page_start inside_shipment]; auto.
      * rewrite <- app_assoc. reflexivity.
      * intros q Hq. apply Hgood. right. exact Hq.
Qed.

End SegmenterFacts.

(** C1, as stated, fails: a tracking line that also matches the header
    pattern is discarded before the tracking test, so a page whose only
    tracking line reads "UPS 1Z12345678AB" opens no block. *)
Lemma segment_one_per_page_counterexample :
  let pages := [pg 1 "UPS 1Z12345678AB"] in
  (forall p, In p pages -> exists t, SegSpec.one_tracking_line p t)
  /\ length (Segmenter.segment pages) <> length pages.
Proof.
  split.
  - intros p [<- | []]. eexists. vm_compute. reflexivity.
  - vm_compute. discriminate.
Qed.

(** C1, amended: when every page has exactly one line with a tracking
    number and that line matches neither the header nor the footer pattern,
    [segment] returns one block per page, in page order; each block carries
    its page's number and its text is the page's kept lines from the
    tracking line on, so it starts with the tracking line. *)
Theorem segment_one_block_per_page (pages : list Page) :
  (forall p, In p pages ->
     exists t, SegSpec.one_tracking_line p t /\
               Segmenter.is_header t || Segmenter.is_footer t = false) ->
  Forall2
    (fun p b =>
       b_page_num b = Some (page_num p) /\
       exists t more,
         SegSpec.one_tracking_line p t /\
         SegSpec.from_tracking (Segmenter.kept_lines p) = t :: more /\
         b_text b = join nl (t :: more) /\
         starts_with t (b_text b) = true)
    pages (Segmenter.segment pages).
Proof.
  intros Hgood. unfold Segmenter.segment.
  rewrite loop_one_per_page by auto. cbn [Segmenter.blocks app].
  induction pages as [|p ps IH]; cbn [map]; constructor.
  - rewrite block_of_nil. cbn [b_text b_page_num].
    destruct (Hgood p (or_introl eq_refl)) as (t & Hone & Hhf).
    destruct (from_tracking_kept Hone Hhf) as (more & Hmore).
    split; [reflexivity|]. exists t, more.
    rewrite Hmore.
    repeat split; auto. apply starts_with_join.
  - apply IH. intros q Hq. apply Hgood. right. exact Hq.
Qed.

Lemma segment_one_block_per_page_witness :
  Forall2
    (fun p b =>
       b_page_num b = Some (page_num p) /\
       exists t more,
         SegSpec.one_tracking_line p t /\
         SegSpec.from_tracking (Segmenter.kept_lines p) = t :: more /\
         b_text b = join nl (t :: more) /\
         starts_with t (b_text b) = true)
    [pg 1 "Rechnung 4711
Sendung 1Z12345678AB
Gewicht 5,0"; pg 2 "1Z99999999XY Express
Seite 2"]
    (Segmenter.segment
       [pg 1 "Rechnung 4711
Sendung 1Z12345678AB
Gewicht 5,0"; pg 2 "1Z99999999XY Express
Seite 2"]).
Proof.
  apply segment_one_block_per_page.
  intros p [<- | [<- | []]].
  - exists (L "Sendung 1Z12345678AB"). split; vm_compute; reflexivity.
  - exists (L "1Z99999999XY Express"). split; vm_compute; reflexivity.
Defined.

(** C2, as stated, fails twice over: a tracking line matching the header
    pattern opens no block at all, and the lines of the first page that come
    before the tracking line are not in the block. *)
Lemma segment_continuation_counterexample :
  (let pages := [pg 1 "UPS 1Z12345678AB"; pg 2 "2 Pakete"] in
   (exists t, SegSpec.one_tracking_line (nth 0 pages (pg 0 "")) t) /\
   existsb Segmenter.has_tracking
     (stripped_lines (text (nth 1 pages (pg 0 "")))) = false /\
   Segmenter.segment pages = [])
  /\
  (let pages := [pg 1 "Absender Muster
1Z12345678AB
Gewicht 5,0"; pg 2 "2 Pakete"] in
   (exists t, SegSpec.one_tracking_line (nth 0 pages (pg 0 "")) t) /\
   existsb Segmenter.has_tracking
     (stripped_lines (text (nth 1 pages (pg 0 "")))) = false /\
   In (L "Absender Muster") (Segmenter.kept_lines (nth 0 pages (pg 0 ""))) /\
   exists b, Segmenter.segment pages = [b] /\
             contains (L "Absender Muster") (b_text b) = false).
Proof.
  split; cbv zeta.
  - split; [eexists; vm_compute; reflexivity|].
    split; vm_compute; reflexivity.
  - split; [eexists; vm_compute; reflexivity|].
    split; [vm_compute; reflexivity|].
    split; [vm_compute; auto|].
    eexists. split; vm_compute; reflexivity.
Qed.

(** C2, amended: for two consecutive pages where the first has exactly one
    tracking line, matching neither the header nor the footer pattern, and
    the second has no tracking line, [segment] returns exactly one block; its
    page number is the first page's and its text joins the kept lines of the
    first page from the tracking line on with all kept lines of the second
    page. *)
Theorem segment_continuation (p1 p2 : Page) (t : str) :
  SegSpec.one_tracking_line p1 t ->
  Segmenter.is_header t || Segmenter.is_footer t = false ->
  existsb Segmenter.has_tracking (stripped_lines (text p2)) = false ->
  Segmenter.segment [p1; p2]
  = [mkBlock (join nl (SegSpec.from_tracking (Segmenter.kept_lines p1)
                       ++ Segmenter.kept_lines p2))
             (Some (page_num p1))]
  /\ exists more,
       SegSpec.from_tracking (Segmenter.kept_lines p1) = t :: more.
Proof.
  intros Hone Hhf Hno. split; [|apply from_tracking_kept; assumption].
  destruct (from_tracking_kept Hone Hhf) as (more & Hmore).
  unfold Segmenter.segment. cbn [Segmenter.pages_loop].
  rewrite (@page_opens p1 t (Segmenter.mkstate [] [] None false)
             Hone Hhf eq_refl eq_refl).
  unfold Segmenter.page_break at 2. cbn [Segmenter.inside_shipment].
  rewrite Hno.
  rewrite fold_kept. fold (Segmenter.kept_lines p2).
  rewrite fold_inside.
  - cbn [Segmenter.page_break Segmenter.inside_shipment Segmenter.blocks
         Segmenter.current_lines Segmenter.current_page_start].
    unfold Segmenter.finish.
    cbn [Segmenter.inside_shipment Segmenter.blocks Segmenter.close_block
         Segmenter.current_lines Segmenter.current_page_start].
    rewrite Hmore. reflexivity.
  - reflexivity.
  - unfold Segmenter.kept_lines. rewrite filter_filter_comm.
    assert (H : filter Segmenter.has_tracking (stripped_lines (text p2)) = []).
    { revert Hno. generalize (stripped_lines (text p2)) as ls.
      induction ls as [|x ls IH]; simpl; [reflexivity|].
      destruct (Segmenter.has_tracking x); simpl; [discriminate | auto]. }
    rewrite H. reflexivity.
  - apply kept_lines_hf.
Qed.

Lemma segment_continuation_witness :
  Segmenter.segment [pg 1 "Rechnung 4711
Absender Muster
Sendung 1Z12345678AB
Gewicht 5,0"; pg 2 "Kunden-Nr 17
2 Pakete
Seite 2"]
  = [mkBlock (L "Sendung 1Z12345678AB
Gewicht 5,0
2 Pakete") (Some 1%Z)].
Proof.
  refine (proj1 (@segment_continuation _ _ (L "Sendung 1Z12345678AB") _ _ _));
    vm_compute; reflexivity.
Defined.

(** ** CostExtractor: the dedup loop *)

Section CostFacts.
Import CostExtractor.

Lemma str_eqb_refl (a : str) : str_eqb a a = true.
Proof. unfold str_eqb. destruct (list_eq_dec ascii_dec a a); congruence. Qed.

Lemma str_eqb_eq (a b : str) : str_eqb a b = true <-> a = b.
Proof.
  unfold str_eqb. destruct (list_eq_dec ascii_dec a b); split; congruence.
Qed.

Lemma str_eqb_sym (a b : str) : str_eqb a b = str_eqb b a.
Proof.
  unfold str_eqb.
  destruct (list_eq_dec ascii_dec a b), (list_eq_dec ascii_dec b a);
    congruence.
Qed.

Lemma Qeq_bool_sym (a b : Q) : Qeq_bool a b = Qeq_bool b a.
Proof.
  destruct (Qeq_bool a b) eqn:E1, (Qeq_bool b a) eqn:E2; auto.
  - apply Qeq_bool_iff in E1. apply Qeq_sym in E1.
    apply Qeq_bool_iff in E1. congruence.
  - apply Qeq_bool_iff in E2. apply Qeq_sym in E2.
    apply Qeq_bool_iff in E2. congruence.
Qed.

Lemma sig_eqb_refl (a : signature) : sig_eqb a a = true.
Proof.
  destruct a as [[c v] u]. unfold sig_eqb.
  destruct c, v, u; simpl; rewrite ?str_eqb_refl; simpl; auto;
    rewrite ?andb_true_r; apply Qeq_bool_iff; reflexivity.
Qed.

Lemma sig_eqb_sym (a b : signature) : sig_eqb a b = sig_eqb b a.
Proof.
  destruct a as [[c v] u], b as [[c' v'] u']. unfold sig_eqb.
  f_equal; [f_equal|].
  - destruct c, c'; simpl; auto using str_eqb_sym.
  - destruct v, v'; simpl; auto using Qeq_bool_sym.
  - destruct u, u'; simpl; auto using str_eqb_sym.
Qed.

Lemma ForallOrdPairs_snoc {A} (R : A -> A -> Prop) (l : list A) (x : A) :
  ForallOrdPairs R l -> Forall (fun a => R a x) l ->
  ForallOrdPairs R (l ++ [x]).
Proof.
  induction 1 as [|a l Ha Hl IH]; intros Hx; simpl.
  - constructor; constructor.
  - inversion Hx; subst. constructor; auto.
    apply Forall_app. split; auto.
Qed.

Variable partial_ratio : str -> str -> Q.
Variable cur : option str.

Local Abbreviation step := (cost_step partial_ratio cur).
Local Abbreviation row := (row_item partial_ratio cur).

Lemma cost_step_inv acc raw :
  seen_ok acc -> distinct_sigs (fst acc) ->
  seen_ok (step acc raw) /\ distinct_sigs (fst (step acc raw)) /\
  (forall it, In it (fst acc) -> In it (fst (step acc raw))) /\
  (forall it, row raw = Some it ->
     exists it', In it' (fst (step acc raw)) /\
                 sig_eqb (sig_of it) (sig_of it') = true) /\
  (forall it, In it (fst (step acc raw)) ->
     In it (fst acc) \/ row raw = Some it).
Proof.
  intros Hs Hd. unfold cost_step.
  destruct (row raw) as [item|] eqn:E.
  2:{ repeat split; auto. intros; discriminate. }
  destruct (existsb (sig_eqb (sig_of item)) (snd acc)) eqn:X.
  - repeat split; auto.
    apply existsb_exists in X. destruct X as (s' & Hin & Heq).
    rewrite Hs in Hin. apply in_rev in Hin. apply in_map_iff in Hin.
    destruct Hin as (it' & <- & Hin).
    intros it [= <-]. exists it'. auto.
  - cbn [fst snd]. repeat split.
    + unfold seen_ok in *. cbn [fst snd]. rewrite map_app, rev_app_distr.
      simpl. congruence.
    + apply ForallOrdPairs_snoc; auto.
      apply Forall_forall. intros a Ha.
      rewrite sig_eqb_sym.
      destruct (sig_eqb (sig_of item) (sig_of a)) eqn:Y; auto.
      assert (existsb (sig_eqb (sig_of item)) (snd acc) = true); [|congruence].
      apply existsb_exists. exists (sig_of a). split; auto.
      rewrite Hs. apply -> in_rev. apply in_map. exact Ha.
    + intros it Hit. apply in_or_app. auto.
    + intros it [= <-]. exists item. split.
      * apply in_or_app. right. left. reflexivity.
      * apply sig_eqb_refl.
    + intros it Hit. apply in_app_or in Hit.
      destruct Hit as [Hit | [<- | []]]; auto.
Qed.

Lemma cost_loop_inv ls : forall acc,
  seen_ok acc -> distinct_sigs (fst acc) ->
  let acc' := fold_left step ls acc in
  seen_ok acc' /\ distinct_sigs (fst acc') /\
  (forall it, In it (fst acc) -> In it (fst acc')) /\
  (forall raw it, In raw ls -> row raw = Some it ->
     exists it', In it' (fst acc') /\
                 sig_eqb (sig_of it) (sig_of it') = true) /\
  (forall it, In it (fst acc') ->
     In it (fst acc) \/ exists raw, In raw ls /\ row raw = Some it).
Proof.
  induction ls as [|raw ls IH]; intros acc Hs Hd; cbn zeta.
  - simpl. repeat split; auto. intros ? ? [].
  - simpl fold_left.
    destruct (cost_step_inv raw Hs Hd) as (Hs1 & Hd1 & Hk1 & Hr1 & Ho1).
    destruct (IH _ Hs1 Hd1) as (Hs2 & Hd2 & Hk2 & Hr2 & Ho2).
    repeat split; auto.
    + intros raw' it [<- | Hin] Hrow.
      * destruct (Hr1 it Hrow) as (it' & Hin' & Heq). exists it'. auto.
      * eapply Hr2; eauto.
    + intros it Hit. destruct (Ho2 it Hit) as [H | (raw' & Hin & Hrow)].
      * destruct (Ho1 it H) as [H' | H']; auto.
        right. exists raw. split; auto. left. reflexivity.
      * right. exists raw'. split; auto. right. exact Hin.
Qed.

End CostFacts.

(** ** Case analysis on characters and matches *)

Lemma ascii_of_nat_in_seq (x : ascii) : In x all_chars.
Proof.
  unfold all_chars. apply in_map_iff. exists (nat_of_ascii x). split.
  - apply ascii_nat_embedding.
  - apply in_seq. generalize (nat_ascii_bounded x). lia.
Qed.

(** A property of characters holds of all of them once it is checked on the
    256 code points. *)
Lemma forall_ascii (P : ascii -> bool) :
  forallb P all_chars = true -> forall x, P x = true.
Proof.
  intros H x. rewrite forallb_forall in H. apply H, ascii_of_nat_in_seq.
Qed.

Lemma firstn_consumed {A} (w t : list A) :
  firstn (length (w ++ t) - length t) (w ++ t) = w.
Proof.
  rewrite length_app.
  replace (length w + length t - length t) with (length w) by lia.
  rewrite firstn_app, Nat.sub_diag, firstn_all. simpl. apply app_nil_r.
Qed.

Ltac break_run :=
  repeat match goal with
  | H : exists _, _ |- _ => destruct H
  | H : _ /\ _ |- _ => destruct H
  | H : _ \/ _ |- _ => destruct H
  end.

Ltac by_cases_on_char :=
  apply forall_ascii; vm_compute; reflexivity.

Lemma lower_c_cases (x : ascii) :
  implb (is_lower (lower_c x))
        (ascii_eqb x (lower_c x) || ascii_eqb x (upper_c (lower_c x))) = true.
Proof. revert x. by_cases_on_char. Qed.

Lemma upper_lower_c (c : ascii) :
  implb (is_upper c)
        (ascii_eqb (upper_c (lower_c c)) c && is_lower (lower_c c)) = true.
Proof. revert c. by_cases_on_char. Qed.

(** *** What a run consumes *)

Section Consumed.

Variable ic : bool.
Variable P : ascii -> bool.

Lemma reads_refl s : reads P s s [].
Proof. split; reflexivity. Qed.

Lemma reads_trans s1 s2 s3 w1 w2 :
  reads P s1 s2 w1 -> reads P s2 s3 w2 -> reads P s1 s3 (w1 ++ w2).
Proof.
  intros [E1 F1] [E2 F2]. split.
  - rewrite E1, E2, app_assoc. reflexivity.
  - rewrite forallb_app, F1, F2. reflexivity.
Qed.

Lemma iter_reads (R : st -> st -> Prop) :
  (forall s s', R s s' -> exists w, reads P s s' w) ->
  forall n s s', iter R n s s' -> exists w, reads P s s' w.
Proof.
  intros HR. induction n as [|n IH]; intros s s' H; simpl in H.
  - subst. exists []. apply reads_refl.
  - destruct H as (s2 & H1 & H2).
    destruct (HR _ _ H1) as (w1 & Hw1). destruct (IH _ _ H2) as (w2 & Hw2).
    exists (w1 ++ w2). eapply reads_trans; eauto.
Qed.

Lemma char_reads (Q : ascii -> bool) s x t :
  forallb (fun x => implb (Q x) (P x)) all_chars = true ->
  rest s = x :: t -> Q x = true -> reads P s (adv x t s) [x].
Proof.
  intros HQ E Hx. split; [exact E|]. simpl.
  assert (A := forall_ascii _ HQ x). simpl in A. rewrite Hx in A.
  simpl in A. rewrite A. reflexivity.
Qed.

(** A run reads a piece of the text made of characters its atoms accept. *)
Lemma run_reads r : atoms_ok ic P r = true ->
  forall s s', run ic r s s' -> exists w, reads P s s' w.
Proof.
  induction r as [|c|neg items| |a IHa b IHb|a IHa b IHb|a IHa lo hi g
                 |i a IHa| | |];
    intros Hok s s' H; simpl in H, Hok.
  - subst. exists []. apply reads_refl.
  - destruct H as (x & t & E & O & ->). exists [x].
    eapply char_reads with (Q := lit_ok ic c); eauto.
  - destruct H as (x & t & E & O & ->). exists [x].
    eapply char_reads with (Q := cls_ok ic neg items); eauto.
  - destruct H as (x & t & E & O & ->). exists [x].
    eapply char_reads with (Q := fun x => negb (ascii_eqb x "010")); eauto.
    rewrite O. reflexivity.
  - apply andb_true_iff in Hok. destruct Hok as [Ha Hb].
    destruct H as (s2 & H1 & H2).
    destruct (IHa Ha _ _ H1) as (w1 & ?). destruct (IHb Hb _ _ H2) as (w2 & ?).
    exists (w1 ++ w2). eapply reads_trans; eauto.
  - apply andb_true_iff in Hok. destruct Hok as [Ha Hb].
    destruct H as [H | H]; eauto.
  - destruct H as (n & _ & H). eapply iter_reads; eauto.
  - destruct H as (s2 & H & ->).
    destruct (IHa Hok _ _ H) as (w & Hw). exists w. exact Hw.
  - destruct H as [_ ->]. exists []. apply reads_refl.
  - destruct H as [_ ->]. exists []. apply reads_refl.
  - destruct H as [_ ->]. exists []. apply reads_refl.
Qed.

End Consumed.

(** The matched text of a successful attempt. *)
Lemma match_at_text ic P r p s e :
  atoms_ok ic P r = true -> match_at ic r p s = Some e ->
  s = m_text (mobj_of s e) ++ rest e /\
  forallb P (m_text (mobj_of s e)) = true.
Proof.
  intros Hok H. apply match_at_sound in H.
  destruct (@run_reads ic P r Hok _ _ H) as (w & E & F). simpl in E.
  unfold mobj_of. cbn [m_text]. rewrite E, firstn_consumed. auto.
Qed.

(** Every match reported by a scan is a successful attempt somewhere. *)
Lemma scan_sound ic r mo : forall s p k,
  In mo (scan ic r p s k) ->
  exists p' s' e, match_at ic r p' s' = Some e /\ mo = mobj_of s' e.
Proof.
  induction s as [|c t IH]; intros p k H.
  - destruct k; simpl in H; [|destruct H].
    destruct (match_at ic r p []) as [e|] eqn:E; [|destruct H].
    destruct H as [<- | []]. eauto.
  - destruct k; simpl in H; [|eauto].
    destruct (match_at ic r p (c :: t)) as [e|] eqn:E; [|eauto].
    destruct H as [<- | H]; eauto.
Qed.

(** Under IGNORECASE a literal letter matches itself in either case. *)
Lemma lit_ok_ic (c x : ascii) :
  lit_ok true c x = true -> is_upper c = true -> x = c \/ x = lower_c c.
Proof.
  unfold lit_ok, ascii_eqb. intros H U. apply Ascii.eqb_eq in H.
  assert (A := upper_lower_c c). rewrite U in A. simpl in A.
  apply andb_true_iff in A. destruct A as [A1 A2].
  unfold ascii_eqb in A1. apply Ascii.eqb_eq in A1.
  assert (B := lower_c_cases x). rewrite <- H, A2 in B. simpl in B.
  apply orb_true_iff in B. unfold ascii_eqb in B.
  destruct B as [B | B]; apply Ascii.eqb_eq in B.
  - right. exact B.
  - left. rewrite B. exact A1.
Qed.

(** ** CostExtractor: the currencies it reports *)

Section CurrencyFacts.
Import CostExtractor.

Local Opaque lit_ok cls_ok at_boundary.

Ltac lit_cases :=
  repeat match goal with
  | H : lit_ok true ?c ?x = true |- _ =>
      destruct (lit_ok_ic c x H eq_refl); clear H; subst x
  end.

(** The inline currency, upper-cased, is one of the four codes. *)
Lemma inline_currency_shape line c :
  _detect_currency_inline line = Some c ->
  In c [L "CHF"; L "EUR"; L "USD"; L "GBP"].
Proof.
  unfold _detect_currency_inline.
  destruct (re_search true INLINE_CURRENCY_RE line) as [mo|] eqn:E;
    [|discriminate].
  simpl. destruct (group 1 mo) as [g|] eqn:G; [|discriminate].
  intros [= <-].
  apply search_from_sound in E.
  destruct E as (pre & p & s & e & _ & H & ->).
  unfold group, mobj_of in G. cbn [m_caps] in G.
  unfold INLINE_CURRENCY_RE in H. cbn in H.
  break_run; subst; cbn [rest adv prev caps] in *; subst;
    cbn [rest adv prev caps set_cap assoc Nat.eqb] in *;
    match goal with
    | H : Some (firstn _ (?a :: ?b :: ?c :: ?t)) = Some _ |- _ =>
        change (a :: b :: c :: t) with ([a; b; c] ++ t) in H;
        rewrite firstn_consumed in H; injection H as <-
    end;
    lit_cases; vm_compute; auto 6.
Qed.

Lemma letter_not_space (x : ascii) :
  implb (cls_ok true false [CRange "A" "Z"] x) (negb (is_space x)) = true.
Proof. revert x. Local Transparent cls_ok. by_cases_on_char. Qed.

Local Opaque cls_ok.

(** The invoice currency is three letters. *)
Lemma invoice_currency_shape text c :
  _detect_invoice_currency text = Some c ->
  c <> [] /\ strip c = c.
Proof.
  unfold _detect_invoice_currency.
  destruct (re_search true CURRENCY_RE text) as [mo|] eqn:E;
    [|discriminate].
  simpl. intros G.
  apply search_from_sound in E.
  destruct E as (pre & p & s & e & _ & H & ->).
  unfold group, mobj_of in G. cbn [m_caps] in G.
  unfold CURRENCY_RE in H. cbn in H.
  break_run; subst; cbn [rest adv prev caps] in *; subst.
  match goal with
  | L : 3 <= ?n, U : ?n <= _, H : iter _ ?n _ _ |- _ =>
      assert (n = 3) by (unfold rep_bound in *; lia); subst n;
      cbn in H
  end.
  break_run; subst; cbn [rest adv prev caps] in *; subst;
    cbn [rest adv prev caps set_cap assoc Nat.eqb] in *.
  match goal with H : rest _ = _ |- _ => rewrite H in * end.
  match goal with
  | H : Some (firstn _ (?a :: ?b :: ?c :: ?t)) = Some _ |- _ =>
      change (a :: b :: c :: t) with ([a; b; c] ++ t) in H;
      rewrite firstn_consumed in H; injection H as <-
  end.
  split; [discriminate|].
  repeat match goal with
  | H : cls_ok true false _ ?x = true |- _ =>
      let N := fresh in
      assert (N := letter_not_space x); rewrite H in N; simpl in N;
      apply negb_true_iff in N; clear H
  end.
  unfold strip, rstrip. simpl.
  repeat match goal with H : is_space _ = false |- _ => rewrite H end.
  simpl.
  repeat match goal with H : is_space _ = false |- _ => rewrite H end.
  reflexivity.
Qed.

End CurrencyFacts.

(** ** The shipment currency *)

Section BlockCurrency.
Import CostExtractor.

Lemma cur_ok_truthy o : cur_ok o -> truthy o = is_some o.
Proof.
  unfold cur_ok. destruct o as [c|]; simpl; [|reflexivity].
  destruct c as [|x c]; simpl; [|reflexivity].
  discriminate.
Qed.

Lemma row_item_currency partial_ratio cur raw it :
  cur_ok cur -> row_item partial_ratio cur raw = Some it ->
  cur_ok (currency it).
Proof.
  intros Hcur. unfold row_item.
  destruct (strip raw) as [|c0 line0] eqn:Hline; [discriminate|].
  destruct (existsb _ SKIP_KEYWORDS); [discriminate|].
  destruct (re_match false ROW_RE (c0 :: line0)) as [mo|]; [|discriminate].
  destruct (group g_desc mo); [|discriminate].
  destruct (group g_numcols mo) as [gn|]; [|discriminate].
  destruct (last_opt (split_ws gn)); [|discriminate].
  intros [= <-]. cbn [currency].
  destruct (_detect_currency_inline (c0 :: line0)) as [c|] eqn:E.
  - apply inline_currency_shape in E.
    simpl in E.
    destruct E as [<- | [<- | [<- | [<- | []]]]]; vm_compute; reflexivity.
  - exact Hcur.
Qed.

Lemma extract_currency partial_ratio text it :
  In it (extract partial_ratio text) -> cur_ok (currency it).
Proof.
  unfold extract. intros Hin.
  destruct (@cost_loop_inv partial_ratio (_detect_invoice_currency text)
              (split_on "010" text) ([], []))
    as (_ & _ & _ & _ & Ho); [reflexivity | constructor |].
  destruct (Ho it Hin) as [[] | (raw & _ & Hrow)].
  eapply row_item_currency; [|exact Hrow].
  unfold cur_ok.
  destruct (_detect_invoice_currency text) as [c|] eqn:E; [|reflexivity].
  apply invoice_currency_shape in E. destruct E as [Hne Hs].
  unfold Validator._clean_str. rewrite Hs.
  destruct c; [congruence | reflexivity].
Qed.

Lemma last_with_currency_rev items :
  last_with_currency items
  = match filter (fun it => is_some (currency it)) (rev items) with
    | it :: _ => currency it
    | [] => None
    end.
Proof.
  unfold last_with_currency, last_opt.
  rewrite <- filter_rev.
  destruct (filter _ (rev items)); reflexivity.
Qed.

(** Validation commutes with picking the block's currency. *)
Lemma block_currency_clean items :
  (forall it, In it items -> cur_ok (currency it)) ->
  Validator._clean_str (_extract_block_currency items)
  = last_with_currency (map Validator._clean_cost_item items).
Proof.
  intros Hok. rewrite last_with_currency_rev, <- map_rev.
  unfold _extract_block_currency.
  assert (Hok' : forall it, In it (rev items) -> cur_ok (currency it)).
  { intros it Hin. apply Hok, in_rev, Hin. }
  clear Hok. induction (rev items) as [|it l IH]; [reflexivity|].
  assert (Hit := Hok' it (or_introl eq_refl)).
  cbn [first_currency map filter Validator._clean_cost_item currency].
  rewrite (cur_ok_truthy Hit). unfold cur_ok in Hit. rewrite Hit.
  destruct (currency it) as [c|] eqn:E; cbn [is_some].
  - cbn [Validator._clean_cost_item currency]. rewrite E, Hit. reflexivity.
  - apply IH. intros it' Hin. apply Hok'. right. exact Hin.
Qed.

End BlockCurrency.

(** C10: in every record the orchestrator emits, [currency_shipment] is the
    currency of the last cost item of the record that has one, and is null
    when no cost item has a currency. *)
Theorem currency_shipment_is_last_currency
  (partial_ratio : str -> str -> Q)
  (parse_dayfirst strptime_iso : str -> option Date)
  (countries_get_alpha_2 : str -> bool)
  (countries_lookup : str -> option str)
  (service_extract : str -> option str)
  (location_extract : str -> Locations)
  (pages : list Page) (records : list ShipmentRecord) (r : ShipmentRecord) :
  Orchestrator.extract_invoice partial_ratio parse_dayfirst strptime_iso
    countries_get_alpha_2 countries_lookup service_extract location_extract
    pages = Some records ->
  In r records ->
  currency_shipment r = last_with_currency (cost_items r).
Proof.
  unfold Orchestrator.extract_invoice.
  generalize (Orchestrator._infer_invoice_year pages) as iy.
  generalize (Segmenter.segment pages) as blocks.
  intros blocks iy. revert records.
  induction blocks as [|b blocks IH]; intros records H Hin; simpl in H.
  - injection H as <-. destruct Hin.
  - destruct (Orchestrator.block_record _ _ _ _ _ _ _ iy b) as [ob|] eqn:B;
      [|discriminate].
    destruct (Orchestrator.blocks_loop _ _ _ _ _ _ _ iy blocks) as [rs|] eqn:R;
      [|discriminate].
    injection H as <-. apply in_app_or in Hin. destruct Hin as [Hin | Hin].
    + destruct ob as [r0|]; [|destruct Hin].
      destruct Hin as [<- | []].
      unfold Orchestrator.block_record in B.
      destruct (IdentifierExtractor.extract (b_text b)) as [id|];
        [|discriminate].
      destruct (negb (nonempty id)); [discriminate|].
      destruct (WeightExtractor.extract (b_text b)) as [w|]; [|discriminate].
      injection B as <-.
      cbn [Validator.validate_record currency_shipment cost_items].
      apply block_currency_clean.
      intros it. apply extract_currency.
    + eapply IH; eauto.
Qed.

Lemma currency_shipment_is_last_currency_witness :
  let out := Sample.extract_invoice [pg 1 "Rechnung 2025
Sendung 1Z12345678AB am 27.11.2025
Gewicht 5,0 kg
Transport 1.234,56 617,28
Maut EUR 1,00 2,50
Zoll 3,00 4,00
Gesamtkosten CHF 623,78"] in
  option_map (map currency_shipment) out = Some [Some (L "CHF")] /\
  option_map (map currency_shipment) out
  = option_map (map (fun r => last_with_currency (cost_items r))) out.
Proof.
  cbv zeta. split; [vm_compute; reflexivity|].
  destruct (Sample.extract_invoice _) as [records|] eqn:E; [|reflexivity].
  simpl. f_equal. apply map_ext_in. intros r Hr.
  exact (@currency_shipment_is_last_currency _ _ _ _ _ _ _ _ _ _ E Hr).
Defined.

(** ** WeightExtractor *)

Section WeightFacts.
Import WeightExtractor WeightSpec.

Lemma pass2_step_keeps w line :
  w_gross_weight (pass2_step w line) = w_gross_weight w /\
  w_chargeable_weight (pass2_step w line) = w_chargeable_weight w.
Proof.
  unfold pass2_step.
  destruct (re_search true RE_PAKETE line) as [mo|]; auto.
  destruct (group 2 mo); auto.
Qed.

Lemma pass2_keeps lines : forall w,
  w_gross_weight (fold_left pass2_step lines w) = w_gross_weight w /\
  w_chargeable_weight (fold_left pass2_step lines w) = w_chargeable_weight w.
Proof.
  induction lines as [|l lines IH]; intros w; simpl; auto.
  destruct (IH (pass2_step w l)) as [-> ->]. apply pass2_step_keeps.
Qed.

Lemma pass3_step_keeps_gross w line g :
  w_gross_weight w = Some g ->
  w_gross_weight (pass3_step w line) = Some g.
Proof.
  intros Hg. unfold pass3_step.
  set (w1 := if re_test true RE_WEIGHT_KW line then _ else w).
  assert (H1 : w_gross_weight w1 = Some g).
  { subst w1. destruct (re_test true RE_WEIGHT_KW line); auto.
    destruct (last_number line) as [[val|]|]; auto.
    destruct (re_test true RE_CHARGEABLE line); auto.
    rewrite Hg. exact Hg. }
  clearbody w1.
  set (w2 := if re_test true RE_LM line then _ else w1).
  assert (H2 : w_gross_weight w2 = Some g).
  { subst w2. destruct (re_test true RE_LM line); auto.
    destruct (last_number line); auto. }
  clearbody w2.
  destruct (re_test true RE_CBM line); auto.
  destruct (last_number line); auto.
Qed.

Lemma pass3_keeps_gross lines : forall w g,
  w_gross_weight w = Some g ->
  w_gross_weight (fold_left pass3_step lines w) = Some g.
Proof.
  induction lines as [|l lines IH]; intros w g Hg; simpl; auto.
  apply IH, pass3_step_keeps_gross, Hg.
Qed.

(** A weight/container line with other than two values keeps what is set. *)
Lemma pass4_step_keeps w line w' :
  pass4_step w line = Some w' ->
  length (container_values line) <> 2 \/ is_container_line line = false ->
  w_chargeable_weight w' = w_chargeable_weight w /\
  (forall g, w_gross_weight w = Some g -> w_gross_weight w' = Some g).
Proof.
  unfold pass4_step, is_container_line, container_values.
  destruct (contains (L "gewicht/container") (lower line)).
  2:{ intros [= <-]. auto. }
  destruct (map _to_float (filter nonempty (findall1 false RE_NUMBER line)))
    as [|a [|b [|c l]]]; intros H Hlen.
  - injection H as <-. auto.
  - destruct (w_gross_weight w) eqn:G; injection H as <-;
      cbn [w_chargeable_weight w_gross_weight]; split; auto;
      intros g0 Hg0; congruence.
  - simpl in Hlen. destruct Hlen; [congruence | discriminate].
  - injection H as <-. auto.
Qed.

Lemma pass4_none lines : 
  fold_left (fun acc line => opt_bind acc (fun w' => pass4_step w' line))
            lines None = None.
Proof. induction lines; simpl; auto. Qed.

Lemma pass4_keeps lines : forall w w4,
  pass4 lines w = Some w4 ->
  (forall line, In line lines ->
     length (container_values line) <> 2 \/ is_container_line line = false) ->
  w_chargeable_weight w4 = w_chargeable_weight w /\
  (forall g, w_gross_weight w = Some g -> w_gross_weight w4 = Some g).
Proof.
  unfold pass4.
  induction lines as [|l lines IH]; intros w w4 H Hl; simpl in H.
  - injection H as <-. auto.
  - destruct (pass4_step w l) as [w'|] eqn:E.
    + destruct (pass4_step_keeps _ _ E (Hl l (or_introl eq_refl)))
        as [Hc Hg].
      destruct (IH w' w4 H) as [Hc' Hg'].
      { intros. apply Hl. right. assumption. }
      split; [congruence | auto].
    + rewrite pass4_none in H. discriminate.
Qed.

(** A weight/container line with two values sets both weights, whatever
    they were. *)
Lemma pass4_step_pair w line a b :
  is_container_line line = true ->
  container_values line = [Some a; Some b] ->
  pass4_step w line
  = Some (mkWeights (Some (if Qle_bool a b then a else b))
                    (Some (if Qle_bool b a then a else b))
                    (w_loading_meter w) (w_cubic_meter w)
                    (w_pallet_amount w)).
Proof.
  unfold pass4_step, is_container_line, container_values.
  intros -> ->. reflexivity.
Qed.

End WeightFacts.

(** C5, as stated, fails: the final pass takes a weight/container line with
    two numbers as authoritative and replaces the gross and the chargeable
    weight that pass 3 had set. *)
Lemma weights_never_overwritten_counterexample :
  let text := L "Gewicht 5,0
Rechnungsgewicht 4,5
Gewicht/Container 6,0/5,5" in
  let w3 := WeightSpec.after_pass3
              (WeightExtractor.clean_lines (stripped_lines text)) in
  w_gross_weight w3 = Some (inject_Z 5) /\
  w_chargeable_weight w3 = Some (9 # 2) /\
  WeightExtractor.extract text
  = Some (mkWeights (Some (11 # 2)) (Some (inject_Z 6)) None None None).
Proof. cbv zeta. repeat split; vm_compute; reflexivity. Qed.

(** C5, amended: passes 2 and 3 never replace a gross weight set by an
    earlier pass, and pass 2 leaves the chargeable weight alone; in the final
    pass, as long as no weight/container line carries exactly two numbers, the
    chargeable weight is unchanged and a gross weight already set is kept;
    a weight/container line with exactly two numbers sets the gross weight
    to the smaller and the chargeable weight to the larger, whatever they
    were before. *)
Theorem weights_overwritten_only_by_container_pair (lines : list str) :
  (forall g, w_gross_weight (WeightSpec.after_pass1 lines) = Some g ->
             w_gross_weight (WeightSpec.after_pass3 lines) = Some g)
  /\ (forall w4,
        WeightExtractor.pass4 lines (WeightSpec.after_pass3 lines) = Some w4 ->
        (forall line, In line lines ->
           length (WeightSpec.container_values line) <> 2
           \/ WeightSpec.is_container_line line = false) ->
        w_chargeable_weight w4
        = w_chargeable_weight (WeightSpec.after_pass3 lines)
        /\ forall g,
             w_gross_weight (WeightSpec.after_pass3 lines) = Some g ->
             w_gross_weight w4 = Some g)
  /\ (forall w line a b,
        WeightSpec.is_container_line line = true ->
        WeightSpec.container_values line = [Some a; Some b] ->
        exists w',
          WeightExtractor.pass4_step w line = Some w' /\
          w_gross_weight w' = Some (if Qle_bool a b then a else b) /\
          w_chargeable_weight w' = Some (if Qle_bool b a then a else b)).
Proof.
  repeat split.
  - intros g Hg. unfold WeightSpec.after_pass3.
    apply pass3_keeps_gross.
    destruct (pass2_keeps lines (WeightSpec.after_pass1 lines)) as [-> _].
    exact Hg.
  - eapply pass4_keeps; eauto.
  - eapply pass4_keeps; eauto.
  - intros w line a b Hc Hv. eexists. split.
    + apply pass4_step_pair; eassumption.
    + split; reflexivity.
Qed.

(** ** IdentifierExtractor *)

Arguments cls_ok ic neg items !x /.
Arguments lit_ok ic !c !x /.
Arguments is_word !c /.
Arguments is_space !c /.

Section IdentifierFacts.
Import IdentifierExtractor.

Lemma iter_cls_reads neg items n s s' :
  iter (run false (Cls neg items)) n s s' ->
  exists w, rest s = w ++ rest s'.
Proof.
  intros H.
  assert (HR : forall a b, run false (Cls neg items) a b ->
                           exists w, reads any_char a b w).
  { intros a b Hab. apply (@run_reads false any_char (Cls neg items)); auto.
    cbn [atoms_ok]. apply forallb_forall. intros x _. apply implb_true_r. }
  destruct (@iter_reads any_char _ HR n s s' H) as (w & E & _).
  eauto.
Qed.

(** A strict match starts with "1Z". *)
Lemma strict_starts p s e :
  match_at false RE_UPS_STRICT p s = Some e ->
  exists t, m_text (mobj_of s e) = "1"%char :: t.
Proof.
  intros H. apply match_at_sound in H.
  unfold RE_UPS_STRICT, upper_or_digit in H. cbn -[at_boundary] in H.
  break_run; subst; cbn [rest adv prev caps] in *; subst.
  match goal with H : iter _ _ _ _ |- _ =>
    apply iter_cls_reads in H; destruct H as (w & E) end.
  cbn [rest adv] in E. subst.
  repeat match goal with H : lit_ok false _ _ = true |- _ =>
    unfold lit_ok, ascii_eqb in H; apply Ascii.eqb_eq in H; subst end.
  unfold mobj_of. cbn [m_text rest].
  match goal with |- context [firstn _ (?a :: ?b :: ?w ++ ?t)] =>
    change (a :: b :: w ++ t) with ((a :: b :: w) ++ t) end.
  rewrite firstn_consumed. eauto.
Qed.

(** A loose match starts with one of 1, I, i, l. *)
Lemma loose_starts p s e :
  match_at false RE_UPS_LOOSE p s = Some e ->
  exists x t, m_text (mobj_of s e) = x :: t /\
    (x = "1" \/ x = "I" \/ x = "i" \/ x = "l")%char.
Proof.
  intros H. apply match_at_sound in H.
  unfold RE_UPS_LOOSE, upper_or_digit in H.
  cbn -[at_boundary cls_ok] in H.
  break_run; subst; cbn [rest adv prev caps] in *; subst.
  match goal with H : iter _ _ _ _ |- _ =>
    apply iter_cls_reads in H; destruct H as (w & E) end.
  cbn [rest adv] in E. subst.
  unfold mobj_of. cbn [m_text rest].
  match goal with |- context [firstn _ (?a :: ?b :: ?w ++ ?t)] =>
    change (a :: b :: w ++ t) with ((a :: b :: w) ++ t) end.
  rewrite firstn_consumed. do 2 eexists. split; [reflexivity|].
  match goal with
  | H : cls_ok false false [CChar "1"; CChar "I"; CChar "i"; CChar "l"] ?x
        = true |- _ =>
      unfold cls_ok, items_have in H; cbn [existsb citem_has xorb] in H;
      repeat (apply orb_true_iff in H; destruct H as [H | H]);
      try discriminate H;
      unfold ascii_eqb in H; apply Ascii.eqb_eq in H; auto
  end.
Qed.

Lemma generic_atoms : atoms_ok false generic_char RE_GENERIC = true.
Proof. vm_compute. reflexivity. Qed.

(** A generic match is made of capitals and digits. *)
Lemma generic_chars p s e :
  match_at false RE_GENERIC p s = Some e ->
  forallb generic_char (m_text (mobj_of s e)) = true.
Proof.
  intros H. apply (@match_at_text false generic_char _ p s e generic_atoms H).
Qed.

Lemma generic_char_alnum (x : ascii) :
  implb (generic_char x)
        (is_alnum x
         && str_eqb (upper [x]) [x]
         && negb (ascii_eqb x "i") && negb (ascii_eqb x "l")) = true.
Proof. revert x. by_cases_on_char. Qed.

Lemma generic_filter w :
  forallb generic_char w = true -> filter is_alnum w = w.
Proof.
  induction w as [|x w IH]; simpl; [reflexivity|].
  intros H. apply andb_true_iff in H. destruct H as [Hx Hw].
  assert (A := generic_char_alnum x). rewrite Hx in A. simpl in A.
  repeat (apply andb_true_iff in A; destruct A as [A ?]).
  rewrite A, IH; auto.
Qed.

Lemma generic_upper w :
  forallb generic_char w = true -> upper w = w.
Proof.
  induction w as [|x w IH]; simpl; [reflexivity|].
  intros H. apply andb_true_iff in H. destruct H as [Hx Hw].
  assert (A := generic_char_alnum x). rewrite Hx in A. simpl in A.
  repeat (apply andb_true_iff in A; destruct A as [A ?]).
  match goal with H : str_eqb _ _ = true |- _ =>
    apply str_eqb_eq in H; unfold upper in H; simpl in H;
    rewrite app_nil_r in H end.
  unfold upper in IH |- *. simpl.
  match goal with H : _ = [x] |- _ => rewrite H end.
  rewrite IH; auto.
Qed.

(** Cleaning a string that starts with 1, I, i or l yields a string that
    starts with 1. *)
Lemma clean_id_leading x t :
  (x = "1" \/ x = "I" \/ x = "i" \/ x = "l")%char ->
  _clean_id (x :: t) <> bogus_id.
Proof.
  intros [-> | [-> | [-> | ->]]]; unfold _clean_id; simpl; discriminate.
Qed.

(** Cleaning a plausible generic token never yields "00001618HS". *)
Lemma clean_id_generic w :
  forallb generic_char w = true -> _is_plausible w = true ->
  _clean_id w <> bogus_id.
Proof.
  intros Hw Hp Hc. unfold _clean_id in Hc.
  rewrite (generic_filter _ Hw) in Hc.
  destruct w as [|x w]; [discriminate Hp|].
  simpl in Hw. apply andb_true_iff in Hw. destruct Hw as [Hx Hw].
  assert (A := generic_char_alnum x). rewrite Hx in A. simpl in A.
  repeat (apply andb_true_iff in A; destruct A as [A ?]).
  assert (Hfix : fix_leading (x :: w) = x :: w \/
                 fix_leading (x :: w) = "1"%char :: w).
  { unfold fix_leading. destruct (_ || _); auto. }
  destruct Hfix as [Hfix | Hfix]; rewrite Hfix in Hc.
  - rewrite generic_upper in Hc.
    + rewrite Hc in Hp. vm_compute in Hp. discriminate Hp.
    + simpl. rewrite Hx, Hw. reflexivity.
  - unfold upper in Hc. simpl in Hc. discriminate Hc.
Qed.

Lemma findall_sound ic r s x :
  In x (findall ic r s) ->
  exists p s' e, match_at ic r p s' = Some e /\ x = m_text (mobj_of s' e).
Proof.
  unfold findall, finditer. intros H. apply in_map_iff in H.
  destruct H as (mo & <- & H). apply scan_sound in H.
  destruct H as (p & s' & e & H & ->). eauto.
Qed.

Lemma first_cleaned_in l r :
  first_cleaned l = Some r -> exists x, In x l /\ r = _clean_id x.
Proof.
  destruct l as [|x l]; [discriminate|]. intros [= <-].
  exists x. simpl. auto.
Qed.

Lemma loose_tier_not_bogus lines r :
  loose_tier lines = Some r -> r <> bogus_id.
Proof.
  induction lines as [|line lines IH]; simpl; [discriminate|].
  destruct (findall false RE_UPS_LOOSE (_fix_ocr line)) as [|x l] eqn:E;
    [exact IH|].
  intros [= <-].
  assert (Hin : In x (findall false RE_UPS_LOOSE (_fix_ocr line))).
  { rewrite E. left. reflexivity. }
  apply findall_sound in Hin. destruct Hin as (p & s' & e & Hm & ->).
  apply loose_starts in Hm. destruct Hm as (c & t & -> & Hc).
  apply clean_id_leading, Hc.
Qed.

Lemma plausible_generic_not_bogus s r :
  first_cleaned (filter _is_plausible (findall false RE_GENERIC s)) = Some r ->
  r <> bogus_id.
Proof.
  intros H. apply first_cleaned_in in H. destruct H as (x & Hin & ->).
  apply filter_In in Hin. destruct Hin as [Hin Hp].
  apply findall_sound in Hin. destruct Hin as (p & s' & e & Hm & ->).
  apply clean_id_generic; auto. eapply generic_chars; eauto.
Qed.

Lemma keyword_tier_not_bogus lines r :
  keyword_tier lines = Some r -> r <> bogus_id.
Proof.
  induction lines as [|line lines IH]; cbn [keyword_tier]; [discriminate|].
  destruct (existsb (fun k => contains k (lower line)) KEYWORDS);
    [|exact IH].
  destruct (filter _is_plausible (findall false RE_GENERIC (_fix_ocr line)))
    as [|x l] eqn:E; [exact IH|].
  rewrite <- E. apply plausible_generic_not_bogus.
Qed.

Lemma scan_hit ic r p s e :
  match_at ic r p s = Some e ->
  exists more, scan ic r p s 0 = mobj_of s e :: more.
Proof.
  intros H. destruct s; cbn [scan]; rewrite H; eauto.
Qed.

(** Skipping a prefix in which no attempt succeeds. *)
Lemma scan_skip ic r rest : forall pre p,
  no_match_in ic r p pre rest = true ->
  scan ic r p (pre ++ rest) 0 = scan ic r (prev_after p pre) rest 0.
Proof.
  induction pre as [|c pre IH]; intros p H.
  - reflexivity.
  - cbn [no_match_in] in H. apply andb_true_iff in H. destruct H as [H1 H2].
    cbn [app scan]. cbn [app] in H1.
    destruct (match_at ic r p (c :: pre ++ rest)); [discriminate H1|].
    rewrite (IH _ H2). f_equal.
    unfold prev_after, last_opt. simpl.
    destruct (rev pre) as [|y l] eqn:E; simpl; reflexivity.
Qed.

Lemma upper_digit_is_word (x : ascii) :
  implb (cls_ok false false [CRange "0" "9"; CRange "A" "Z"] x) (is_word x)
  = true.
Proof. revert x. by_cases_on_char. Qed.

(** At the token, delimited on both sides, the strict pattern matches the
    token and nothing more. *)
Lemma strict_at_token p post :
  opt_word p = false -> opt_word (hd_error post) = false ->
  option_map (mobj_of (ups_token ++ post))
             (match_at false RE_UPS_STRICT p (ups_token ++ post))
  = Some (mkmobj ups_token []).
Proof.
  intros Hp Hpost.
  unfold match_at, RE_UPS_STRICT, upper_or_digit, ups_token.
  cbn -[at_boundary].
  unfold at_boundary at 1. cbn [prev rest hd_error opt_word]. rewrite Hp.
  cbn -[at_boundary].
  destruct post as [|x t].
  - vm_compute. reflexivity.
  - cbn [hd_error opt_word] in Hpost.
    assert (Hstop : cls_ok false false [CRange "0" "9"; CRange "A" "Z"] x
                    = false).
    { assert (A := upper_digit_is_word x). rewrite Hpost in A.
      destruct (cls_ok false false _ x); auto. }
    rewrite Hstop.
    unfold at_boundary at 1. cbn [prev rest adv hd_error opt_word xorb].
    rewrite Hpost. cbn -[at_boundary cls_ok].
    unfold mobj_of. cbn [rest caps adv].
    f_equal. f_equal.
    match goal with |- firstn _ ?l = ?w => change l with (w ++ x :: t) end.
    apply firstn_consumed.
Qed.

Lemma findall_at_token pre post :
  no_match_in false RE_UPS_STRICT None pre (ups_token ++ post) = true ->
  opt_word (prev_after None pre) = false ->
  opt_word (hd_error post) = false ->
  exists more,
    findall false RE_UPS_STRICT (pre ++ ups_token ++ post)
    = ups_token :: more.
Proof.
  intros Hno Hp Hpost. unfold findall, finditer.
  rewrite (scan_skip _ _ _ _ _ Hno).
  assert (M := strict_at_token _ _ Hp Hpost).
  destruct (match_at false RE_UPS_STRICT (prev_after None pre)
              (ups_token ++ post)) as [e|] eqn:E; [|discriminate M].
  destruct (scan_hit _ _ _ _ E) as (more & ->).
  cbn [option_map] in M.
  assert (M' : mobj_of (ups_token ++ post) e = mkmobj ups_token [])
    by congruence.
  cbn [map]. rewrite M'. cbn [m_text]. eauto.
Qed.

End IdentifierFacts.

(** C3: the identifier extractor never returns "00001618HS", whatever the
    block text; and when the text holds the token "1Z12345E0205271688",
    delimited by non-word characters or the ends of the text, with no match
    of the strict pattern starting before it, the strict tier finds the token
    first and [extract] returns it. *)
Theorem identifier_plausibility (block_text pre post : str) :
  IdentifierExtractor.extract block_text <> Some bogus_id
  /\ (no_match_in false IdentifierExtractor.RE_UPS_STRICT None pre
        (ups_token ++ post) = true ->
      opt_word (prev_after None pre) = false ->
      opt_word (hd_error post) = false ->
      hd_error (findall false IdentifierExtractor.RE_UPS_STRICT
                  (pre ++ ups_token ++ post)) = Some ups_token
      /\ IdentifierExtractor.extract (pre ++ ups_token ++ post)
         = Some ups_token).
Proof.
  split.
  - unfold IdentifierExtractor.extract.
    destruct (findall false IdentifierExtractor.RE_UPS_STRICT block_text)
      as [|x l] eqn:E.
    + destruct (IdentifierExtractor.loose_tier (split_on "010" block_text))
        as [r|] eqn:E2.
      { intros [= ->]. exact (loose_tier_not_bogus _ E2 eq_refl). }
      destruct (IdentifierExtractor.keyword_tier (split_on "010" block_text))
        as [r|] eqn:E3.
      { intros [= ->]. exact (keyword_tier_not_bogus _ E3 eq_refl). }
      intros H. exact (plausible_generic_not_bogus _ H eq_refl).
    + cbn [IdentifierExtractor.first_cleaned]. intros [= H].
      assert (Hin : In x (findall false IdentifierExtractor.RE_UPS_STRICT
                            block_text)).
      { rewrite E. left. reflexivity. }
      apply findall_sound in Hin. destruct Hin as (p & s' & e & Hm & ->).
      apply strict_starts in Hm. destruct Hm as (t & Ht).
      rewrite Ht in H. revert H. apply clean_id_leading. auto.
  - intros Hno Hp Hpost.
    destruct (findall_at_token pre post Hno Hp Hpost) as (more & E).
    unfold IdentifierExtractor.extract. rewrite E. split; reflexivity.
Qed.

Lemma identifier_plausibility_witness :
  IdentifierExtractor.extract (L "Rechnung 00001618HS
Sendung: 1Z12345E0205271688, 2 Pakete")
  = Some ups_token.
Proof.
  refine (proj2 (proj2 (identifier_plausibility []
                          (L "Rechnung 00001618HS
Sendung: ")
                          (L ", 2 Pakete")) _ _ _));
    vm_compute; reflexivity.
Defined.

(** ** Lines of a text *)

Lemma split_on_nonempty c s : split_on c s <> [].
Proof.
  destruct s as [|x s]; simpl; [discriminate|].
  destruct (ascii_eqb x c); [discriminate|].
  destruct (split_on c s); discriminate.
Qed.

Lemma split_on_app c a b :
  split_on c (a ++ c :: b) = split_on c a ++ split_on c b.
Proof.
  induction a as [|x a IH]; simpl.
  - unfold ascii_eqb. rewrite Ascii.eqb_refl. reflexivity.
  - destruct (ascii_eqb x c); [rewrite IH; reflexivity|].
    rewrite IH.
    destruct (split_on c a) as [|w ws] eqn:E; [|reflexivity].
    exfalso. exact (split_on_nonempty _ _ E).
Qed.

Lemma split_on_single c l : ~ In c l -> split_on c l = [l].
Proof.
  induction l as [|x l IH]; simpl; [reflexivity|].
  intros H. destruct (ascii_eqb x c) eqn:E.
  - unfold ascii_eqb in E. apply Ascii.eqb_eq in E. subst. tauto.
  - rewrite IH by tauto. reflexivity.
Qed.

Lemma stripped_lines_app a b :
  stripped_lines (a ++ nl ++ b) = stripped_lines a ++ stripped_lines b.
Proof.
  unfold stripped_lines, nl. simpl app.
  rewrite split_on_app, map_app, filter_app. reflexivity.
Qed.

Lemma stripped_lines_join ls :
  stripped_lines (join nl ls) = flat_map stripped_lines ls.
Proof.
  induction ls as [|p ps IH]; [reflexivity|].
  destruct ps as [|q ps].
  - simpl. rewrite app_nil_r. reflexivity.
  - change (join nl (p :: q :: ps)) with (p ++ nl ++ join nl (q :: ps)).
    rewrite stripped_lines_app, IH. reflexivity.
Qed.

(** ** WeightExtractor: the cost-row filter *)

Lemma cost_row_line_dropped l :
  ~ In "010"%char l ->
  WeightExtractor.is_cost_row (strip l) = true ->
  WeightExtractor.clean_lines (stripped_lines l) = [].
Proof.
  intros Hnl Hrow. unfold stripped_lines.
  rewrite (split_on_single _ _ Hnl). simpl.
  destruct (str_eqb (strip l) []); simpl; [reflexivity|].
  rewrite Hrow. reflexivity.
Qed.

(** C6: a line that matches the cost-pair pattern is dropped before the
    passes run, so the result is the one obtained without the line; in
    particular the line "748,40 374,25" alone leaves all five fields null. *)
Theorem cost_rows_never_reach_weights (before after : list str) (l : str) :
  ~ In "010"%char l ->
  WeightExtractor.is_cost_row (strip l) = true ->
  WeightExtractor.extract (join nl (before ++ l :: after))
  = WeightExtractor.extract (join nl (before ++ after))
  /\ WeightExtractor.extract (L "748,40 374,25")
     = Some WeightExtractor.no_weights.
Proof.
  intros Hnl Hrow. split; [|vm_compute; reflexivity].
  unfold WeightExtractor.extract. f_equal.
  rewrite !stripped_lines_join, !flat_map_app. cbn [flat_map].
  unfold WeightExtractor.clean_lines.
  rewrite !filter_app.
  fold (WeightExtractor.clean_lines (stripped_lines l)).
  rewrite (cost_row_line_dropped _ Hnl Hrow). reflexivity.
Qed.

Lemma cost_rows_never_reach_weights_witness :
  WeightExtractor.extract (L "Gewicht 5,0 kg
  748,40 374,25 374,15
Lademeter 1,2")
  = WeightExtractor.extract (L "Gewicht 5,0 kg
Lademeter 1,2").
Proof.
  refine (proj1 (@cost_rows_never_reach_weights
                   [L "Gewicht 5,0 kg"] [L "Lademeter 1,2"]
                   (L "  748,40 374,25 374,15") _ _)).
  - vm_compute. intuition discriminate.
  - vm_compute. reflexivity.
Defined.

(** ** CostExtractor: the rightmost number *)

Section RowFacts.
Import CostExtractor.

Lemma atoms_any ic r : atoms_ok ic (fun _ => true) r = true.
Proof.
  induction r; cbn [atoms_ok]; auto;
    try (apply forallb_forall; intros x _; apply implb_true_r);
    try (rewrite IHr1, IHr2; reflexivity).
Qed.

Lemma run_consumed ic r s s' :
  run ic r s s' -> exists w, rest s = w ++ rest s'.
Proof.
  intros H.
  destruct (@run_reads ic (fun _ => true) r (atoms_any ic r) s s' H)
    as (w & E & _).
  eauto.
Qed.

Lemma iter_consumed ic r n s s' :
  iter (run ic r) n s s' -> exists w, rest s = w ++ rest s'.
Proof.
  intros H.
  destruct (@iter_reads (fun _ => true) (run ic r)
              (@run_reads ic (fun _ => true) r (atoms_any ic r)) n s s' H)
    as (w & E & _).
  eauto.
Qed.

Lemma run_seq_inv ic a b s s' :
  run ic (Seq a b) s s' -> exists s2, run ic a s s2 /\ run ic b s2 s'.
Proof. exact (fun H => H). Qed.

Lemma run_rep_inv ic a lo hi g s s' :
  run ic (Rep a lo hi g) s s' ->
  exists n, lo <= n <= rep_bound lo hi s /\ iter (run ic a) n s s'.
Proof. exact (fun H => H). Qed.

Lemma run_grp_inv ic i a s s' :
  run ic (Grp i a) s s' -> exists s2, run ic a s s2 /\ s' = set_cap i s s2.
Proof. exact (fun H => H). Qed.

Lemma iter_snoc (R : st -> st -> Prop) n : forall s s',
  iter R (S n) s s' -> exists m, iter R n s m /\ R m s'.
Proof.
  induction n as [|n IH]; intros s s' H.
  - simpl in H. destruct H as (s2 & H & ->). exists s. simpl. auto.
  - cbn [iter] in H. destruct H as (s2 & H1 & H2).
    destruct (IH s2 s' H2) as (m & Hm & Hl).
    exists m. split; [|exact Hl]. cbn [iter]. eauto.
Qed.

(** [\s+] reads at least one character, and its last one is a blank. *)
Lemma plus_space_last s s' :
  run false (plus space) s s' ->
  exists w x, rest s = w ++ x :: rest s' /\ is_space x = true.
Proof.
  unfold plus. intros H. apply run_rep_inv in H.
  destruct H as (n & [Hn _] & H). destruct n as [|k]; [lia|].
  apply iter_snoc in H. destruct H as (m & Hk & Hl).
  apply iter_consumed in Hk. destruct Hk as (w & E).
  unfold space in Hl. cbn [run] in Hl.
  destruct Hl as (x & t & Em & Hx & ->). cbn [rest adv].
  exists w, x. rewrite E, Em. split; [reflexivity|].
  unfold cls_ok, items_have in Hx. cbn [existsb citem_has xorb] in Hx.
  rewrite orb_false_r in Hx. exact Hx.
Qed.

End RowFacts.

(** *** The last word of a line *)

Lemma last_opt_cons_some {A} (x : A) l y :
  last_opt l = Some y -> last_opt (x :: l) = Some y.
Proof.
  unfold last_opt. simpl. destruct (rev l) as [|z r]; [discriminate|].
  simpl. auto.
Qed.

Lemma split_ws_aux_word g : forall cur,
  forallb (fun c => negb (is_space c)) g = true ->
  rev cur ++ g <> [] ->
  split_ws_aux cur g = [rev cur ++ g].
Proof.
  induction g as [|c g IH]; intros cur Hg Hne; cbn [split_ws_aux].
  - rewrite app_nil_r in *.
    destruct cur; [exfalso; apply Hne; reflexivity | reflexivity].
  - cbn [forallb] in Hg. apply andb_true_iff in Hg. destruct Hg as [Hc Hg].
    apply negb_true_iff in Hc. rewrite Hc.
    rewrite IH; auto.
    + simpl. rewrite <- app_assoc. reflexivity.
    + simpl. rewrite <- app_assoc. simpl. destruct (rev cur); discriminate.
Qed.

(** The last word of a text that ends with a blank and then a word [g]. *)
Lemma split_ws_aux_last x g :
  is_space x = true -> g <> [] ->
  forallb (fun c => negb (is_space c)) g = true ->
  forall a cur, last_opt (split_ws_aux cur (a ++ x :: g)) = Some g.
Proof.
  intros Hx Hne Hg.
  assert (Hword : split_ws_aux [] g = [g]).
  { apply (split_ws_aux_word g [] Hg). simpl. exact Hne. }
  induction a as [|c a IH]; intros cur; cbn [app split_ws_aux].
  - rewrite Hx, Hword. destruct cur; reflexivity.
  - destruct (is_space c); [|apply IH].
    destruct cur; [apply IH|].
    apply last_opt_cons_some, IH.
Qed.

Lemma german_char_not_space (x : ascii) :
  implb (german_char x) (negb (is_space x)) = true.
Proof. revert x. by_cases_on_char. Qed.

Lemma german_word g :
  forallb german_char g = true ->
  forallb (fun c => negb (is_space c)) g = true.
Proof.
  induction g as [|x g IH]; simpl; [reflexivity|].
  intros H. apply andb_true_iff in H. destruct H as [Hx Hg].
  assert (A := german_char_not_space x). rewrite Hx in A. simpl in A.
  rewrite A, IH; auto.
Qed.

Lemma lstrip_head s c t : lstrip s = c :: t -> is_space c = false.
Proof.
  induction s as [|x s IH]; simpl; [discriminate|].
  destruct (is_space x) eqn:E; [exact IH|].
  intros [= <- _]. exact E.
Qed.

(** A stripped string does not end with a blank. *)
Lemma strip_last s a c : strip s = a ++ [c] -> is_space c = false.
Proof.
  unfold strip, rstrip. intros H.
  apply (f_equal (@rev _)) in H. rewrite rev_involutive, rev_app_distr in H.
  simpl in H. eapply lstrip_head; eauto.
Qed.

(** ** Dates: the order of ISO strings *)

Lemma digit_char_mod n : digit_char (n mod 10) = digit_char n.
Proof.
  unfold digit_char. rewrite Nat.Div0.mod_mod. reflexivity.
Qed.

Lemma digit_char_ltb a b :
  a < 10 -> b < 10 ->
  (N_of_ascii (digit_char a) <? N_of_ascii (digit_char b))%N = (a <? b).
Proof.
  intros Ha Hb.
  do 10 (destruct a as [|a]; [
    do 10 (destruct b as [|b]; [vm_compute; reflexivity|]); lia |]).
  lia.
Qed.

Lemma str_leb_digit a b s t :
  str_leb (digit_char a :: s) (digit_char b :: t)
  = if a mod 10 <? b mod 10 then true
    else if b mod 10 <? a mod 10 then false
    else str_leb s t.
Proof.
  rewrite <- (digit_char_mod a), <- (digit_char_mod b).
  cbn [str_leb].
  rewrite !digit_char_ltb by (apply Nat.mod_upper_bound; discriminate).
  reflexivity.
Qed.

Lemma str_leb_two a b s t :
  a < 100 -> b < 100 ->
  str_leb (two_digits a ++ s) (two_digits b ++ t)
  = if a <? b then true else if b <? a then false else str_leb s t.
Proof.
  intros Ha Hb. unfold two_digits. cbn [app].
  rewrite !str_leb_digit.
  assert (Ea := Nat.div_mod_eq a 10). assert (Eb := Nat.div_mod_eq b 10).
  assert (a mod 10 < 10) by (apply Nat.mod_upper_bound; discriminate).
  assert (b mod 10 < 10) by (apply Nat.mod_upper_bound; discriminate).
  assert (a / 10 < 10) by (apply Nat.Div0.div_lt_upper_bound; lia).
  assert (b / 10 < 10) by (apply Nat.Div0.div_lt_upper_bound; lia).
  rewrite (Nat.mod_small (a / 10)), (Nat.mod_small (b / 10)) by assumption.
  repeat match goal with
  | |- context [?x <? ?y] => destruct (Nat.ltb_spec x y)
  end; try reflexivity; lia.
Qed.

Lemma two_digits_mod n : two_digits (n mod 100) = two_digits n.
Proof.
  unfold two_digits.
  rewrite <- (digit_char_mod (n mod 100 / 10)), <- (digit_char_mod (n / 10)).
  rewrite <- (digit_char_mod (n mod 100)), <- (digit_char_mod n).
  assert (E := Nat.div_mod_eq n 100).
  assert (n mod 100 < 100) by (apply Nat.mod_upper_bound; discriminate).
  replace ((n mod 100) mod 10) with (n mod 10).
  2:{ rewrite E at 1. replace (100 * (n / 100) + n mod 100)
        with (n mod 100 + (10 * (n / 100)) * 10) by lia.
      rewrite Nat.Div0.mod_add. reflexivity. }
  replace ((n mod 100 / 10) mod 10) with ((n / 10) mod 10).
  2:{ rewrite E at 1. replace (100 * (n / 100) + n mod 100)
        with (n mod 100 + (10 * (n / 100)) * 10) by lia.
      rewrite Nat.div_add by discriminate.
      replace (n mod 100 / 10 + 10 * (n / 100))
        with (n mod 100 / 10 + (n / 100) * 10) by lia.
      rewrite Nat.Div0.mod_add. reflexivity. }
  reflexivity.
Qed.

Lemma str_leb_four a b s t :
  a < 100 * 100 -> b < 100 * 100 ->
  str_leb (four_digits a ++ s) (four_digits b ++ t)
  = if a <? b then true else if b <? a then false else str_leb s t.
Proof.
  intros Ha Hb. unfold four_digits. rewrite <- !app_assoc.
  assert (Ea := Nat.div_mod_eq a 100). assert (Eb := Nat.div_mod_eq b 100).
  assert (a mod 100 < 100) by (apply Nat.mod_upper_bound; discriminate).
  assert (b mod 100 < 100) by (apply Nat.mod_upper_bound; discriminate).
  assert (a / 100 < 100) by (apply Nat.Div0.div_lt_upper_bound; lia).
  assert (b / 100 < 100) by (apply Nat.Div0.div_lt_upper_bound; lia).
  rewrite str_leb_two by assumption.
  rewrite <- (two_digits_mod a), <- (two_digits_mod b).
  rewrite str_leb_two by assumption.
  repeat match goal with
  | |- context [?x <? ?y] => destruct (Nat.ltb_spec x y)
  end; try reflexivity; lia.
Qed.

(** ** Validator *)

(** C9 fails on the code: a country made of blanks is cleaned to the empty
    string ([_clean_country] strips and keeps what pycountry does not know),
    and the empty string is cleaned to null on the next pass; [_clean_str]
    maps a blank string to null at once. [pycountry] knows no country of
    empty code or name. *)
Theorem validate_not_idempotent_on_blank_country
  (strptime_iso parse_dayfirst : str -> option Date)
  (countries_get_alpha_2 : str -> bool)
  (countries_lookup : str -> option str) :
  countries_get_alpha_2 [] = false ->
  countries_lookup [] = None ->
  let validate :=
    Validator.validate_record strptime_iso parse_dayfirst
      countries_get_alpha_2 countries_lookup in
  origin_country (validate blank_country_record) = Some []
  /\ origin_country (validate (validate blank_country_record)) = None
  /\ validate (validate blank_country_record)
     <> validate blank_country_record.
Proof.
  intros Hget Hlookup validate.
  assert (E1 : origin_country (validate blank_country_record) = Some []).
  { subst validate. cbn [Validator.validate_record origin_country].
    unfold Validator._clean_country, blank_country_record.
    cbn [origin_country truthy negb].
    change (upper (strip (L "  "))) with (@nil ascii).
    rewrite Hget, Hlookup. reflexivity. }
  assert (E2 : origin_country (validate (validate blank_country_record))
               = None).
  { subst validate. cbn [Validator.validate_record origin_country] in *.
    rewrite E1. reflexivity. }
  repeat split; auto.
  intros H. rewrite H in E2. congruence.
Qed.

Lemma validate_not_idempotent_on_blank_country_witness :
  let validate :=
    Validator.validate_record Sample.strptime_iso Sample.parse_dayfirst
      Sample.countries_get_alpha_2 Sample.countries_lookup in
  validate (validate blank_country_record) <> validate blank_country_record.
Proof.
  refine (proj2 (proj2 (@validate_not_idempotent_on_blank_country
                          Sample.strptime_iso Sample.parse_dayfirst
                          Sample.countries_get_alpha_2
                          Sample.countries_lookup _ _)));
    vm_compute; reflexivity.
Defined.

(** ** Floats: rounding *)

Section FloatFacts.
Local Open Scope Z_scope.

Lemma pow2_up_nonneg e : 0 <= e -> pow2_up e = 2 ^ e.
Proof. intros H. unfold pow2_up. rewrite Z.max_l by lia. reflexivity. Qed.

Lemma pow2_up_neg e : e <= 0 -> pow2_up e = 1.
Proof. intros H. unfold pow2_up. rewrite Z.max_r by lia. reflexivity. Qed.

Lemma pow2_down_nonneg e : 0 <= e -> pow2_down e = 1.
Proof. intros H. unfold pow2_down. rewrite Z.max_r by lia. reflexivity. Qed.

Lemma pow2_down_neg e : e <= 0 -> pow2_down e = 2 ^ (- e).
Proof. intros H. unfold pow2_down. rewrite Z.max_l by lia. reflexivity. Qed.

Lemma pow2_pos e : 0 < 2 ^ e \/ e < 0.
Proof. destruct (Z.le_gt_cases 0 e); [left; apply Z.pow_pos_nonneg; lia | auto]. Qed.

(** [floor_log2]: [2^e <= n/d < 2^(e+1)]. *)
Lemma floor_log2_spec n d :
  0 < n -> 0 < d ->
  let e := floor_log2 n d in
  d * pow2_up e <= n * pow2_down e
  /\ n * pow2_down (e + 1) < d * pow2_up (e + 1).
Proof.
  intros Hn Hd. cbn zeta. unfold floor_log2.
  destruct (Z.log2_spec n Hn) as [An Bn].
  destruct (Z.log2_spec d Hd) as [Ad Bd].
  assert (Na := Z.log2_nonneg n). assert (Nb := Z.log2_nonneg d).
  set (a := Z.log2 n) in *. set (b := Z.log2 d) in *.
  rewrite Z.pow_succ_r in Bn, Bd by assumption.
  assert (Pa : 0 < 2 ^ a) by (apply Z.pow_pos_nonneg; lia).
  assert (Pb : 0 < 2 ^ b) by (apply Z.pow_pos_nonneg; lia).
  destruct (Z.leb_spec (d * pow2_up (a - b)) (n * pow2_down (a - b)))
    as [C | C].
  - split; [exact C|].
    destruct (Z.le_gt_cases 0 (a - b)) as [K | K].
    + rewrite pow2_down_nonneg, pow2_up_nonneg by lia.
      replace (a - b + 1) with (Z.succ (a - b)) by lia.
      rewrite Z.pow_succ_r by lia.
      assert (E : 2 ^ a = 2 ^ (a - b) * 2 ^ b)
        by (rewrite <- Z.pow_add_r by lia; f_equal; lia).
      assert (0 < 2 ^ (a - b)) by (apply Z.pow_pos_nonneg; lia).
      nia.
    + rewrite pow2_down_neg, pow2_up_neg by lia.
      assert (E : 2 ^ b = 2 * 2 ^ a * 2 ^ (- (a - b + 1))).
      { rewrite <- Z.pow_succ_r, <- Z.pow_add_r by lia. f_equal. lia. }
      assert (0 < 2 ^ (- (a - b + 1))) by (apply Z.pow_pos_nonneg; lia).
      nia.
  - replace (a - b - 1 + 1) with (a - b) by lia. split; [|lia].
    destruct (Z.le_gt_cases 1 (a - b)) as [K | K].
    + rewrite pow2_down_nonneg, pow2_up_nonneg by lia.
      assert (E : 2 ^ a = 2 ^ (a - b - 1) * (2 * 2 ^ b)).
      { rewrite <- Z.pow_succ_r, <- Z.pow_add_r by lia. f_equal. lia. }
      assert (0 < 2 ^ (a - b - 1)) by (apply Z.pow_pos_nonneg; lia).
      nia.
    + rewrite pow2_down_neg, pow2_up_neg by lia.
      assert (E : 2 * 2 ^ b = 2 ^ a * 2 ^ (- (a - b - 1))).
      { rewrite <- Z.pow_succ_r, <- Z.pow_add_r by lia. f_equal. lia. }
      assert (0 < 2 ^ (- (a - b - 1))) by (apply Z.pow_pos_nonneg; lia).
      nia.
Qed.

(** Rounding to the nearest integer: within one of the quotient. *)
Lemma round_half_even_bounds n d :
  0 < d ->
  n / d <= round_half_even n d <= n / d + 1.
Proof.
  intros Hd. unfold round_half_even.
  destruct (2 * (n mod d) ?= d); [destruct (Z.even (n / d))| |]; lia.
Qed.

(** Below an even bound [M]: exactly when [n/d < M - 1/2]. *)
Lemma round_half_even_below n d M :
  0 < d -> Z.even M = true ->
  round_half_even n d < M <-> 2 * n < (2 * M - 1) * d.
Proof.
  intros Hd HM.
  assert (E := Z.div_mod n d ltac:(lia)).
  assert (R := Z.mod_pos_bound n d Hd).
  assert (B := round_half_even_bounds n Hd).
  set (f := n / d) in *. set (r := n mod d) in *.
  destruct (Z.lt_trichotomy f (M - 1)) as [F | [F | F]].
  - split; intros _; [nia | lia].
  - assert (Hf : Z.even f = false).
    { subst f. rewrite F. rewrite Z.even_sub, HM. reflexivity. }
    unfold round_half_even. fold f r. rewrite Hf.
    destruct (Z.compare_spec (2 * r) d); split; intros; try nia; try lia.
  - split; intros; [lia | nia].
Qed.

Lemma below_finite X P :
  0 < P ->
  below_1e7 (Finite (Qred (X # Z.to_pos P))) = None <-> 10000000 * P <= X.
Proof.
  intros HP. unfold below_1e7.
  destruct (Qle_bool (inject_Z 10000000) (Qred (X # Z.to_pos P))) eqn:E.
  - split; [intros _ | reflexivity].
    apply Qle_bool_iff in E. rewrite Qred_correct in E.
    unfold Qle, inject_Z in E. cbn [Qnum Qden] in E.
    rewrite Z2Pos.id in E by exact HP. lia.
  - split; [discriminate|]. intros H. exfalso.
    assert (T : Qle_bool (inject_Z 10000000) (Qred (X # Z.to_pos P)) = true).
    { apply Qle_bool_iff. rewrite Qred_correct.
      unfold Qle, inject_Z. cbn [Qnum Qden].
      rewrite Z2Pos.id by exact HP. lia. }
    congruence.
Qed.

(** [float] rounds below [1e7] exactly the numbers below [1e7 - 2^-30], the
    middle between [1e7] and the float before it. *)
Lemma binary64_below_1e7 q :
  below_1e7 (binary64 q) = None
  <-> (10000000 * 2 ^ 30 - 1) * Zpos (Qden q) <= Qnum q * 2 ^ 30.
Proof.
  unfold binary64.
  set (n := Qnum q). set (d := Zpos (Qden q)).
  assert (Hd : 0 < d) by (subst d; lia).
  change (2 ^ 30) with 1073741824.
  destruct (Z.leb_spec n 0) as [Hn | Hn].
  - split; [discriminate | intros H; exfalso; nia].
  - destruct (floor_log2_spec Hn Hd) as [Lo Up]. cbn zeta in Lo, Up.
    set (el := floor_log2 n d) in *.
    set (e := Z.max (el - 52) (-1074)).
    set (m := round_half_even (n * pow2_down e) (d * pow2_up e)).
    destruct (Z.lt_trichotomy el 23) as [C | [C | C]].
    + (* below 2^23 *)
      assert (He : e <= -30) by (subst e; lia).
      assert (He' : -1074 <= e) by (subst e; lia).
      assert (N23 : n < 8388608 * d).
      { destruct (Z.le_gt_cases 0 (el + 1)) as [K | K].
        - rewrite pow2_down_nonneg, pow2_up_nonneg in Up by lia.
          assert (2 ^ (el + 1) <= 2 ^ 23) by (apply Z.pow_le_mono_r; lia).
          change (2 ^ 23) with 8388608 in *. nia.
        - rewrite pow2_down_neg, pow2_up_neg in Up by lia.
          assert (0 < 2 ^ (- (el + 1))) by (apply Z.pow_pos_nonneg; lia).
          nia. }
      assert (Hm : m <= 2 ^ 53).
      { subst m. rewrite pow2_up_neg, pow2_down_neg by lia.
        rewrite Z.mul_1_r.
        assert (B := @round_half_even_bounds (n * 2 ^ (- e)) d Hd).
        assert (Q : n * 2 ^ (- e) / d < 2 ^ 53); [|lia].
        apply Z.div_lt_upper_bound; [exact Hd|].
        assert (Pe : 0 < 2 ^ (- e)) by (apply Z.pow_pos_nonneg; lia).
        destruct (Z.le_gt_cases 0 (el + 1)) as [K | K].
        - rewrite pow2_down_nonneg, pow2_up_nonneg in Up by lia.
          assert (E : 2 ^ (el + 1) * 2 ^ (- e) <= 2 ^ 53).
          { rewrite <- Z.pow_add_r by lia. apply Z.pow_le_mono_r; lia. }
          assert (0 < 2 ^ (el + 1)) by (apply Z.pow_pos_nonneg; lia).
          nia.
        - rewrite pow2_down_neg, pow2_up_neg in Up by lia.
          assert (E : 2 ^ (- e) <= 2 ^ 53 * 2 ^ (- (el + 1))).
          { rewrite <- Z.pow_add_r by lia. apply Z.pow_le_mono_r; lia. }
          assert (0 < 2 ^ (- (el + 1))) by (apply Z.pow_pos_nonneg; lia).
          nia. }
      rewrite (pow2_up_neg (e := e)) by lia. rewrite Z.mul_1_r.
      assert (P30 : 2 ^ 30 <= pow2_down e).
      { rewrite pow2_down_neg by lia. apply Z.pow_le_mono_r; lia. }
      change (2 ^ 53) with 9007199254740992 in Hm.
      change (2 ^ 30) with 1073741824 in P30.
      destruct (Z.leb_spec (2 ^ 1024) m) as [O | O].
      { exfalso. assert (2 ^ 53 <= 2 ^ 1024) by (apply Z.pow_le_mono_r; lia).
        change (2 ^ 53) with 9007199254740992 in *. lia. }
      rewrite below_finite by lia.
      split; intros; exfalso; nia.
    + (* between 2^23 and 2^24 *)
      assert (He : e = -29) by (subst e; lia).
      rewrite C in Up. change (23 + 1) with 24 in Up.
      rewrite pow2_down_nonneg, pow2_up_nonneg in Up by lia.
      change (2 ^ 24) with 16777216 in Up.
      subst m. rewrite He.
      change (pow2_up (-29)) with 1. change (pow2_down (-29)) with 536870912.
      rewrite !Z.mul_1_r.
      set (m := round_half_even (n * 536870912) d).
      assert (B := @round_half_even_bounds (n * 536870912) d Hd). fold m in B.
      assert (Q : n * 536870912 / d < 9007199254740992).
      { apply Z.div_lt_upper_bound; [exact Hd | nia]. }
      destruct (Z.leb_spec (2 ^ 1024) m) as [O | O].
      { exfalso. assert (2 ^ 53 <= 2 ^ 1024) by (apply Z.pow_le_mono_r; lia).
        change (2 ^ 53) with 9007199254740992 in *. lia. }
      change 536870912%positive with (Z.to_pos 536870912).
      rewrite below_finite by lia.
      assert (R := @round_half_even_below (n * 536870912) d
                     (10000000 * 536870912) Hd eq_refl).
      fold m in R. lia.
    + (* from 2^24 on *)
      assert (He : e = el - 52) by (subst e; lia).
      rewrite pow2_down_nonneg, pow2_up_nonneg in Lo by lia.
      assert (P24 : 2 ^ 24 <= 2 ^ el) by (apply Z.pow_le_mono_r; lia).
      change (2 ^ 24) with 16777216 in P24.
      split; [intros _; nia | intros _].
      destruct (Z.leb_spec (2 ^ 1024) (m * pow2_up e)); [reflexivity|].
      assert (Pd : 0 < pow2_down e).
      { unfold pow2_down. apply Z.pow_pos_nonneg; lia. }
      assert (Pu : 0 < pow2_up e).
      { unfold pow2_up. apply Z.pow_pos_nonneg; lia. }
      apply below_finite; [exact Pd|].
      assert (B := @round_half_even_bounds (n * pow2_down e) (d * pow2_up e)
                     ltac:(nia)).
      fold m in B.
      assert (Q : 2 ^ 52 <= n * pow2_down e / (d * pow2_up e)).
      { apply Z.div_le_lower_bound; [nia|].
        destruct (Z.le_gt_cases 0 e) as [K | K].
        - rewrite pow2_down_nonneg, pow2_up_nonneg by lia.
          assert (E : 2 ^ el = 2 ^ 52 * 2 ^ e).
          { rewrite <- Z.pow_add_r by lia. f_equal. lia. }
          nia.
        - rewrite pow2_down_neg, pow2_up_neg by lia.
          assert (E : 2 ^ el * 2 ^ (- e) = 2 ^ 52).
          { rewrite <- Z.pow_add_r by lia. f_equal. lia. }
          nia. }
      change (2 ^ 52) with 4503599627370496 in Q.
      destruct (Z.le_gt_cases 0 e) as [K | K].
      * rewrite pow2_down_nonneg, pow2_up_nonneg by lia.
        assert (0 < 2 ^ e) by (apply Z.pow_pos_nonneg; lia).
        nia.
      * rewrite pow2_down_neg, pow2_up_neg by lia.
        assert (2 ^ (- e) <= 2 ^ 28) by (apply Z.pow_le_mono_r; lia).
        change (2 ^ 28) with 268435456 in *. nia.
Qed.

End FloatFacts.

(** * Further properties

    Properties of the same code beyond the ten claims. *)

(** ** Segmentation: the loop invariant *)

Section SegmenterInvariants.
Import Segmenter SegInv.

Variable pages : list Page.

Lemma kept_in_pages p l :
  In p pages -> In l (kept_lines p) -> In l (flat_map kept_lines pages).
Proof. intros Hp Hl. apply in_flat_map. eauto. Qed.

Lemma close_good s :
  inv pages s -> inside_shipment s = true ->
  Forall (good_block pages) (blocks (close_block s)).
Proof.
  intros (Hb & Hin & _) Hi. unfold close_block. cbn [blocks].
  apply Forall_app. split; [exact Hb|].
  constructor; [|constructor].
  exists (current_lines s). cbn [b_text b_page_num]. auto.
Qed.

Lemma line_step_inv p s line :
  In p pages -> In line (stripped_lines (text p)) ->
  inv pages s -> inv pages (line_step (page_num p) s line).
Proof.
  intros Hp Hl Hinv. unfold line_step.
  destruct (is_header line || is_footer line) eqn:Hhf; [exact Hinv|].
  assert (Hk : In line (kept_lines p)).
  { unfold kept_lines. apply filter_In. rewrite Hhf. auto. }
  destruct Hinv as (Hb & Hin & Hout).
  destruct (has_tracking line) eqn:Ht.
  - cbn [inside_shipment blocks current_lines current_page_start].
    destruct (inside_shipment s) eqn:Hi.
    + specialize (Hin eq_refl).
      destruct (current_lines s) as [|t more] eqn:Hc; [destruct Hin|].
      cbn [andb nonempty]. 
      split; [|split].
      * apply close_good; [|exact Hi]. split; [exact Hb|]. split.
        -- intros _. rewrite Hc. exact Hin.
        -- congruence.
      * intros _. cbn [close_block current_lines app block_lines_ok].
        repeat split; eauto.
      * discriminate.
    + cbn [andb]. rewrite (Hout eq_refl).
      split; [exact Hb|]. split; [|discriminate].
      intros _. cbn [app block_lines_ok]. repeat split; eauto.
  - destruct (inside_shipment s) eqn:Hi.
    + cbn [inside_shipment blocks current_lines current_page_start].
      split; [exact Hb|]. split; [|discriminate].
      intros _. specialize (Hin eq_refl).
      destruct (current_lines s) as [|t more]; [destruct Hin|].
      cbn [app block_lines_ok] in *.
      destruct Hin as (H1 & H2 & H3). repeat split; auto.
      apply Forall_app. split; [exact H3|].
      constructor; [|constructor]. split; [|exact Ht].
      eapply kept_in_pages; eauto.
    + repeat split; auto. congruence.
Qed.

Lemma line_step_started p s line :
  inv pages s ->
  started (line_step p s line)
  = started s
    + length (filter has_tracking
                (filter (fun l => negb (is_header l || is_footer l)) [line])).
Proof.
  intros (_ & Hin & _). unfold line_step. cbn [filter].
  destruct (is_header line || is_footer line); cbn [negb filter length];
    [lia|].
  destruct (has_tracking line) eqn:Ht; cbn [length].
  - destruct (inside_shipment s) eqn:Hi.
    + specialize (Hin eq_refl).
      destruct (current_lines s) as [|t more]; [destruct Hin|].
      unfold started. cbn. rewrite Hi, length_app. cbn. lia.
    + unfold started. cbn. rewrite Hi. lia.
  - unfold started. destruct (inside_shipment s) eqn:Hi; cbn; rewrite ?Hi; lia.
Qed.

Lemma lines_inv p : forall ls s,
  In p pages -> incl ls (stripped_lines (text p)) ->
  inv pages s ->
  inv pages (fold_left (line_step (page_num p)) ls s)
  /\ started (fold_left (line_step (page_num p)) ls s)
     = started s
       + length (filter has_tracking
                   (filter (fun l => negb (is_header l || is_footer l)) ls)).
Proof.
  induction ls as [|l ls IH]; intros s Hp Hls Hinv.
  - cbn. split; [exact Hinv | lia].
  - cbn [fold_left].
    assert (Hl : In l (stripped_lines (text p))) by (apply Hls; left; auto).
    assert (H1 := @line_step_inv p s l Hp Hl Hinv).
    destruct (IH _ Hp (fun x Hx => Hls x (or_intror Hx)) H1) as (H2 & H3).
    split; [exact H2|]. rewrite H3, (@line_step_started (page_num p) s l Hinv).
    cbn [filter]. destruct (negb _); cbn [filter];
      [destruct (has_tracking l)|]; cbn [length]; lia.
Qed.

Lemma page_break_inv later s :
  inv pages s ->
  inv pages (page_break later s)
  /\ started (page_break later s) = started s.
Proof.
  intros Hinv. unfold page_break.
  destruct (inside_shipment s) eqn:Hi; [|auto].
  destruct later as [|next later']; [auto|].
  destruct (existsb has_tracking (stripped_lines (text next))); [|auto].
  split.
  - split; [apply close_good; assumption|].
    cbn [inside_shipment current_lines]. split; [discriminate | reflexivity].
  - unfold started, close_block. cbn. rewrite Hi, length_app. cbn. lia.
Qed.

Lemma pages_loop_inv : forall ps s,
  incl ps pages -> inv pages s ->
  inv pages (pages_loop ps s)
  /\ started (pages_loop ps s)
     = started s + length (filter has_tracking (flat_map kept_lines ps)).
Proof.
  induction ps as [|p later IH]; intros s Hps Hinv.
  - cbn. split; [exact Hinv | lia].
  - cbn [pages_loop flat_map].
    assert (Hp : In p pages) by (apply Hps; left; auto).
    destruct (@lines_inv p (stripped_lines (text p)) s Hp (incl_refl _) Hinv)
      as (H1 & H2).
    destruct (@page_break_inv later _ H1) as (H3 & H4).
    destruct (IH _ (fun x Hx => Hps x (or_intror Hx)) H3) as (H5 & H6).
    split; [exact H5|].
    rewrite H6, H4, H2, filter_app, length_app. unfold kept_lines. lia.
Qed.

Lemma finish_inv s :
  inv pages s ->
  Forall (good_block pages) (finish s) /\ length (finish s) = started s.
Proof.
  intros Hinv. unfold finish, started.
  destruct (inside_shipment s) eqn:Hi.
  - destruct Hinv as (Hb & Hin & Hout). specialize (Hin Hi).
    destruct (current_lines s) as [|t more] eqn:Hc; [destruct Hin|].
    cbn [andb nonempty]. split.
    + apply close_good; [|exact Hi]. split; [exact Hb|]. split.
      * intros _. rewrite Hc. exact Hin.
      * congruence.
    + unfold close_block. cbn. rewrite length_app. cbn. lia.
  - cbn [andb]. destruct Hinv as (Hb & _). split; [exact Hb | lia].
Qed.

Lemma initial_inv : inv pages (mkstate [] [] None false).
Proof.
  split; [constructor|]. cbn. split; [discriminate | reflexivity].
Qed.

End SegmenterInvariants.

(** X1: [segment] returns exactly one block for each line with a tracking
    number that the header and footer filter lets through, whatever the
    pages; in particular no block when there is no such line. *)
Theorem segment_block_count (pages : list Page) :
  length (Segmenter.segment pages)
  = length (filter Segmenter.has_tracking
              (flat_map Segmenter.kept_lines pages)).
Proof.
  destruct (@pages_loop_inv pages pages _ (incl_refl pages)
              (initial_inv pages)) as (Hinv & Hcount).
  destruct (finish_inv Hinv) as (_ & Hlen).
  unfold Segmenter.segment. rewrite Hlen, Hcount. reflexivity.
Qed.

(** X2: the text of every block of [segment] is the join of a tracking line
    kept on the page whose number the block carries, followed by kept lines
    of the pages that hold no tracking number: no block is empty, none holds
    a header or footer line, none holds two tracking lines. *)
Theorem segment_blocks_well_formed (pages : list Page) :
  Forall (SegInv.good_block pages) (Segmenter.segment pages).
Proof.
  destruct (@pages_loop_inv pages pages _ (incl_refl pages)
              (initial_inv pages)) as (Hinv & _).
  destruct (finish_inv Hinv) as (Hgood & _).
  exact Hgood.
Qed.

(** ** Identifiers: the shape of the result *)

Section IdentifierShape.
Import IdentifierExtractor.

Lemma iter_cls_len neg items n : forall s s',
  iter (run false (Cls neg items)) n s s' ->
  exists w, rest s = w ++ rest s' /\ length w = n
            /\ forallb (cls_ok false neg items) w = true.
Proof.
  induction n as [|n IH]; intros s s' H; cbn [iter] in H.
  - subst. exists []. auto.
  - destruct H as (s2 & H1 & H2). cbn [run] in H1.
    destruct H1 as (x & t & E & O & ->).
    destruct (IH _ _ H2) as (w & E' & Hl & Hw). cbn [adv rest] in E'.
    exists (x :: w). rewrite E, E'. cbn [length forallb]. rewrite O, Hw, Hl.
    auto.
Qed.

Lemma upper_or_digit_generic w :
  forallb (cls_ok false false [CRange "0" "9"; CRange "A" "Z"]) w = true ->
  forallb generic_char w = true.
Proof.
  assert (H : forall x, implb (cls_ok false false
                                 [CRange "0" "9"; CRange "A" "Z"] x)
                              (generic_char x) = true)
    by by_cases_on_char.
  induction w as [|x w IH]; cbn [forallb]; [auto|].
  intros Hw. apply andb_true_iff in Hw. destruct Hw as [Hx Hw].
  specialize (H x). rewrite Hx in H. cbn [implb] in H. rewrite H, IH; auto.
Qed.

Lemma strict_shape p s e :
  match_at false RE_UPS_STRICT p s = Some e ->
  exists w, m_text (mobj_of s e) = "1"%char :: "Z"%char :: w
            /\ 8 <= length w <= 20 /\ forallb generic_char w = true.
Proof.
  intros H. apply match_at_sound in H.
  unfold RE_UPS_STRICT, upper_or_digit in H. cbn -[at_boundary] in H.
  break_run; subst; cbn [rest adv prev caps] in *; subst.
  match goal with H : iter _ _ _ _ |- _ =>
    apply iter_cls_len in H; destruct H as (w & E & Hl & Hw) end.
  cbn [rest adv] in E. subst.
  repeat match goal with H : lit_ok false _ _ = true |- _ =>
    unfold lit_ok, ascii_eqb in H; apply Ascii.eqb_eq in H; subst end.
  unfold mobj_of. cbn [m_text rest].
  match goal with |- context [firstn _ (?a :: ?b :: ?w ++ ?t)] =>
    change (a :: b :: w ++ t) with ((a :: b :: w) ++ t) end.
  rewrite firstn_consumed. exists w. split; [reflexivity|].
  split; [lia|]. apply upper_or_digit_generic. exact Hw.
Qed.

Lemma loose_shape p s e :
  match_at false RE_UPS_LOOSE p s = Some e ->
  exists x z w, m_text (mobj_of s e) = x :: z :: w
    /\ (x = "1" \/ x = "I" \/ x = "i" \/ x = "l")%char
    /\ (z = "Z" \/ z = "z")%char
    /\ 8 <= length w <= 20 /\ forallb generic_char w = true.
Proof.
  intros H. apply match_at_sound in H.
  unfold RE_UPS_LOOSE, upper_or_digit in H.
  cbn -[at_boundary cls_ok] in H.
  break_run; subst; cbn [rest adv prev caps] in *; subst.
  match goal with H : iter _ _ _ _ |- _ =>
    apply iter_cls_len in H; destruct H as (w & E & Hl & Hw) end.
  cbn [rest adv] in E. subst.
  unfold mobj_of. cbn [m_text rest].
  match goal with |- context [firstn _ (?a :: ?b :: ?w ++ ?t)] =>
    change (a :: b :: w ++ t) with ((a :: b :: w) ++ t) end.
  rewrite firstn_consumed. do 3 eexists. split; [reflexivity|].
  repeat match goal with
  | H : cls_ok false false _ ?x = true |- _ =>
      unfold cls_ok, items_have in H; cbn [existsb citem_has xorb] in H;
      repeat (apply orb_true_iff in H; destruct H as [H | H]);
      try discriminate H;
      unfold ascii_eqb in H; apply Ascii.eqb_eq in H; subst x
  end;
  (split; [auto|]; split; [auto|]; split; [lia|];
   apply upper_or_digit_generic; exact Hw).
Qed.

Lemma generic_shape p s e :
  match_at false RE_GENERIC p s = Some e ->
  8 <= length (m_text (mobj_of s e)) <= 25
  /\ forallb generic_char (m_text (mobj_of s e)) = true.
Proof.
  intros H. split; [|eapply generic_chars; eauto].
  apply match_at_sound in H.
  unfold RE_GENERIC in H. cbn -[at_boundary cls_ok] in H.
  break_run; subst; cbn [rest adv prev caps] in *; subst.
  match goal with H : iter _ _ _ _ |- _ =>
    apply iter_cls_len in H; destruct H as (w & E & Hl & Hw) end.
  cbn [rest adv] in E. subst.
  unfold mobj_of. cbn [m_text rest]. rewrite firstn_consumed. lia.
Qed.

Lemma clean_id_loose x z w :
  (x = "1" \/ x = "I" \/ x = "i" \/ x = "l")%char ->
  (z = "Z" \/ z = "z")%char ->
  forallb generic_char w = true ->
  _clean_id (x :: z :: w) = "1"%char :: "Z"%char :: w.
Proof.
  intros Hx Hz Hw. unfold _clean_id.
  assert (E : fix_leading (filter is_alnum (x :: z :: w))
              = "1"%char :: z :: w).
  { cbn [filter]. rewrite (generic_filter _ Hw).
    destruct Hx as [-> | [-> | [-> | ->]]]; destruct Hz as [-> | ->];
      reflexivity. }
  rewrite E. unfold upper. cbn [flat_map].
  fold (upper w). rewrite (generic_upper _ Hw).
  destruct Hz as [-> | ->]; reflexivity.
Qed.

Lemma clean_id_shape w :
  forallb generic_char w = true ->
  length (_clean_id w) = length w
  /\ forallb generic_char (_clean_id w) = true.
Proof.
  intros Hw. unfold _clean_id. rewrite (generic_filter _ Hw).
  destruct w as [|x w]; [auto|].
  cbn [forallb] in Hw. apply andb_true_iff in Hw. destruct Hw as [Hx Hw].
  unfold fix_leading.
  destruct (ascii_eqb x "I" || ascii_eqb x "i" || ascii_eqb x "l").
  - unfold upper. cbn [flat_map]. fold (upper w).
    rewrite (generic_upper _ Hw). cbn. rewrite Hw. auto.
  - rewrite generic_upper; cbn [forallb]; rewrite ?Hx, ?Hw; auto.
Qed.

Lemma strict_cleaned text x :
  In x (findall false RE_UPS_STRICT text) ->
  exists w, _clean_id x = "1"%char :: "Z"%char :: w
            /\ 8 <= length w <= 20 /\ forallb generic_char w = true.
Proof.
  intros H. apply findall_sound in H. destruct H as (p & s' & e & Hm & ->).
  destruct (strict_shape _ _ Hm) as (w & -> & Hl & Hw).
  exists w. rewrite clean_id_loose; auto.
Qed.

Lemma loose_cleaned text x :
  In x (findall false RE_UPS_LOOSE text) ->
  exists w, _clean_id x = "1"%char :: "Z"%char :: w
            /\ 8 <= length w <= 20 /\ forallb generic_char w = true.
Proof.
  intros H. apply findall_sound in H. destruct H as (p & s' & e & Hm & ->).
  destruct (loose_shape _ _ Hm) as (x & z & w & -> & Hx & Hz & Hl & Hw).
  exists w. rewrite clean_id_loose; auto.
Qed.

Lemma generic_cleaned text x :
  In x (filter _is_plausible (findall false RE_GENERIC text)) ->
  8 <= length (_clean_id x) <= 25
  /\ forallb generic_char (_clean_id x) = true.
Proof.
  intros H. apply filter_In in H. destruct H as [H _].
  apply findall_sound in H. destruct H as (p & s' & e & Hm & ->).
  destruct (generic_shape _ _ Hm) as (Hl & Hw).
  destruct (clean_id_shape _ Hw) as (El & Ew). rewrite El. auto.
Qed.

Lemma loose_tier_shape lines r :
  loose_tier lines = Some r ->
  exists w, r = "1"%char :: "Z"%char :: w
            /\ 8 <= length w <= 20 /\ forallb generic_char w = true.
Proof.
  induction lines as [|line lines IH]; cbn [loose_tier]; [discriminate|].
  destruct (findall false RE_UPS_LOOSE (_fix_ocr line)) as [|x l] eqn:E;
    [exact IH|].
  cbn [first_cleaned]. intros [= <-].
  apply (@loose_cleaned (_fix_ocr line)). rewrite E. left. reflexivity.
Qed.

Lemma loose_tier_fires lines :
  (exists line, In line lines
                /\ findall false RE_UPS_LOOSE (_fix_ocr line) <> []) ->
  exists r, loose_tier lines = Some r.
Proof.
  induction lines as [|line lines IH]; intros (l0 & Hin & Hne).
  - destruct Hin.
  - cbn [loose_tier].
    destruct (findall false RE_UPS_LOOSE (_fix_ocr line)) as [|x l] eqn:E.
    + apply IH. destruct Hin as [<- | Hin]; [congruence|]. eauto.
    + cbn [first_cleaned]. eauto.
Qed.

Lemma keyword_tier_shape lines r :
  keyword_tier lines = Some r ->
  8 <= length r <= 25 /\ forallb generic_char r = true.
Proof.
  induction lines as [|line lines IH]; cbn [keyword_tier]; [discriminate|].
  destruct (existsb (fun k => contains k (lower line)) KEYWORDS);
    [|exact IH].
  destruct (filter _is_plausible (findall false RE_GENERIC (_fix_ocr line)))
    as [|x l] eqn:E; [exact IH|].
  cbn [first_cleaned]. intros [= <-].
  apply (@generic_cleaned (_fix_ocr line)). rewrite E. left. reflexivity.
Qed.

Lemma ups_shape_generic w :
  8 <= length w <= 20 -> forallb generic_char w = true ->
  8 <= length ("1"%char :: "Z"%char :: w) <= 25
  /\ forallb generic_char ("1"%char :: "Z"%char :: w) = true.
Proof.
  intros Hl Hw. cbn [length forallb]. rewrite Hw. split; [lia | reflexivity].
Qed.

End IdentifierShape.

(** X3: an identifier returned by [extract] has 8 to 25 characters, all of them
    digits or capital ASCII letters. *)
Theorem identifier_shape (block_text r : str) :
  IdentifierExtractor.extract block_text = Some r ->
  8 <= length r <= 25 /\ forallb generic_char r = true.
Proof.
  unfold IdentifierExtractor.extract.
  destruct (findall false IdentifierExtractor.RE_UPS_STRICT block_text)
    as [|x l] eqn:E.
  - destruct (IdentifierExtractor.loose_tier (split_on "010" block_text))
      as [r'|] eqn:E2.
    { intros [= <-]. destruct (loose_tier_shape _ E2) as (w & -> & Hl & Hw).
      apply ups_shape_generic; assumption. }
    destruct (IdentifierExtractor.keyword_tier (split_on "010" block_text))
      as [r'|] eqn:E3.
    { intros [= <-]. exact (keyword_tier_shape _ E3). }
    intros H. apply first_cleaned_in in H. destruct H as (x & Hx & ->).
    exact (generic_cleaned _ _ Hx).
  - cbn [IdentifierExtractor.first_cleaned]. intros [= <-].
    destruct (@strict_cleaned block_text x) as (w & -> & Hl & Hw).
    { rewrite E. left. reflexivity. }
    apply ups_shape_generic; assumption.
Qed.

Lemma identifier_shape_witness :
  8 <= length (L "1Z12345E0205271688") <= 25
  /\ forallb generic_char (L "1Z12345E0205271688") = true.
Proof.
  apply (@identifier_shape (L "Sendung lZ12345E0205271688 Express")).
  vm_compute. reflexivity.
Defined.

(** X4: when the strict pattern matches the block, or the loose pattern matches
    a line after OCR repair, [extract] returns "1Z" followed by 8 to 20
    digits or capitals: the distorted prefixes IZ, lZ, 1z, iZ are
    normalised. *)
Theorem ups_identifier_normalised (block_text : str) :
  findall false IdentifierExtractor.RE_UPS_STRICT block_text <> []
  \/ (exists line,
        In line (split_on "010" block_text)
        /\ findall false IdentifierExtractor.RE_UPS_LOOSE
             (IdentifierExtractor._fix_ocr line) <> []) ->
  exists w,
    IdentifierExtractor.extract block_text
    = Some ("1"%char :: "Z"%char :: w)
    /\ 8 <= length w <= 20 /\ forallb generic_char w = true.
Proof.
  intros H. unfold IdentifierExtractor.extract.
  destruct (findall false IdentifierExtractor.RE_UPS_STRICT block_text)
    as [|x l] eqn:E.
  - destruct H as [H | H]; [congruence|].
    destruct (@loose_tier_fires _ H) as (r & Hr). rewrite Hr.
    destruct (loose_tier_shape _ Hr) as (w & -> & Hl & Hw). eauto.
  - cbn [IdentifierExtractor.first_cleaned].
    destruct (@strict_cleaned block_text x) as (w & -> & Hl & Hw).
    { rewrite E. left. reflexivity. }
    eauto.
Qed.

Lemma ups_identifier_normalised_witness :
  exists w,
    IdentifierExtractor.extract (L "Paket iz12345E0205271688 2 9,5")
    = Some ("1"%char :: "Z"%char :: w)
    /\ 8 <= length w <= 20 /\ forallb generic_char w = true.
Proof.
  apply ups_identifier_normalised. right.
  exists (L "Paket iz12345E0205271688 2 9,5").
  split; [left; reflexivity | vm_compute; discriminate].
Defined.

(** ** Dates: month names and years *)

Section MonthFacts.
Import DateExtractor.

Lemma lookup_some_in k m v :
  lookup k m = Some v -> In (k, v) m.
Proof.
  induction m as [|[k' v'] m IH]; cbn [lookup]; [discriminate|].
  destruct (str_eqb k k') eqn:E.
  - intros [= ->]. apply str_eqb_eq in E. subst. left. reflexivity.
  - intros H. right. auto.
Qed.

Lemma lookup_in_keys k m :
  In k (map fst m) -> exists v, lookup k m = Some v.
Proof.
  induction m as [|[k' v'] m IH]; cbn [map lookup fst]; [intros []|].
  destruct (str_eqb k k') eqn:E; [eauto|].
  intros [-> | H]; [|auto].
  rewrite str_eqb_refl in E. discriminate.
Qed.

Lemma firstn_2_of_3 (a b : str) :
  firstn 3 a = firstn 3 b -> firstn 2 a = firstn 2 b.
Proof.
  intros H.
  replace (firstn 2 a) with (firstn 2 (firstn 3 a))
    by (rewrite firstn_firstn; reflexivity).
  replace (firstn 2 b) with (firstn 2 (firstn 3 b))
    by (rewrite firstn_firstn; reflexivity).
  rewrite H. reflexivity.
Qed.

End MonthFacts.

(** X5: [_normalize_month] returns a key of [MONTH_MAP], so that
    [MONTH_MAP[month_key]] never fails, and the key agrees with the cleaned
    text on its first two characters; it returns nothing exactly when no key
    does. *)
Theorem normalize_month_returns_key (raw : str) :
  let r := replace_c "0" (L "o") (replace_c "." [] (lower raw)) in
  match DateExtractor._normalize_month raw with
  | Some key =>
      (exists name, DateExtractor.lookup key DateExtractor.MONTH_MAP
                    = Some name)
      /\ firstn 2 key = firstn 2 r
  | None =>
      forall key name, In (key, name) DateExtractor.MONTH_MAP ->
                       firstn 2 key <> firstn 2 r
  end.
Proof.
  intros r. unfold DateExtractor._normalize_month. fold r.
  destruct (DateExtractor.lookup r DateExtractor.MONTH_MAP) as [v|] eqn:E.
  - cbn [is_some]. split; [eauto | reflexivity].
  - cbn [is_some].
    destruct (find (fun key => str_eqb (firstn 3 r) (firstn 3 key))
                   (map fst DateExtractor.MONTH_MAP)) as [k|] eqn:F3.
    + apply find_some in F3. destruct F3 as [Hin Heq].
      apply str_eqb_eq in Heq. split.
      * apply lookup_in_keys. exact Hin.
      * symmetry. apply firstn_2_of_3. exact Heq.
    + destruct (find (fun key => str_eqb (firstn 2 r) (firstn 2 key))
                     (map fst DateExtractor.MONTH_MAP)) as [k|] eqn:F2.
      * apply find_some in F2. destruct F2 as [Hin Heq].
        apply str_eqb_eq in Heq. split.
        -- apply lookup_in_keys. exact Hin.
        -- symmetry. exact Heq.
      * intros key name Hin Heq.
        assert (Hk : In key (map fst DateExtractor.MONTH_MAP)).
        { apply in_map_iff. exists (key, name). auto. }
        assert (H := find_none _ _ F2 key Hk). cbn beta in H.
        rewrite Heq, str_eqb_refl in H. discriminate.
Qed.

Section YearFacts.
Import Orchestrator.

Lemma digit_value_bound (x : ascii) :
  implb (cls_ok false false [CDigit] x) (nat_of_ascii x - 48 <=? 9) = true.
Proof. revert x. by_cases_on_char. Qed.

Lemma year_group text y :
  opt_bind (re_search false YEAR_RE text) (group 1) = Some y ->
  2000 <= digits_nat y <= 2099.
Proof.
  destruct (re_search false YEAR_RE text) as [mo|] eqn:E; [|discriminate].
  cbn [opt_bind]. intros G.
  apply search_from_sound in E.
  destruct E as (pre & p & s & e & _ & H & ->).
  unfold group, mobj_of in G. cbn [m_caps] in G.
  unfold YEAR_RE, exactly, digit in H. cbn -[at_boundary cls_ok] in H.
  break_run; subst; cbn [rest adv prev caps] in *; subst.
  match goal with
  | H : iter _ ?n _ _ |- _ => assert (n = 2) by lia; subst n; cbn in H
  end.
  break_run; subst; cbn [rest adv prev caps] in *; subst;
    cbn [rest adv prev caps set_cap assoc Nat.eqb] in *.
  repeat match goal with H : lit_ok false _ _ = true |- _ =>
    unfold lit_ok, ascii_eqb in H; apply Ascii.eqb_eq in H; subst end.
  match goal with
  | H : Some (firstn _ (?a :: ?b :: ?c :: ?d :: ?t)) = Some _ |- _ =>
      change (a :: b :: c :: d :: t) with ([a; b; c; d] ++ t) in H;
      rewrite firstn_consumed in H; injection H as <-
  end.
  repeat match goal with
  | H : cls_ok false false [CDigit] ?x = true |- _ =>
      let N := fresh in
      assert (N := digit_value_bound x); rewrite H in N; cbn [implb] in N;
      apply Nat.leb_le in N; clear H
  end.
  unfold digits_nat. cbn [fold_left].
  change (nat_of_ascii "2" - 48) with 2. change (nat_of_ascii "0" - 48) with 0.
  lia.
Qed.

End YearFacts.

(** X6: the invoice year that [_infer_invoice_year] reads off the pages, if
    any, lies between 2000 and 2099. *)
Theorem infer_invoice_year_range (pages : list Page) (y : nat) :
  Orchestrator._infer_invoice_year pages = Some y -> 2000 <= y <= 2099.
Proof.
  induction pages as [|page more IH]; cbn [Orchestrator._infer_invoice_year];
    [discriminate|].
  destruct (opt_bind (re_search false Orchestrator.YEAR_RE (text page))
                     (group 1)) as [ys|] eqn:E; [|exact IH].
  intros [= <-]. exact (year_group _ E).
Qed.

Lemma infer_invoice_year_range_witness : 2000 <= 2025 <= 2099.
Proof.
  apply (@infer_invoice_year_range
           [pg 1 "UPS Rechnung"; pg 2 "Rechnungsdatum 27.11.2025"]).
  vm_compute. reflexivity.
Defined.

Section FixYear.
Import DateExtractor.

Lemma digit_char_value k : nat_of_ascii (digit_char k) - 48 = k mod 10.
Proof.
  unfold digit_char.
  assert (k mod 10 < 10) by (apply Nat.mod_upper_bound; discriminate).
  rewrite nat_ascii_embedding by lia. lia.
Qed.

Lemma dec_aux_four fuel n acc :
  4 <= fuel -> 1000 <= n < 100 * 100 ->
  dec_aux fuel n acc
  = digit_char (n / 1000) :: digit_char (n / 100) :: digit_char (n / 10)
      :: digit_char n :: acc.
Proof.
  intros Hf Hn.
  destruct fuel as [|[|[|[|f]]]]; try lia.
  assert (E1 : n / 10 / 10 = n / 100) by (rewrite Nat.Div0.div_div; reflexivity).
  assert (E2 : n / 100 / 10 = n / 1000) by (rewrite Nat.Div0.div_div; reflexivity).
  assert (100 <= n / 10) by (apply Nat.div_le_lower_bound; lia).
  assert (10 <= n / 100) by (apply Nat.div_le_lower_bound; lia).
  assert (n / 1000 < 10) by (apply Nat.Div0.div_lt_upper_bound; lia).
  cbn [dec_aux].
  destruct (Nat.ltb_spec n 10); [lia|].
  destruct (Nat.ltb_spec (n / 10) 10); [lia|].
  rewrite E1. destruct (Nat.ltb_spec (n / 100) 10); [lia|].
  rewrite E2. destruct (Nat.ltb_spec (n / 1000) 10); [|lia].
  reflexivity.
Qed.

Lemma dec_four n : 1000 <= n < 100 * 100 -> dec n = four_digits n.
Proof.
  intros Hn. unfold dec. rewrite dec_aux_four by lia.
  unfold four_digits, two_digits. cbn [app].
  rewrite Nat.Div0.div_div. reflexivity.
Qed.

Lemma zfill_two y : y < 100 -> zfill 2 y = two_digits y.
Proof.
  intros Hy.
  assert (H : forallb (fun y => str_eqb (zfill 2 y) (two_digits y))
                      (seq 0 100) = true) by (vm_compute; reflexivity).
  rewrite forallb_forall in H. apply str_eqb_eq, H, in_seq. lia.
Qed.

Lemma digits_nat_app a b :
  digits_nat (a ++ b)
  = fold_left (fun acc c => 10 * acc + (nat_of_ascii c - 48)) b
              (digits_nat a).
Proof. unfold digits_nat. apply fold_left_app. Qed.

Lemma century_year n y :
  1000 <= n < 100 * 100 -> y < 100 ->
  digits_nat (firstn 2 (dec n) ++ zfill 2 y) = 100 * (n / 100) + y.
Proof.
  intros Hn Hy. unfold dec. rewrite dec_aux_four by lia.
  rewrite zfill_two by assumption.
  cbn [firstn app]. unfold two_digits, digits_nat. cbn [fold_left].
  rewrite !digit_char_value.
  assert (E : n / 1000 = n / 100 / 10)
    by (rewrite Nat.Div0.div_div; reflexivity).
  rewrite E.
  assert (n / 100 < 100) by (apply Nat.Div0.div_lt_upper_bound; lia).
  assert (A := Nat.div_mod_eq (n / 100) 10).
  assert (B := Nat.div_mod_eq y 10).
  assert (n / 100 / 10 < 10) by (apply Nat.Div0.div_lt_upper_bound; lia).
  assert (y / 10 < 10) by (apply Nat.Div0.div_lt_upper_bound; lia).
  rewrite (Nat.mod_small (n / 100 / 10)) by assumption.
  rewrite (Nat.mod_small (y / 10)) by assumption.
  lia.
Qed.

End FixYear.

(** X7: [_fix_year] on a string of one to four digits, as the patterns
    pass it, whose number is below 100: with an invoice year of four digits
    it takes the century of the invoice year, as
    [int(str(invoice_year)[:2] + f"{y:02d}")] does; without one it adds
    2000. *)
Theorem fix_year_two_digits (ys : str) (invoice_year : option nat) :
  forallb is_digit ys = true -> 1 <= length ys <= 4 ->
  digits_nat ys < 100 ->
  match invoice_year with
  | Some n => 1000 <= n < 100 * 100
  | None => True
  end ->
  DateExtractor._fix_year ys invoice_year
  = Some (match invoice_year with
          | Some n => 100 * (n / 100) + digits_nat ys
          | None => 2000 + digits_nat ys
          end).
Proof.
  intros _ _ Hy Hn. unfold DateExtractor._fix_year.
  destruct (Nat.leb_spec 1900 (digits_nat ys)); [lia|].
  destruct (Nat.ltb_spec (digits_nat ys) 100); [|lia].
  destruct invoice_year as [n|]; [|reflexivity].
  destruct n as [|n']; [lia|]. cbn [DateExtractor.truthy_nat].
  rewrite century_year by assumption. reflexivity.
Qed.

Lemma fix_year_two_digits_witness :
  DateExtractor._fix_year (L "25") (Some 2025) = Some 2025
  /\ DateExtractor._fix_year (L "07") None = Some 2007.
Proof.
  split.
  - apply (@fix_year_two_digits (L "25") (Some 2025));
      vm_compute; try reflexivity; lia.
  - apply (@fix_year_two_digits (L "07") None);
      vm_compute; try reflexivity; try lia; exact I.
Defined.

(** ** Validator: cleaning twice *)

Lemma lstrip_split s :
  exists sp, s = sp ++ lstrip s /\ forallb is_space sp = true.
Proof.
  induction s as [|c t (sp & E & F)]; [exists []; auto|].
  cbn [lstrip]. destruct (is_space c) eqn:C.
  - exists (c :: sp). cbn [app forallb]. rewrite <- E, C, F. auto.
  - exists []. auto.
Qed.

Lemma lstrip_fixed s :
  match s with [] => True | c :: _ => is_space c = false end ->
  lstrip s = s.
Proof. destruct s as [|c t]; cbn [lstrip]; [auto|]. intros ->. reflexivity. Qed.

Lemma lstrip_idem s : lstrip (lstrip s) = lstrip s.
Proof.
  apply lstrip_fixed. destruct (lstrip s) as [|c t] eqn:E; [exact I|].
  exact (lstrip_head _ E).
Qed.

Lemma rstrip_idem s : rstrip (rstrip s) = rstrip s.
Proof. unfold rstrip. rewrite rev_involutive, lstrip_idem. reflexivity. Qed.

Lemma rstrip_prefix s : exists sp, s = rstrip s ++ sp.
Proof.
  destruct (lstrip_split (rev s)) as (sp & E & _).
  exists (rev sp). unfold rstrip. rewrite <- rev_app_distr, <- E.
  symmetry. apply rev_involutive.
Qed.

(** The result of [strip] neither starts nor ends with white space. *)
Lemma strip_head s c t : strip s = c :: t -> is_space c = false.
Proof.
  unfold strip. intros E.
  destruct (rstrip_prefix (lstrip s)) as (sp & H). rewrite E in H.
  cbn [app] in H. exact (lstrip_head _ H).
Qed.

Lemma strip_idem s : strip (strip s) = strip s.
Proof.
  unfold strip at 1. rewrite lstrip_fixed.
  - unfold strip. apply rstrip_idem.
  - destruct (strip s) as [|c t] eqn:E; [exact I|]. exact (strip_head _ E).
Qed.

Lemma clean_str_idem o :
  Validator._clean_str (Validator._clean_str o) = Validator._clean_str o.
Proof.
  destruct o as [v|]; [|reflexivity]. cbn [Validator._clean_str].
  destruct (strip v) as [|c t] eqn:E; [reflexivity|].
  cbn [Validator._clean_str]. rewrite <- E, strip_idem, E. reflexivity.
Qed.

Lemma upper_app a b : upper (a ++ b) = upper a ++ upper b.
Proof. unfold upper. apply flat_map_app. Qed.

Lemma upper_cons c t : upper (c :: t) = upper [c] ++ upper t.
Proof. exact (upper_app [c] t). Qed.

Lemma upper_char_cases (c : ascii) :
  (str_eqb (upper (upper [c])) (upper [c])
   && str_eqb (rev (upper [c])) (upper [c])
   && str_eqb (lstrip (upper [c]))
              (if is_space c then [] else upper [c])
   && nonempty (upper [c])) = true.
Proof. revert c. by_cases_on_char. Qed.

Lemma upper_idem s : upper (upper s) = upper s.
Proof.
  induction s as [|c t IH]; [reflexivity|].
  rewrite upper_cons, upper_app, IH.
  assert (A := upper_char_cases c).
  repeat (apply andb_true_iff in A; destruct A as [A ?]).
  apply str_eqb_eq in A. rewrite A. reflexivity.
Qed.

Lemma upper_rev s : upper (rev s) = rev (upper s).
Proof.
  induction s as [|c t IH]; [reflexivity|].
  cbn [rev]. rewrite upper_app, IH, (upper_cons c t), rev_app_distr.
  assert (A := upper_char_cases c).
  repeat (apply andb_true_iff in A; destruct A as [A ?]).
  match goal with H : str_eqb (rev _) _ = true |- _ =>
    apply str_eqb_eq in H; rewrite H end.
  reflexivity.
Qed.

Lemma lstrip_app_nonspace a b :
  lstrip a <> [] -> lstrip (a ++ b) = lstrip a ++ b.
Proof.
  induction a as [|c t IH]; cbn [lstrip app]; [congruence|].
  destruct (is_space c); auto.
Qed.

Lemma lstrip_app_space a b :
  lstrip a = [] -> lstrip (a ++ b) = lstrip b.
Proof.
  induction a as [|c t IH]; cbn [lstrip app]; [auto|].
  destruct (is_space c); [auto | discriminate].
Qed.

Lemma upper_lstrip s : lstrip (upper s) = upper (lstrip s).
Proof.
  induction s as [|c t IH]; [reflexivity|].
  rewrite upper_cons. cbn [lstrip].
  assert (A := upper_char_cases c).
  repeat (apply andb_true_iff in A; destruct A as [A ?]).
  match goal with H : str_eqb (lstrip _) _ = true |- _ =>
    apply str_eqb_eq in H; rename H into Hl end.
  destruct (is_space c).
  - rewrite lstrip_app_space by exact Hl. exact IH.
  - rewrite lstrip_app_nonspace, Hl.
    + symmetry. apply upper_cons.
    + rewrite Hl. destruct (upper [c]); [discriminate | discriminate].
Qed.

Lemma upper_strip s : strip (upper s) = upper (strip s).
Proof.
  unfold strip, rstrip.
  rewrite upper_lstrip, <- upper_rev, upper_lstrip, upper_rev. reflexivity.
Qed.

Lemma upper_strip_idem s :
  upper (strip (upper (strip s))) = upper (strip s).
Proof. rewrite upper_strip, upper_idem, strip_idem. reflexivity. Qed.

Section ValidatorTwice.
Import Validator.

Variable strptime_iso parse_dayfirst : str -> option Date.
Variable countries_get_alpha_2 : str -> bool.
Variable countries_lookup : str -> option str.

Hypothesis strptime_strftime :
  forall v dt, strptime_iso v = Some dt \/ parse_dayfirst v = Some dt ->
               strptime_iso (strftime_iso dt) = Some dt.
Hypothesis lookup_alpha_2 :
  forall c a, countries_lookup c = Some a ->
              a <> [] /\ upper (strip a) = a /\ countries_get_alpha_2 a = true.

Local Abbreviation clean_date := (_clean_date strptime_iso parse_dayfirst).
Local Abbreviation clean_country :=
  (_clean_country countries_get_alpha_2 countries_lookup).

Lemma truthy_strftime dt : truthy (Some (strftime_iso dt)) = true.
Proof. unfold strftime_iso. destruct (dec (d_year dt)); reflexivity. Qed.

Lemma clean_date_iso dt :
  strptime_iso (strftime_iso dt) = Some dt ->
  clean_date (Some (strftime_iso dt)) = Some (strftime_iso dt).
Proof.
  intros H. unfold _clean_date. rewrite truthy_strftime. cbn [negb].
  rewrite H. reflexivity.
Qed.

Lemma clean_date_some (v : str) :
  v <> [] ->
  clean_date (Some v)
  = match strptime_iso v with
    | Some dt => Some (strftime_iso dt)
    | None => option_map strftime_iso (parse_dayfirst v)
    end.
Proof.
  destruct v as [|x t]; [congruence|]. intros _. unfold _clean_date.
  cbn [truthy negb]. destruct (strptime_iso (x :: t)); [reflexivity|].
  destruct (parse_dayfirst (x :: t)); reflexivity.
Qed.

Lemma clean_date_idem o : clean_date (clean_date o) = clean_date o.
Proof.
  destruct o as [v|]; [|reflexivity].
  destruct v as [|x t]; [reflexivity|].
  rewrite (@clean_date_some (x :: t)) by discriminate.
  destruct (strptime_iso (x :: t)) as [dt|] eqn:E1.
  - apply clean_date_iso. eapply strptime_strftime; eauto.
  - destruct (parse_dayfirst (x :: t)) as [dt|] eqn:E2; [|reflexivity].
    apply clean_date_iso. eapply strptime_strftime; eauto.
Qed.

Lemma upper_nonempty s : s <> [] -> upper s <> [].
Proof.
  destruct s as [|c t]; [congruence|]. intros _.
  rewrite upper_cons.
  assert (A := upper_char_cases c).
  repeat (apply andb_true_iff in A; destruct A as [A ?]).
  destruct (upper [c]); [discriminate | discriminate].
Qed.

Lemma truthy_nonempty (s : str) : s <> [] -> truthy (Some s) = true.
Proof. destruct s; [congruence | reflexivity]. Qed.

Lemma clean_country_some (c : str) :
  c <> [] ->
  clean_country (Some c)
  = if countries_get_alpha_2 (upper (strip c)) then Some (upper (strip c))
    else match countries_lookup (upper (strip c)) with
         | Some alpha_2 => Some alpha_2
         | None => Some (upper (strip c))
         end.
Proof.
  destruct c as [|x t]; [congruence|]. intros _. reflexivity.
Qed.

Lemma clean_country_idem o :
  not_blank o -> clean_country (clean_country o) = clean_country o.
Proof.
  intros Hnb.
  destruct o as [c|]; [|reflexivity].
  destruct c as [|x t]; [reflexivity|].
  destruct Hnb as [Hnb | Hnb]; [discriminate|].
  assert (Hne : upper (strip (x :: t)) <> []) by (apply upper_nonempty, Hnb).
  rewrite (@clean_country_some (x :: t)) by discriminate.
  destruct (countries_get_alpha_2 (upper (strip (x :: t)))) eqn:G.
  - rewrite (clean_country_some Hne), upper_strip_idem, G. reflexivity.
  - destruct (countries_lookup (upper (strip (x :: t)))) as [a|] eqn:Lk.
    + destruct (lookup_alpha_2 Lk) as (Ha & Hs & Hg).
      rewrite (clean_country_some Ha), Hs, Hg. reflexivity.
    + rewrite (clean_country_some Hne), upper_strip_idem, G, Lk.
      reflexivity.
Qed.

Lemma clean_cost_item_idem item :
  _clean_cost_item (_clean_cost_item item) = _clean_cost_item item.
Proof.
  unfold _clean_cost_item.
  cbn [extracted_category total_cost_in_shipment_currency currency mention].
  rewrite !clean_str_idem.
  destruct (total_cost_in_shipment_currency item); reflexivity.
Qed.

End ValidatorTwice.


Lemma digit_char_digit k :
  is_digit (digit_char k) = true /\ ascii_eqb (digit_char k) "-" = false.
Proof.
  unfold digit_char.
  assert (H : k mod 10 < 10) by (apply Nat.mod_upper_bound; discriminate).
  remember (k mod 10) as j eqn:E. clear E.
  do 10 (destruct j as [|j]; [vm_compute; auto|]).
  lia.
Qed.

Lemma digits_nat_two n : n < 100 -> digits_nat (two_digits n) = n.
Proof.
  intros Hn. unfold two_digits, digits_nat. cbn [fold_left].
  rewrite !digit_char_value.
  assert (n / 10 < 10) by (apply Nat.Div0.div_lt_upper_bound; lia).
  rewrite (Nat.mod_small (n / 10)) by assumption.
  assert (A := Nat.div_mod_eq n 10). lia.
Qed.

Lemma digits_nat_four n : n < 100 * 100 -> digits_nat (four_digits n) = n.
Proof.
  intros Hn. unfold four_digits. rewrite digits_nat_app.
  rewrite <- (two_digits_mod n).
  assert (n / 100 < 100) by (apply Nat.Div0.div_lt_upper_bound; lia).
  assert (n mod 100 < 100) by (apply Nat.mod_upper_bound; discriminate).
  rewrite (digits_nat_two H).
  unfold two_digits. cbn [fold_left]. rewrite !digit_char_value.
  assert (n mod 100 / 10 < 10) by (apply Nat.Div0.div_lt_upper_bound; lia).
  rewrite (Nat.mod_small (n mod 100 / 10)) by assumption.
  assert (A := Nat.div_mod_eq n 100).
  assert (B := Nat.div_mod_eq (n mod 100) 10). lia.
Qed.

Lemma two_digits_plain n :
  ~ In "-"%char (two_digits n) /\ Sample.all_digits (two_digits n) = true.
Proof.
  unfold two_digits, Sample.all_digits. cbn [forallb nonempty In].
  destruct (digit_char_digit (n / 10)) as (A1 & B1).
  destruct (digit_char_digit n) as (A2 & B2).
  rewrite A1, A2. split; [|reflexivity].
  unfold ascii_eqb in B1, B2. apply Ascii.eqb_neq in B1, B2.
  intros [H | [H | []]]; congruence.
Qed.

Lemma four_digits_plain n :
  ~ In "-"%char (four_digits n) /\ Sample.all_digits (four_digits n) = true.
Proof.
  unfold four_digits.
  destruct (two_digits_plain (n / 100)) as (A1 & B1).
  destruct (two_digits_plain n) as (A2 & B2).
  split.
  - intros H. apply in_app_or in H. tauto.
  - unfold Sample.all_digits in *. rewrite forallb_app.
    apply andb_true_iff in B1, B2. destruct B1 as [B1 _], B2 as [B2 _].
    rewrite B1, B2. reflexivity.
Qed.

Lemma split_iso y m d :
  1000 <= y < 100 * 100 ->
  split_on "-" (strftime_iso (mkDate y m d))
  = [four_digits y; two_digits m; two_digits d].
Proof.
  intros Hy.
  unfold strftime_iso, L. cbn [d_year d_month d_day list_ascii_of_string app].
  rewrite dec_four by exact Hy.
  change (four_digits y ++ "-"%char :: two_digits m ++ "-"%char :: two_digits d)
    with (four_digits y ++ "-"%char :: (two_digits m ++ "-"%char :: two_digits d)).
  rewrite !split_on_app.
  rewrite (@split_on_single _ _ (proj1 (four_digits_plain y))).
  rewrite (@split_on_single _ _ (proj1 (two_digits_plain m))).
  rewrite (@split_on_single _ _ (proj1 (two_digits_plain d))).
  reflexivity.
Qed.

Lemma sample_make_date_iso y m d dt :
  Sample.make_date y m d = Some dt -> 1000 <= d_year dt ->
  Sample.strptime_iso (strftime_iso dt) = Some dt.
Proof.
  intros H Hy. assert (H0 := H). unfold Sample.make_date in H.
  destruct (_ && _) eqn:C; [|discriminate]. injection H as <-.
  repeat (apply andb_true_iff in C; destruct C as [C ?]).
  repeat match goal with
  | H : (_ <=? _) = true |- _ => apply Nat.leb_le in H
  | H : (_ <? _) = true |- _ => apply Nat.ltb_lt in H
  end.
  assert (Hd : d <= 31).
  { assert (Sample.days_in_month y m <= 31); [|lia].
    unfold Sample.days_in_month.
    do 12 (destruct m as [|m]; [try destruct (Sample.leap y); lia|]). lia. }
  cbn [d_year] in Hy.
  unfold Sample.strptime_iso. rewrite split_iso by lia.
  rewrite (proj2 (four_digits_plain y)), (proj2 (two_digits_plain m)),
    (proj2 (two_digits_plain d)).
  assert (L4 : length (four_digits y) = 4) by reflexivity.
  assert (L2 : forall n, length (two_digits n) = 2) by reflexivity.
  rewrite L4, !L2. cbn [Nat.eqb Nat.leb andb].
  rewrite digits_nat_four, !digits_nat_two by lia. exact H0.
Qed.

Lemma sample_read_back v dt :
  Sample.strptime_iso v = Some dt \/ Sample.parse_dayfirst v = Some dt ->
  1000 <= d_year dt ->
  Sample.strptime_iso (strftime_iso dt) = Some dt.
Proof.
  intros [H | H] Hy.
  - unfold Sample.strptime_iso in H.
    destruct (split_on "-" v) as [|a [|b [|c [|? ?]]]]; try discriminate.
    destruct (_ && _); [|discriminate].
    eapply sample_make_date_iso; eauto.
  - unfold Sample.parse_dayfirst in H.
    destruct (split_on "-" v) as [|a [|b [|y [|? ?]]]];
      try (destruct (split_on " " v) as [|d1 [|mn [|y1 [|? ?]]]];
           try discriminate;
           destruct (_ && _); [|discriminate];
           destruct (Sample.month_number mn); [|discriminate];
           eapply sample_make_date_iso; eauto).
    destruct (_ && _); [|discriminate].
    destruct (_ || _); eapply sample_make_date_iso; eauto.
Qed.

Lemma from_1000_some read v dt :
  Sample.from_1000 read v = Some dt -> read v = Some dt /\ 1000 <= d_year dt.
Proof.
  unfold Sample.from_1000. destruct (read v) as [d|]; [|discriminate].
  destruct (Nat.leb_spec 1000 (d_year d)); [|discriminate].
  intros [= <-]. auto.
Qed.

Lemma sample_strptime_strftime v dt :
  Sample.from_1000 Sample.strptime_iso v = Some dt
  \/ Sample.from_1000 Sample.parse_dayfirst v = Some dt ->
  Sample.from_1000 Sample.strptime_iso (strftime_iso dt) = Some dt.
Proof.
  intros H.
  assert (Hy : 1000 <= d_year dt /\
               (Sample.strptime_iso v = Some dt
                \/ Sample.parse_dayfirst v = Some dt)).
  { destruct H as [H | H]; apply from_1000_some in H; tauto. }
  destruct Hy as [Hy H'].
  unfold Sample.from_1000.
  rewrite (@sample_read_back v dt H' Hy).
  destruct (Nat.leb_spec 1000 (d_year dt)); [reflexivity | lia].
Qed.

Lemma sample_lookup_alpha_2 c a :
  Sample.countries_lookup c = Some a ->
  a <> [] /\ upper (strip a) = a /\ Sample.countries_get_alpha_2 a = true.
Proof.
  unfold Sample.countries_lookup.
  destruct (find _ Sample.countries) as [[k n]|] eqn:F; [|discriminate].
  cbn [option_map fst]. intros [= <-].
  apply find_some in F. destruct F as [Hin _].
  unfold Sample.countries in Hin. cbn [In] in Hin.
  repeat (destruct Hin as [Hin | Hin];
          [injection Hin as <- <-; vm_compute; repeat split; discriminate|]).
  destruct Hin.
Qed.


(** ** Weights: when [extract] raises *)

Section WeightRaise.
Import WeightExtractor WeightSpec.

(** A step of the final pass raises exactly on a weight/container line with
    two values of which one is missing. *)
Lemma pass4_step_raises w line :
  pass4_step w line = None <->
  is_container_line line = true
  /\ exists a b, container_values line = [a; b] /\ (a = None \/ b = None).
Proof.
  unfold pass4_step, is_container_line, container_values.
  destruct (contains (L "gewicht/container") (lower line)).
  2:{ split; [discriminate | intros [H _]; discriminate]. }
  destruct (map _to_float (filter nonempty (findall1 false RE_NUMBER line)))
    as [|a [|b [|c l]]].
  - split; [discriminate | intros (_ & a & b & H & _); discriminate].
  - split.
    + destruct (w_gross_weight w); discriminate.
    + intros (_ & a' & b' & H & _); discriminate.
  - split.
    + intros H. split; [reflexivity|]. exists a, b. split; [reflexivity|].
      destruct a, b; cbn in H; try discriminate; auto.
    + intros (_ & a' & b' & [= <- <-] & [-> | ->]); [reflexivity|].
      destruct a; reflexivity.
  - split; [discriminate | intros (_ & a' & b' & H & _); discriminate].
Qed.

Lemma pass4_raises lines : forall w,
  pass4 lines w = None <->
  exists line, In line lines /\ pass4_step no_weights line = None.
Proof.
  unfold pass4.
  induction lines as [|l lines IH]; intros w; cbn [fold_left opt_bind].
  - split; [discriminate | intros (? & [] & _)].
  - destruct (pass4_step w l) as [w'|] eqn:E.
    + rewrite IH. split.
      * intros (line & Hin & H). exists line. split; [right|]; assumption.
      * intros (line & [<- | Hin] & H); [|eauto].
        apply pass4_step_raises in H. apply (pass4_step_raises w) in H.
        congruence.
    + rewrite pass4_none. split; [intros _ | reflexivity].
      exists l. split; [left; reflexivity|].
      apply pass4_step_raises. apply (pass4_step_raises w). exact E.
Qed.

End WeightRaise.

(** X9: [WeightExtractor.extract] raises (the [TypeError] of [max] on a
    missing value) exactly when a line that is not a cost row holds
    "gewicht/container" and exactly two numbers, one of which [_to_float]
    turns into [None]; on every other text it returns its five fields. *)
Theorem weights_extract_raises_iff (block_text : str) :
  WeightExtractor.extract block_text = None <->
  exists line a b,
    In line (WeightExtractor.clean_lines (stripped_lines block_text))
    /\ WeightSpec.is_container_line line = true
    /\ WeightSpec.container_values line = [a; b]
    /\ (a = None \/ b = None).
Proof.
  unfold WeightExtractor.extract, WeightExtractor.passes.
  rewrite pass4_raises. split.
  - intros (line & Hin & H). apply pass4_step_raises in H.
    destruct H as (Hc & a & b & Hv & Hab). exists line, a, b. auto.
  - intros (line & a & b & Hin & Hc & Hv & Hab). exists line.
    split; [exact Hin|]. apply pass4_step_raises. eauto.
Qed.

Section NumberTokens.
Import WeightExtractor.

Lemma digit_class (x : ascii) :
  implb (cls_ok false false [CDigit] x)
        (is_digit x && negb (ascii_eqb x ".") && negb (ascii_eqb x ","))
  = true.
Proof. revert x. by_cases_on_char. Qed.

Lemma digits_plain w :
  forallb (cls_ok false false [CDigit]) w = true ->
  forallb is_digit w = true /\ ~ In "."%char w
  /\ replace_c "," (L ".") w = w.
Proof.
  induction w as [|x w IH]; cbn [forallb]; [auto|].
  intros H. apply andb_true_iff in H. destruct H as [Hx Hw].
  destruct (IH Hw) as (A & B & C).
  assert (D := digit_class x). rewrite Hx in D. cbn [implb] in D.
  do 2 (apply andb_true_iff in D; destruct D as [D ?]).
  cbn [forallb]. rewrite D, A. split; [reflexivity|]. split.
  - intros [E | E]; [|tauto]. subst x. discriminate.
  - unfold replace_c in *. cbn [flat_map].
    match goal with H : negb (ascii_eqb x ",") = true |- _ =>
      apply negb_true_iff in H; rewrite H end.
    rewrite C. reflexivity.
Qed.

Lemma replace_c_app a b s t :
  replace_c a b (s ++ t) = replace_c a b s ++ replace_c a b t.
Proof. unfold replace_c. apply flat_map_app. Qed.

End NumberTokens.

Section NumberValue.
Import WeightExtractor.

(** A number token is digits, then possibly a point or a comma, then
    digits. *)
Lemma number_token p s e n :
  match_at false RE_NUMBER p s = Some e ->
  group 1 (mobj_of s e) = Some n ->
  exists d1 d2,
    d1 <> [] /\ forallb (cls_ok false false [CDigit]) (d1 ++ d2) = true
    /\ (n = d1 ++ d2 \/ n = d1 ++ L "." ++ d2 \/ n = d1 ++ L "," ++ d2).
Proof.
  intros H G. apply match_at_sound in H.
  unfold group, mobj_of in G. cbn [m_caps] in G.
  unfold RE_NUMBER, plus, opt, star, digit in H.
  cbn -[at_boundary cls_ok] in H.
  break_run; subst; cbn [rest adv prev caps] in *; subst.
  match goal with
  | A : iter _ ?n1 _ ?s1, B : iter _ ?n2 ?s1 ?s2, C : iter _ _ ?s2 _ |- _ =>
      apply iter_cls_len in A; destruct A as (d1 & E1 & L1 & F1);
      apply iter_cls_len in B; destruct B as (sp & E2 & L2 & F2);
      apply iter_cls_len in C; destruct C as (d2 & E3 & L3 & F3)
  end.
  cbn [rest] in E1. cbn [set_cap caps assoc Nat.eqb rest] in G.
  rewrite E1, E2, E3 in G.
  rewrite !app_assoc, firstn_consumed, <- !app_assoc in G.
  injection G as <-.
  exists d1, d2. split; [destruct d1; [cbn in L1; lia | discriminate]|].
  split; [rewrite forallb_app, F1, F3; reflexivity|].
  destruct sp as [|c [|c' sp']]; [left; reflexivity | right | cbn in L2; lia].
  cbn [forallb] in F2. apply andb_true_iff in F2. destruct F2 as [F2 _].
  unfold cls_ok, items_have in F2. cbn [existsb citem_has xorb] in F2.
  repeat (apply orb_true_iff in F2; destruct F2 as [F2 | F2]);
    try discriminate F2;
    unfold ascii_eqb in F2; apply Ascii.eqb_eq in F2; subst c; auto.
Qed.

(** [float] reads digits, and digits around a point. *)
Lemma py_float_decimal (i f : str) :
  i <> [] -> forallb (cls_ok false false [CDigit]) (i ++ f) = true ->
  py_float i = Some (binary64 (decimal i []))
  /\ py_float (i ++ L "." ++ f) = Some (binary64 (decimal i f)).
Proof.
  intros Hne F.
  assert (F' := F). rewrite forallb_app in F'.
  apply andb_true_iff in F'. destruct F' as [F1 F2].
  destruct (digits_plain _ F) as (A & B & _).
  destruct (digits_plain _ F1) as (A1 & B1 & _).
  destruct (digits_plain _ F2) as (_ & B2 & _).
  assert (N1 : nonempty i = true) by (destruct i; [congruence | reflexivity]).
  assert (N : nonempty (i ++ f) = true)
    by (destruct i; [congruence | reflexivity]).
  unfold py_float. split.
  - rewrite (@split_on_single _ _ B1), A1, N1. reflexivity.
  - unfold L. cbn [list_ascii_of_string app].
    rewrite split_on_app, (@split_on_single _ _ B1), (@split_on_single _ _ B2).
    cbn [app]. rewrite A, N. reflexivity.
Qed.

Lemma to_float_edge (q : Q) :
  below_1e7 (binary64 q) = None <-> (float_edge <= q)%Q.
Proof. rewrite binary64_below_1e7. unfold Qle, float_edge. reflexivity. Qed.

End NumberValue.

(** X10: every number that [RE_NUMBER] finds on a line is digits, possibly
    followed by a point or a comma and further digits, a literal that
    [float] accepts once the comma is a point. [_to_float] returns the
    float nearest to the number, and [None] when that float is [1e7] or
    more, that is when the number is [1e7 - 2^-30] or more. *)
Theorem number_tokens_parse (line n : str) :
  In n (WeightExtractor.findall1 false WeightExtractor.RE_NUMBER line) ->
  exists i f : str,
    i <> [] /\ forallb is_digit (i ++ f) = true
    /\ ((n = i /\ f = []) \/ n = i ++ L "." ++ f \/ n = i ++ L "," ++ f)
    /\ WeightExtractor._to_float n = below_1e7 (binary64 (decimal i f))
    /\ (WeightExtractor._to_float n = None
        <-> (float_edge <= decimal i f)%Q).
Proof.
  unfold WeightExtractor.findall1, finditer. intros H.
  apply in_map_iff in H. destruct H as (mo & Hg & H).
  apply scan_sound in H. destruct H as (p & s' & e & Hm & ->).
  destruct (group 1 (mobj_of s' e)) as [g|] eqn:G.
  - subst n. destruct (number_token _ _ Hm G) as (d1 & d2 & Hne & F & Hn).
    assert (T : forall i f : str,
              i <> [] ->
              forallb (cls_ok false false [CDigit]) (i ++ f) = true ->
              ((g = i /\ f = []) \/ g = i ++ L "." ++ f
               \/ g = i ++ L "," ++ f) ->
              WeightExtractor._to_float g
              = below_1e7 (binary64 (decimal i f))).
    { intros i f Hi Fi Hg'. unfold WeightExtractor._to_float.
      destruct (@py_float_decimal i f Hi Fi) as [P1 P2].
      assert (Fi' := Fi). rewrite forallb_app in Fi'.
      apply andb_true_iff in Fi'. destruct Fi' as [F1 F2].
      destruct (digits_plain _ F1) as (_ & _ & R1).
      destruct (digits_plain _ F2) as (_ & _ & R2).
      destruct Hg' as [[-> ->] | [-> | ->]];
        rewrite ?replace_c_app, ?R1, ?R2.
      - rewrite P1. reflexivity.
      - change (replace_c "," (L ".") (L ".")) with (L ".").
        rewrite P2. reflexivity.
      - change (replace_c "," (L ".") (L ",")) with (L ".").
        rewrite P2. reflexivity. }
    assert (D : forall w, forallb (cls_ok false false [CDigit]) w = true ->
                          forallb is_digit w = true)
      by (intros w Hw; exact (proj1 (digits_plain _ Hw))).
    destruct Hn as [Hn | Hn].
    + exists (d1 ++ d2), []. rewrite app_nil_r.
      assert (Hi : d1 ++ d2 <> []) by (destruct d1; [congruence | discriminate]).
      assert (E := T (d1 ++ d2) [] Hi
                     ltac:(rewrite app_nil_r; exact F) (or_introl (conj Hn eq_refl))).
      split; [exact Hi|]. split; [apply D, F|]. split; [auto|].
      split; [exact E|]. rewrite E. apply to_float_edge.
    + exists d1, d2.
      assert (E := T d1 d2 Hne F (or_intror Hn)).
      split; [exact Hne|]. split; [apply D, F|]. split; [auto|].
      split; [exact E|]. rewrite E. apply to_float_edge.
  - exfalso. apply match_at_sound in Hm.
    unfold group, mobj_of in G. cbn [m_caps] in G.
    unfold WeightExtractor.RE_NUMBER in Hm. cbn [run] in Hm.
    destruct Hm as (s2 & _ & ->). cbn [set_cap caps assoc Nat.eqb] in G.
    discriminate G.
Qed.

Lemma number_tokens_parse_witness :
  exists i f : str,
    i <> [] /\ forallb is_digit (i ++ f) = true
    /\ ((L "9999999,9999999999" = i /\ f = [])
        \/ L "9999999,9999999999" = i ++ L "." ++ f
        \/ L "9999999,9999999999" = i ++ L "," ++ f)
    /\ WeightExtractor._to_float (L "9999999,9999999999")
       = below_1e7 (binary64 (decimal i f))
    /\ (WeightExtractor._to_float (L "9999999,9999999999") = None
        <-> (float_edge <= decimal i f)%Q).
Proof.
  apply (@number_tokens_parse (L "Gewicht 9999999,9999999999 kg")).
  vm_compute. auto.
Defined.

(** ** Cost items: categories and skipped lines *)

Section CategoryFacts.
Import CostExtractor.

Variable partial_ratio : str -> str -> Q.

(** The loop of [_normalize_category]: the best category is a value of the
    map, and it is missing only while the best score is 0. *)
Lemma category_loop d : forall (entries : list (str * str)) acc,
  (forall c, fst acc = Some c -> In c (map snd CATEGORY_MAP)) ->
  (fst acc = None -> snd acc = inject_Z 0) ->
  incl entries CATEGORY_MAP ->
  let acc' :=
    fold_left
      (fun (acc : option str * Q) (kc : str * str) =>
         let score := partial_ratio (fst kc) d in
         if Qle_bool score (snd acc) then acc else (Some (snd kc), score))
      entries acc in
  (forall c, fst acc' = Some c -> In c (map snd CATEGORY_MAP))
  /\ (fst acc' = None -> snd acc' = inject_Z 0).
Proof.
  induction entries as [|kc entries IH]; intros acc H1 H2 Hm; cbn zeta.
  - cbn [fold_left]. auto.
  - cbn [fold_left]. apply IH.
    + destruct (Qle_bool _ _); [exact H1|]. cbn [fst].
      intros c [= <-]. apply in_map. apply Hm. left. reflexivity.
    + destruct (Qle_bool _ _); [exact H2|]. cbn [fst]. discriminate.
    + intros x Hx. apply Hm. right. exact Hx.
Qed.

End CategoryFacts.

(** X11: [_normalize_category] always returns a string: the description it
    was given, or one of the categories of [CATEGORY_MAP], whatever the
    scores of [partial_ratio]. *)
Theorem category_is_description_or_mapped
  (partial_ratio : str -> str -> Q) (desc : str) :
  exists c, CostExtractor._normalize_category partial_ratio desc = Some c
            /\ (c = desc \/ In c (map snd CostExtractor.CATEGORY_MAP)).
Proof.
  unfold CostExtractor._normalize_category.
  destruct (@category_loop partial_ratio (strip (lower desc))
              CostExtractor.CATEGORY_MAP
              (None, inject_Z 0)) as (H1 & H2);
    [discriminate | reflexivity | apply incl_refl |].
  cbn zeta in H1, H2.
  destruct (fold_left _ CostExtractor.CATEGORY_MAP (None, inject_Z 0))
    as [best_cat best_score].
  cbn [fst snd] in H1, H2.
  destruct (Qle_bool (inject_Z 70) best_score) eqn:E; [|eauto].
  destruct best_cat as [c|]; [eauto|].
  rewrite (H2 eq_refl) in E. discriminate E.
Qed.


(** X12: every cost item comes from a line of the text that, once stripped,
    is not empty, holds none of the skip keywords (in any case), and matches
    the row pattern; the item mentions that line, and its currency is the one
    found on the line or else the invoice currency. *)
Theorem cost_items_from_rows (partial_ratio : str -> str -> Q) (text : str) :
  Forall
    (fun it =>
       exists raw,
         In raw (split_on "010" text)
         /\ mention it = Some (strip raw)
         /\ strip raw <> []
         /\ existsb (fun k => contains k (lower (strip raw)))
                    CostExtractor.SKIP_KEYWORDS = false
         /\ is_some (re_match false CostExtractor.ROW_RE (strip raw)) = true
         /\ currency it
            = py_or (CostExtractor._detect_currency_inline (strip raw))
                    (CostExtractor._detect_invoice_currency text))
    (CostExtractor.extract partial_ratio text).
Proof.
  apply Forall_forall. intros it Hin. unfold CostExtractor.extract in Hin.
  destruct (@cost_loop_inv partial_ratio
              (CostExtractor._detect_invoice_currency text)
              (split_on "010" text) ([], []))
    as (_ & _ & _ & _ & Ho); [reflexivity | constructor |].
  destruct (Ho it Hin) as [[] | (raw & Hraw & Hrow)].
  exists raw. split; [exact Hraw|].
  unfold CostExtractor.row_item in Hrow.
  destruct (strip raw) as [|x t] eqn:E; [discriminate|].
  destruct (existsb _ CostExtractor.SKIP_KEYWORDS); [discriminate|].
  destruct (re_match false CostExtractor.ROW_RE (x :: t)) as [mo|];
    [|discriminate].
  destruct (group CostExtractor.g_desc mo); [|discriminate].
  destruct (group CostExtractor.g_numcols mo); [|discriminate].
  destruct (last_opt _); [|discriminate].
  injection Hrow as <-. cbn [mention currency is_some].
  repeat split; auto. discriminate.
Qed.

(** ** Loading: page numbers and line ends *)

Section LoaderFacts.
Import PDFLoader.

Lemma replace_c_absent a b s :
  ~ In a b -> ~ In a (replace_c a b s).
Proof.
  intros Hb. unfold replace_c. intros H. apply in_flat_map in H.
  destruct H as (c & _ & H). destruct (ascii_eqb c a) eqn:E; [tauto|].
  destruct H as [<- | []]. unfold ascii_eqb in E.
  rewrite Ascii.eqb_refl in E. discriminate.
Qed.

Lemma replace_c_same a b s : ~ In a s -> replace_c a b s = s.
Proof.
  induction s as [|c t IH]; [reflexivity|]. intros H.
  unfold replace_c in *. cbn [flat_map].
  destruct (ascii_eqb c a) eqn:E.
  - unfold ascii_eqb in E. apply Ascii.eqb_eq in E. subst. exfalso.
    apply H. left. reflexivity.
  - rewrite IH; [reflexivity|]. intros Hin. apply H. right. exact Hin.
Qed.

Lemma replace_s_same x old new s :
  ~ In x s -> replace_s (x :: old) new s = s.
Proof.
  unfold replace_s. induction s as [|c t IH]; [reflexivity|]. intros H.
  cbn [replace_from starts_with].
  destruct (ascii_eqb x c) eqn:E.
  - unfold ascii_eqb in E. apply Ascii.eqb_eq in E. subst. exfalso.
    apply H. left. reflexivity.
  - cbn [andb]. rewrite IH; [reflexivity|].
    intros Hin. apply H. right. exact Hin.
Qed.

Lemma page_text_no_cr e : ~ In cr (page_text e).
Proof.
  unfold page_text. apply replace_c_absent.
  intros [H | []]. discriminate H.
Qed.

Lemma load_from_numbers extracted : forall i,
  map page_num (load_from i extracted)
  = map (fun k => (i + Z.of_nat k)%Z) (seq 1 (length extracted)).
Proof.
  induction extracted as [|e more IH]; intros i; [reflexivity|].
  cbn [load_from map length page_num]. rewrite IH.
  change (seq 1 (S (length more))) with (1 :: seq 2 (length more)).
  cbn [map]. apply f_equal2; [lia|].
  rewrite <- (seq_shift (length more) 1), map_map.
  apply map_ext. intros k. lia.
Qed.

End LoaderFacts.

(** X13: [load] numbers the pages 1, 2, ... in the order of the file, marks
    none as scanned and leaves no carriage return in a text; a text without
    carriage returns is taken as it is. *)
Theorem load_numbers_pages (extracted : list (option str)) :
  map page_num (PDFLoader.load extracted)
  = map Z.of_nat (seq 1 (length extracted))
  /\ Forall (fun p => ~ In cr (text p) /\ is_scanned p = false)
            (PDFLoader.load extracted)
  /\ (forall texts,
        extracted = map Some texts ->
        Forall (fun t => ~ In cr t) texts ->
        map text (PDFLoader.load extracted) = texts).
Proof.
  unfold PDFLoader.load. split; [|split].
  - rewrite load_from_numbers. apply map_ext. intros k. lia.
  - generalize 0%Z. induction extracted as [|e more IH]; intros i;
      cbn [PDFLoader.load_from]; constructor; auto.
    cbn [text is_scanned]. split; [apply page_text_no_cr | reflexivity].
  - intros texts -> Hcr. generalize 0%Z.
    induction Hcr as [|t texts Ht _ IH]; intros i; [reflexivity|].
    cbn [map PDFLoader.load_from text]. rewrite IH. f_equal.
    unfold PDFLoader.page_text, py_or.
    destruct t as [|c t']; [reflexivity|]. cbn [truthy].
    unfold nl. rewrite (@replace_s_same cr [ "010"%char ] _ _ Ht).
    apply replace_c_same. exact Ht.
Qed.

(** X14: loading then segmenting: every block carries the number of one of
    the pages of the file, between 1 and the number of pages. *)
Theorem loaded_blocks_page_range (extracted : list (option str)) :
  Forall
    (fun b => exists k, b_page_num b = Some k
                        /\ (1 <= k <= Z.of_nat (length extracted))%Z)
    (Segmenter.segment (PDFLoader.load extracted)).
Proof.
  set (pages := PDFLoader.load extracted).
  destruct (@pages_loop_inv pages pages _ (incl_refl pages)
              (initial_inv pages)) as (Hinv & _).
  destruct (finish_inv Hinv) as (Hgood & _).
  fold (Segmenter.segment pages) in Hgood.
  eapply Forall_impl; [|exact Hgood].
  intros b (ls & _ & Hok). destruct ls as [|t more]; [destruct Hok|].
  destruct Hok as ((p & Hp & Hn & _) & _).
  exists (page_num p). split; [exact Hn|].
  assert (Hin : In (page_num p) (map page_num pages)) by (apply in_map, Hp).
  unfold pages, PDFLoader.load in Hin. rewrite load_from_numbers in Hin.
  apply in_map_iff in Hin. destruct Hin as (k & <- & Hk).
  apply in_seq in Hk. lia.
Qed.

(** ** Service type: the result is canonical *)

Section ServiceFacts.
Import ServiceExtractor.

Variable ratio : str -> str -> Q.

Lemma normalize_loop raw : forall (names : list str) acc,
  (forall c, fst acc = Some c -> In c CANONICAL) ->
  incl names CANONICAL ->
  forall c,
    fst (fold_left
           (fun (acc : option str * Q) (canon : str) =>
              let score := ratio (lower raw) (lower canon) in
              if Qle_bool score (snd acc) then acc else (Some canon, score))
           names acc) = Some c ->
    In c CANONICAL.
Proof.
  induction names as [|n names IH]; intros acc H1 Hn c; cbn [fold_left].
  - apply H1.
  - apply IH.
    + cbn zeta. destruct (Qle_bool _ _); [exact H1|]. cbn [fst].
      intros c' [= <-]. apply Hn. left. reflexivity.
    + intros x Hx. apply Hn. right. exact Hx.
Qed.

Lemma normalize_canonical raw c :
  _normalize ratio raw = Some c -> In c CANONICAL.
Proof.
  unfold _normalize.
  assert (H := @normalize_loop (strip raw) CANONICAL (None, inject_Z 0)).
  destruct (fold_left _ CANONICAL (None, inject_Z 0)) as [best best_score].
  cbn [fst] in H.
  destruct (Qle_bool (inject_Z 70) best_score); [|discriminate].
  intros ->. apply H; [discriminate | apply incl_refl | reflexivity].
Qed.

Lemma strong_pass_canonical text c :
  strong_pass ratio text = Some c -> In c CANONICAL.
Proof.
  unfold strong_pass.
  destruct (map groups5 (finditer true RE_SERVICE text)); [discriminate|].
  destruct (nonempty _); [|discriminate].
  destruct (_normalize ratio _) as [n|] eqn:E; [|discriminate].
  destruct (truthy (Some n)); [|discriminate].
  intros [= <-]. exact (normalize_canonical _ E).
Qed.

End ServiceFacts.

(** X15: [ServiceExtractor.extract] returns one of the canonical names or
    nothing, whatever the fuzzy scores; and it returns nothing only when the
    first word of no canonical name (express, international, standard,
    economy, premium, domestic, worldwide) occurs in the block, in any
    case. *)
Theorem service_is_canonical
  (ratio partial_ratio : str -> str -> Q) (block_text : str) :
  match ServiceExtractor.extract ratio partial_ratio block_text with
  | Some r => In r ServiceExtractor.CANONICAL
  | None =>
      forall canon, In canon ServiceExtractor.CANONICAL ->
        contains (ServiceExtractor.first_word canon)
                 (lower (strip (replace_c "010" (L " ") block_text)))
        = false
  end.
Proof.
  unfold ServiceExtractor.extract.
  destruct (ServiceExtractor.strong_pass ratio _) as [norm|] eqn:E1.
  { exact (strong_pass_canonical _ _ E1). }
  destruct (ServiceExtractor.fuzzy_pass partial_ratio _) as [canon|] eqn:E2.
  { apply find_some in E2. exact (proj1 E2). }
  destruct (ServiceExtractor.keyword_pass _) as [canon|] eqn:E3.
  - apply find_some in E3. exact (proj1 E3).
  - intros canon Hin. exact (find_none _ _ E3 canon Hin).
Qed.

(** ** From a tracking line to an identifier *)

Lemma prev_after_cons p c w : prev_after p (c :: w) = prev_after (Some c) w.
Proof.
  unfold prev_after, last_opt. cbn [rev].
  destruct (rev w) as [|y l]; reflexivity.
Qed.

Lemma search_from_pos ic r : forall s p mo,
  search_from ic r p s = Some mo ->
  exists pre s' e, s = pre ++ s'
                   /\ match_at ic r (prev_after p pre) s' = Some e.
Proof.
  induction s as [|c t IH]; intros p mo H; cbn [search_from] in H.
  - destruct (match_at ic r p []) as [e|] eqn:E; [|discriminate].
    exists [], [], e. auto.
  - destruct (match_at ic r p (c :: t)) as [e|] eqn:E.
    + exists [], (c :: t), e. auto.
    + apply IH in H. destruct H as (pre & s' & e & -> & H).
      exists (c :: pre), s', e. split; [reflexivity|].
      rewrite prev_after_cons. exact H.
Qed.

(** A scan reports a match when some attempt succeeds. *)
Lemma scan_complete ic r s' e : forall pre p,
  match_at ic r (prev_after p pre) s' = Some e ->
  scan ic r p (pre ++ s') 0 <> [].
Proof.
  induction pre as [|c pre IH]; intros p H.
  - cbn [app]. change (prev_after p []) with p in H.
    destruct s'; cbn [scan]; rewrite H; discriminate.
  - cbn [app scan].
    destruct (match_at ic r p (c :: pre ++ s')); [discriminate|].
    apply IH. rewrite prev_after_cons in H. exact H.
Qed.

(** Greedy repetition of a character class reads a whole run of the class
    when what follows the run is accepted. *)
Lemma greedy_class neg items k res tl :
  match tl with
  | [] => True
  | x :: _ => cls_ok false neg items x = false
  end ->
  forall w lo hi p caps0,
    forallb (cls_ok false neg items) w = true ->
    lo <= length w <= hi ->
    k (mkst (prev_after p w) tl caps0) = Some res ->
    rep_greedy (m false (Cls neg items)) lo hi k (mkst p (w ++ tl) caps0)
    = Some res.
Proof.
  intros Htl. induction w as [|x w IH]; intros lo hi p caps0 Hw Hl Hk.
  - cbn [length] in Hl. assert (lo = 0) by lia. subst lo.
    change (prev_after p []) with p in Hk. cbn [app].
    destruct hi as [|hi']; cbn [rep_greedy]; [exact Hk|].
    cbn [m rest]. destruct tl as [|y tl']; [exact Hk|].
    rewrite Htl. exact Hk.
  - cbn [forallb] in Hw. apply andb_true_iff in Hw. destruct Hw as [Hx Hw].
    cbn [length] in Hl. destruct hi as [|hi']; [lia|].
    rewrite prev_after_cons in Hk.
    destruct lo as [|lo']; cbn [rep_greedy app m rest]; rewrite Hx;
      unfold adv; cbn [caps]; rewrite (IH _ hi' (Some x) caps0 Hw);
      auto; lia.
Qed.

Lemma iter_cls_full neg items n : forall s s',
  iter (run false (Cls neg items)) n s s' ->
  exists w, rest s = w ++ rest s' /\ length w = n
            /\ forallb (cls_ok false neg items) w = true
            /\ prev s' = prev_after (prev s) w.
Proof.
  induction n as [|n IH]; intros s s' H; cbn [iter] in H.
  - subst. exists []. auto.
  - destruct H as (s2 & H1 & H2). cbn [run] in H1.
    destruct H1 as (x & t & E & O & ->).
    destruct (IH _ _ H2) as (w & E' & Hl & Hw & Hp).
    cbn [adv rest prev] in E', Hp.
    exists (x :: w). rewrite E, E', prev_after_cons. cbn [length forallb].
    rewrite O, Hw, Hl. auto.
Qed.

Lemma word_run_last c w :
  is_word c = true ->
  forallb (cls_ok false false [CRange "0" "9"; CRange "A" "Z"]) w = true ->
  opt_word (prev_after (Some c) w) = true.
Proof.
  revert c. induction w as [|x w IH]; intros c Hc Hw; [exact Hc|].
  cbn [forallb] in Hw. apply andb_true_iff in Hw. destruct Hw as [Hx Hw].
  rewrite prev_after_cons. apply IH; [|exact Hw].
  assert (A := upper_digit_is_word x). rewrite Hx in A. exact A.
Qed.

Section TrackingToId.
Import IdentifierExtractor.

(** What the tracking pattern of the segmenter reads. *)
Lemma tracking_token p s e :
  match_at false Segmenter.RE_TRACKING p s = Some e ->
  exists w,
    s = "1"%char :: "Z"%char :: w ++ rest e
    /\ 8 <= length w <= 18
    /\ forallb (cls_ok false false [CRange "0" "9"; CRange "A" "Z"]) w = true
    /\ opt_word p = false /\ opt_word (hd_error (rest e)) = false.
Proof.
  intros H. apply match_at_sound in H.
  unfold Segmenter.RE_TRACKING in H. cbn -[at_boundary] in H.
  break_run; subst; cbn [rest adv prev caps] in *; subst.
  match goal with H : iter _ _ _ _ |- _ =>
    apply iter_cls_full in H; destruct H as (w & E & Hl & Hw & Hp) end.
  cbn [rest adv prev] in E, Hp. subst.
  repeat match goal with H : lit_ok false _ _ = true |- _ =>
    unfold lit_ok, ascii_eqb in H; apply Ascii.eqb_eq in H; subst end.
  exists w. split; [reflexivity|]. split; [lia|]. split; [exact Hw|].
  repeat match goal with H : at_boundary _ = true |- _ =>
    unfold at_boundary in H; cbn [prev rest hd_error opt_word] in H end.
  split.
  - destruct (opt_word p); [discriminate | reflexivity].
  - match goal with H : xorb (opt_word (prev ?x)) _ = true |- _ =>
      rewrite Hp, (word_run_last "Z" w eq_refl Hw) in H;
      destruct (opt_word (hd_error (rest x))); [discriminate | reflexivity]
    end.
Qed.

End TrackingToId.

Section StrictComplete.
Import IdentifierExtractor.

Lemma not_word_not_class tl :
  opt_word (hd_error tl) = false ->
  match tl with
  | [] => True
  | x :: _ =>
      cls_ok false false [CRange "0" "9"; CRange "A" "Z"] x = false
  end.
Proof.
  destruct tl as [|x tl]; [auto|]. cbn [hd_error opt_word]. intros H.
  assert (A := upper_digit_is_word x). rewrite H in A.
  destruct (cls_ok false false _ x); [discriminate A | reflexivity].
Qed.

(** The strict pattern matches at a delimited token. *)
Lemma strict_matches p w tl :
  opt_word p = false ->
  forallb (cls_ok false false [CRange "0" "9"; CRange "A" "Z"]) w = true ->
  8 <= length w <= 20 ->
  opt_word (hd_error tl) = false ->
  exists e,
    match_at false RE_UPS_STRICT p ("1"%char :: "Z"%char :: w ++ tl) = Some e.
Proof.
  intros Hp Hw Hl Htl.
  unfold match_at, RE_UPS_STRICT, upper_or_digit, between.
  cbn [m]. unfold at_boundary at 1. cbn [prev rest hd_error opt_word].
  rewrite Hp.
  change (xorb false (is_word "1")) with true. cbv iota.
  cbn [rest]. change (lit_ok false "1" "1") with true. cbv iota.
  unfold adv at 1. cbn [rest caps].
  change (lit_ok false "Z" "Z") with true. cbv iota.
  unfold adv at 1. cbn [caps rep_bound].
  eexists.
  eapply greedy_class;
    [exact (@not_word_not_class tl Htl) | exact Hw | exact Hl |].
  cbn [m]. unfold at_boundary. cbn [prev rest].
  rewrite (word_run_last "Z" w eq_refl Hw), Htl. reflexivity.
Qed.

Lemma join_cons (sep t : str) (more : list str) :
  join sep (t :: more)
  = t ++ match more with [] => [] | _ :: _ => sep ++ join sep more end.
Proof.
  destruct more; cbn [join]; [rewrite app_nil_r|]; reflexivity.
Qed.

Lemma hd_app_not_word (a b : str) :
  opt_word (hd_error a) = false -> opt_word (hd_error b) = false ->
  opt_word (hd_error (a ++ b)) = false.
Proof. destruct a; auto. Qed.

(** A block that starts with a tracking line holds a strict match. *)
Lemma tracking_block_strict t more :
  Segmenter.has_tracking t = true ->
  findall false RE_UPS_STRICT (join nl (t :: more)) <> [].
Proof.
  unfold Segmenter.has_tracking, re_test, re_search. intros H.
  destruct (search_from false Segmenter.RE_TRACKING None t) as [mo|] eqn:E;
    [|discriminate].
  apply search_from_pos in E. destruct E as (pre & s' & e & -> & E).
  apply tracking_token in E.
  destruct E as (w & -> & Hl & Hw & Hp & Htl).
  set (tail := match more with [] => [] | _ :: _ => nl ++ join nl more end).
  assert (Ht : opt_word (hd_error tail) = false)
    by (destruct more; reflexivity).
  destruct (@strict_matches (prev_after None pre) w (rest e ++ tail))
    as (e' & He'); auto; [lia | apply hd_app_not_word; auto |].
  rewrite join_cons. fold tail. unfold findall, finditer.
  intros Hnil. apply map_eq_nil in Hnil. revert Hnil.
  rewrite <- app_assoc. cbn [app]. rewrite <- app_assoc.
  eapply scan_complete. exact He'.
Qed.

End StrictComplete.

Section BlockRecords.

Variable partial_ratio : str -> str -> Q.
Variable parse_dayfirst strptime_iso : str -> option Date.
Variable countries_get_alpha_2 : str -> bool.
Variable countries_lookup : str -> option str.
Variable service_extract : str -> option str.
Variable location_extract : str -> Locations.

Local Abbreviation block_record :=
  (Orchestrator.block_record partial_ratio parse_dayfirst strptime_iso
     countries_get_alpha_2 countries_lookup service_extract location_extract).
Local Abbreviation blocks_loop :=
  (Orchestrator.blocks_loop partial_ratio parse_dayfirst strptime_iso
     countries_get_alpha_2 countries_lookup service_extract location_extract).

(** A block of the segmenter has an identifier. *)
Lemma good_block_identifier pages b :
  SegInv.good_block pages b ->
  exists w, IdentifierExtractor.extract (b_text b)
            = Some ("1"%char :: "Z"%char :: w).
Proof.
  intros (ls & Et & Hok). destruct ls as [|t more]; [destruct Hok|].
  destruct Hok as (_ & Ht & _).
  assert (H := @tracking_block_strict t more Ht). rewrite <- Et in H.
  unfold IdentifierExtractor.extract.
  destruct (findall false IdentifierExtractor.RE_UPS_STRICT (b_text b))
    as [|x l] eqn:E; [congruence|].
  cbn [IdentifierExtractor.first_cleaned].
  destruct (@strict_cleaned (b_text b) x) as (w & -> & _).
  { rewrite E. left. reflexivity. }
  eauto.
Qed.

Lemma good_block_record pages iy b ob :
  SegInv.good_block pages b ->
  block_record iy b = Some ob ->
  exists r, ob = Some r /\ invoice_page r = b_page_num b
            /\ IdentifierExtractor.extract (b_text b) = Some (identifier r).
Proof.
  intros Hb H. destruct (@good_block_identifier pages b Hb) as (w & E).
  unfold Orchestrator.block_record in H. rewrite E in H.
  cbn [nonempty negb] in H.
  destruct (WeightExtractor.extract (b_text b)) as [wt|]; [|discriminate].
  injection H as <-. eexists. split; [reflexivity|].
  cbn [Validator.validate_record invoice_page identifier]. auto.
Qed.

Lemma good_blocks_records pages iy : forall blocks records,
  Forall (SegInv.good_block pages) blocks ->
  blocks_loop iy blocks = Some records ->
  Forall2 (fun b r =>
             invoice_page r = b_page_num b
             /\ IdentifierExtractor.extract (b_text b)
                = Some (identifier r))
          blocks records.
Proof.
  induction blocks as [|b blocks IH]; intros records Hg H;
    cbn [Orchestrator.blocks_loop] in H.
  - injection H as <-. constructor.
  - inversion Hg as [|? ? Hb Hbs]; subst.
    destruct (block_record iy b) as [ob|] eqn:B; [|discriminate].
    destruct (blocks_loop iy blocks) as [rs|] eqn:R; [|discriminate].
    injection H as <-.
    destruct (@good_block_record pages iy b ob Hb B) as (r & -> & Hr).
    cbn [opt_list app]. constructor; auto.
Qed.

End BlockRecords.

(** X16: when [extract_invoice] returns, it returns exactly one record for
    each block of the segmenter, in order: a block always starts with a
    tracking line, in which the strict pattern finds an identifier, so that
    no block is skipped; the record carries the page number of its block and
    the identifier extracted from its text. *)
Theorem every_block_yields_a_record
  (partial_ratio : str -> str -> Q)
  (parse_dayfirst strptime_iso : str -> option Date)
  (countries_get_alpha_2 : str -> bool)
  (countries_lookup : str -> option str)
  (service_extract : str -> option str)
  (location_extract : str -> Locations)
  (pages : list Page) (records : list ShipmentRecord) :
  Orchestrator.extract_invoice partial_ratio parse_dayfirst strptime_iso
    countries_get_alpha_2 countries_lookup service_extract location_extract
    pages = Some records ->
  Forall2 (fun b r =>
             invoice_page r = b_page_num b
             /\ IdentifierExtractor.extract (b_text b)
                = Some (identifier r))
          (Segmenter.segment pages) records
  /\ length records
     = length (filter Segmenter.has_tracking
                 (flat_map Segmenter.kept_lines pages)).
Proof.
  unfold Orchestrator.extract_invoice. intros H.
  destruct (@pages_loop_inv pages pages _ (incl_refl pages)
              (initial_inv pages)) as (Hinv & Hcount).
  destruct (finish_inv Hinv) as (Hgood & Hlen).
  fold (Segmenter.segment pages) in Hgood, Hlen.
  assert (F := @good_blocks_records _ _ _ _ _ _ _ pages _ _ _ Hgood H).
  split; [exact F|].
  rewrite <- (Forall2_length F), Hlen, Hcount. reflexivity.
Qed.

Lemma every_block_yields_a_record_witness :
  let pages := [pg 1 "Rechnung 2025
Sendung 1Z12345678AB am 27.11.2025
Transport 1.234,56 617,28"; pg 2 "Seite 2
1Z99999999XY 2 9,5"] in
  let out := Sample.extract_invoice pages in
  option_map (map identifier) out
  = Some [L "1Z12345678AB"; L "1Z99999999XY"]
  /\ option_map (@length _) out
     = Some (length (filter Segmenter.has_tracking
                       (flat_map Segmenter.kept_lines pages))).
Proof.
  cbv zeta. split; [vm_compute; reflexivity|].
  destruct (Sample.extract_invoice _) as [records|] eqn:E;
    [|vm_compute in E; discriminate E].
  cbn [option_map]. f_equal.
  exact (proj2 (@every_block_yields_a_record _ _ _ _ _ _ _ _ _ E)).
Defined.

(** ** Locations *)

(** *** What every match must read *)

Lemma must_read_run ic P r :
  must_read ic P r = true ->
  forall s s', run ic r s s' ->
  exists w, rest s = w ++ rest s' /\ existsb P w = true.
Proof.
  induction r as [|c|neg items| |a IHa b IHb|a IHa b IHb|a IHa lo hi g
                 |i a IHa| | |];
    intros Hm s s' H; cbn [must_read] in Hm; try discriminate Hm.
  - cbn [run] in H. destruct H as (x & t & E & O & ->). exists [x].
    assert (A := forall_ascii _ Hm x). cbn beta in A. rewrite O in A.
    cbn [implb] in A. cbn [adv rest existsb]. rewrite A. auto.
  - cbn [run] in H. destruct H as (x & t & E & O & ->). exists [x].
    assert (A := forall_ascii _ Hm x). cbn beta in A. rewrite O in A.
    cbn [implb] in A. cbn [adv rest existsb]. rewrite A. auto.
  - cbn [run] in H. destruct H as (x & t & E & O & ->). exists [x].
    assert (A := forall_ascii _ Hm x). cbn beta in A. rewrite O in A.
    cbn [implb negb] in A. cbn [adv rest existsb]. rewrite A. auto.
  - apply run_seq_inv in H. destruct H as (s2 & H1 & H2).
    apply orb_true_iff in Hm. destruct Hm as [Hm | Hm].
    + destruct (IHa Hm _ _ H1) as (w1 & E1 & P1).
      destruct (run_consumed _ _ _ _ H2) as (w2 & E2).
      exists (w1 ++ w2). rewrite E1, E2, app_assoc, existsb_app, P1. auto.
    + destruct (run_consumed _ _ _ _ H1) as (w1 & E1).
      destruct (IHb Hm _ _ H2) as (w2 & E2 & P2).
      exists (w1 ++ w2). rewrite E1, E2, app_assoc, existsb_app, P2.
      split; [reflexivity | apply orb_true_r].
  - apply andb_true_iff in Hm. destruct Hm as [Ha Hb].
    cbn [run] in H. destruct H as [H | H]; eauto.
  - apply andb_true_iff in Hm. destruct Hm as [Hlo Ha].
    apply Nat.ltb_lt in Hlo.
    apply run_rep_inv in H. destruct H as (n & [Hn _] & H).
    destruct n as [|k]; [lia|]. cbn [iter] in H.
    destruct H as (s2 & H1 & H2).
    destruct (IHa Ha _ _ H1) as (w1 & E1 & P1).
    destruct (iter_consumed _ _ _ _ _ H2) as (w2 & E2).
    exists (w1 ++ w2). rewrite E1, E2, app_assoc, existsb_app, P1. auto.
  - apply run_grp_inv in H. destruct H as (s2 & H & ->).
    destruct (IHa Hm _ _ H) as (w & E & Pw). exists w. auto.
Qed.

(** A pattern finds nothing in a text that lacks what it must read. *)
Lemma search_needs ic P r s p :
  must_read ic P r = true -> existsb P s = false ->
  search_from ic r p s = None.
Proof.
  intros Hm Hs.
  destruct (search_from ic r p s) as [mo|] eqn:E; [|reflexivity].
  apply search_from_sound in E.
  destruct E as (pre & p' & s' & e & -> & H & _).
  destruct (must_read_run _ _ _ Hm _ _ H) as (w & Ew & Pw).
  cbn [rest] in Ew. rewrite Ew, !existsb_app, Pw in Hs.
  rewrite orb_true_r in Hs. discriminate Hs.
Qed.

Lemma scan_needs ic P r : forall s p k,
  must_read ic P r = true -> existsb P s = false ->
  scan ic r p s k = [].
Proof.
  intros s p k Hm Hs.
  destruct (scan ic r p s k) as [|mo l] eqn:E; [reflexivity|].
  assert (Hin : In mo (scan ic r p s k)) by (rewrite E; left; reflexivity).
  clear E. revert p k Hin.
  induction s as [|c t IH]; intros p k Hin.
  - destruct k; cbn [scan] in Hin; [|destruct Hin].
    destruct (match_at ic r p []) as [e|] eqn:M; [|destruct Hin].
    apply match_at_sound in M.
    destruct (must_read_run _ _ _ Hm _ _ M) as (w & Ew & Pw).
    cbn [rest] in Ew. destruct w; [discriminate Pw | discriminate Ew].
  - cbn [existsb] in Hs. apply orb_false_iff in Hs. destruct Hs as [Hc Ht].
    destruct k; cbn [scan] in Hin; [|exact (IH Ht _ _ Hin)].
    destruct (match_at ic r p (c :: t)) as [e|] eqn:M;
      [|exact (IH Ht _ _ Hin)].
    apply match_at_sound in M.
    destruct (must_read_run _ _ _ Hm _ _ M) as (w & Ew & Pw).
    cbn [rest] in Ew.
    assert (Hall : existsb P (c :: t) = false)
      by (cbn [existsb]; rewrite Hc, Ht; reflexivity).
    rewrite Ew, existsb_app, Pw in Hall. discriminate Hall.
Qed.

(** *** The characters of the stripped lines *)

Lemma split_on_chars c x : forall s piece,
  In piece (split_on c s) -> In x piece -> In x s.
Proof.
  induction s as [|y s IH]; intros piece Hp Hx; cbn [split_on] in Hp.
  - destruct Hp as [<- | []]. destruct Hx.
  - destruct (ascii_eqb y c).
    + destruct Hp as [<- | Hp]; [destruct Hx|]. right. eauto.
    + destruct (split_on c s) as [|w ws] eqn:E.
      * destruct Hp as [<- | []]. destruct Hx as [<- | []]. left. reflexivity.
      * destruct Hp as [<- | Hp].
        -- destruct Hx as [<- | Hx]; [left; reflexivity|].
           right. apply (IH w); [left; reflexivity | exact Hx].
        -- right. apply (IH piece); [right; exact Hp | exact Hx].
Qed.

Lemma strip_chars s x : In x (strip s) -> In x s.
Proof.
  unfold strip. intros H.
  destruct (rstrip_prefix (lstrip s)) as (sp & E).
  destruct (lstrip_split s) as (sp' & E' & _).
  rewrite E'. apply in_or_app. right. rewrite E. apply in_or_app. auto.
Qed.

Lemma stripped_lines_chars text line x :
  In line (stripped_lines text) -> In x line -> In x text.
Proof.
  unfold stripped_lines. intros Hl Hx. apply filter_In in Hl.
  destruct Hl as [Hl _]. apply in_map_iff in Hl.
  destruct Hl as (piece & <- & Hp).
  apply strip_chars in Hx. eapply split_on_chars; eauto.
Qed.

Lemma absent_existsb (P : ascii -> bool) s :
  (forall x, In x s -> P x = false) -> existsb P s = false.
Proof.
  induction s as [|c t IH]; intros H; [reflexivity|]. cbn [existsb].
  rewrite (H c (or_introl eq_refl)), IH; [reflexivity|].
  intros x Hx. apply H. right. exact Hx.
Qed.

Section NoColon.
Import LocationExtractor.

Lemma inline_needs_colon : must_read true is_colon RE_INLINE = true.
Proof. vm_compute. reflexivity. Qed.

Lemma start_needs_colon keyword :
  must_read true is_colon (block_start keyword) = true.
Proof.
  unfold block_start.
  induction keyword as [|c k IH]; [vm_compute; reflexivity|].
  cbn [lits_of fold_right must_read] in *.
  rewrite orb_assoc in IH.
  fold (lits_of k). rewrite <- !orb_assoc. rewrite <- orb_assoc in IH.
  rewrite IH. apply orb_true_r.
Qed.

Lemma block_without_colon keyword : forall lines,
  (forall line, In line lines -> existsb is_colon line = false) ->
  _extract_block_from keyword lines false = [].
Proof.
  induction lines as [|line more IH]; intros H; [reflexivity|].
  cbn [_extract_block_from].
  assert (Hl := H line (or_introl eq_refl)).
  unfold re_search, re_test, re_search.
  rewrite (@search_needs true is_colon _ line None inline_needs_colon Hl).
  rewrite (@search_needs true is_colon _ line None
             (start_needs_colon keyword) Hl).
  cbn [is_some andb]. apply IH. intros l Hin. apply H. right. exact Hin.
Qed.

End NoColon.

(** X17: a block without a colon has no locations: [extract] returns the
    six fields as [None], whatever pycountry knows. *)
Theorem no_colon_no_locations
  (countries_get_name : str -> option str) (block_text : str) :
  ~ In ":"%char block_text ->
  LocationExtractor.extract countries_get_name block_text = no_locations.
Proof.
  intros Hc.
  unfold LocationExtractor.extract, LocationExtractor._extract_block.
  assert (H : forall line, In line (stripped_lines block_text) ->
                           existsb is_colon line = false).
  { intros line Hl. apply absent_existsb. intros x Hx.
    unfold is_colon, ascii_eqb. apply Ascii.eqb_neq. intros ->.
    apply Hc. eapply stripped_lines_chars; eauto. }
  rewrite !(@block_without_colon _ _ H). reflexivity.
Qed.

Lemma no_colon_no_locations_witness :
  LocationExtractor.extract (fun _ => Some (L "JP"))
    (L "Tokyo 100-0001 Japan
Transport 1,00 2,00")
  = no_locations.
Proof.
  apply no_colon_no_locations. vm_compute.
  intros H. repeat (destruct H as [H | H]; [discriminate H|]). exact H.
Defined.

(** *** The shape of the fields *)

Section LocationShape.
Import LocationExtractor.

Variable countries_get_name : str -> option str.

Lemma zip_shape text :
  zip_ok (opt_bind (re_search false RE_ZIP text) (group 1)).
Proof.
  destruct (re_search false RE_ZIP text) as [mo|] eqn:E; [|exact I].
  cbn [opt_bind]. destruct (group 1 mo) as [z|] eqn:G; [|exact I].
  apply search_from_sound in E.
  destruct E as (pre & p & s & e & _ & H & ->).
  unfold group, mobj_of in G. cbn [m_caps] in G.
  unfold RE_ZIP, between, digit in H. cbn -[at_boundary cls_ok] in H.
  break_run; subst; cbn [rest adv prev caps] in *; subst.
  match goal with H : iter _ _ _ _ |- _ =>
    apply iter_cls_len in H; destruct H as (w & E & Hl & Hw) end.
  cbn [rest] in E. cbn [set_cap caps assoc Nat.eqb rest] in G.
  rewrite E, firstn_consumed in G. injection G as <-.
  cbn [zip_ok]. split; [lia|]. exact (proj1 (digits_plain _ Hw)).
Qed.

Lemma fallback_shape tokens c :
  pycountry_fallback countries_get_name tokens = Some c ->
  exists t, countries_get_name t = Some c.
Proof.
  induction tokens as [|t more IH]; cbn [pycountry_fallback];
    [discriminate|].
  destruct (length t <? 3); [exact IH|].
  destruct (countries_get_name (capitalize t)) as [a|] eqn:E; [|exact IH].
  intros [= <-]. eauto.
Qed.

Lemma country_shape text :
  country_ok countries_get_name (_extract_country countries_get_name text).
Proof.
  unfold _extract_country.
  destruct (find _ COUNTRY_MAP) as [kv|] eqn:F.
  - apply find_some in F. left. apply in_map. exact (proj1 F).
  - destruct (pycountry_fallback _ _) as [c|] eqn:E; [|exact I].
    right. exact (fallback_shape _ E).
Qed.

Lemma sub_from_chars ic r repl (P : ascii -> bool) :
  forallb P repl = true ->
  forall s p skip, forallb P s = true ->
                   forallb P (sub_from ic r repl p s skip) = true.
Proof.
  intros Hr. induction s as [|c t IH]; intros p skip Hs; [reflexivity|].
  cbn [forallb] in Hs. apply andb_true_iff in Hs. destruct Hs as [Hc Ht].
  cbn [sub_from]. destruct skip as [|n]; [|apply IH, Ht].
  destruct (match_at ic r p (c :: t)) as [e|].
  - destruct (length (c :: t) - length (rest e)).
    + cbn [forallb]. rewrite Hc. apply IH, Ht.
    + rewrite forallb_app, Hr. apply IH, Ht.
  - cbn [forallb]. rewrite Hc. apply IH, Ht.
Qed.

Lemma forallb_strip (P : ascii -> bool) s :
  forallb P s = true -> forallb P (strip s) = true.
Proof.
  rewrite !forallb_forall. intros H x Hx. apply H, strip_chars, Hx.
Qed.

Lemma forallb_filter_same (P : ascii -> bool) s :
  forallb P (filter P s) = true.
Proof.
  apply forallb_forall. intros x Hx. apply filter_In in Hx. tauto.
Qed.

Lemma city_shape (raw : str) (country : option str) :
  let city_line :=
    strip (re_sub false RE_BLANKS (L " ") (filter city_char raw)) in
  let city_line :=
    if negb (nonempty city_line)
       && CostExtractor.opt_eqb str_eqb country (Some (L "HK"))
    then L "HONG KONG" else city_line in
  city_ok (if nonempty city_line then Some city_line else None).
Proof.
  cbn zeta.
  set (cl := strip (re_sub false RE_BLANKS (L " ") (filter city_char raw))).
  assert (Hcl : forallb city_char cl = true).
  { apply forallb_strip. unfold re_sub. apply sub_from_chars.
    - reflexivity.
    - apply forallb_filter_same. }
  destruct cl as [|x t] eqn:E.
  - cbn [nonempty negb andb].
    destruct (CostExtractor.opt_eqb str_eqb country (Some (L "HK")));
      [|exact I].
    cbn [nonempty city_ok]. split; [discriminate|].
    split; vm_compute; reflexivity.
  - cbn [nonempty negb andb city_ok]. split; [discriminate|].
    split; [|exact Hcl].
    rewrite <- E. unfold cl. apply strip_idem.
Qed.

Lemma parse_block_shape block :
  let '(city, zipcode, country) := _parse_block countries_get_name block in
  city_ok city /\ zip_ok zipcode /\ country_ok countries_get_name country.
Proof.
  unfold _parse_block. destruct block as [|b bs]; [cbn; auto|].
  cbn zeta. split; [apply city_shape|].
  split; [apply zip_shape | apply country_shape].
Qed.

End LocationShape.

(** X18: whatever the block and whatever pycountry knows, the zip codes
    that [LocationExtractor.extract] returns are three to seven digits, the
    cities are not empty, have no white space around them and hold only
    letters, digits, white space and hyphens, and the countries are codes of
    [COUNTRY_MAP] or answers of pycountry. *)
Theorem location_fields_shape
  (countries_get_name : str -> option str) (block_text : str) :
  let l := LocationExtractor.extract countries_get_name block_text in
  (zip_ok (l_origin_zipcode l) /\ zip_ok (l_destination_zipcode l))
  /\ (city_ok (l_origin_city l) /\ city_ok (l_destination_city l))
  /\ (country_ok countries_get_name (l_origin_country l)
      /\ country_ok countries_get_name (l_destination_country l)).
Proof.
  cbn zeta. unfold LocationExtractor.extract.
  assert (Ho := parse_block_shape countries_get_name
                  (LocationExtractor._extract_block
                     (stripped_lines block_text)
                     LocationExtractor.versender)).
  assert (Hd := parse_block_shape countries_get_name
                  (LocationExtractor._extract_block
                     (stripped_lines block_text)
                     LocationExtractor.empfaenger)).
  destruct (LocationExtractor._parse_block countries_get_name
              (LocationExtractor._extract_block _
                 LocationExtractor.versender)) as [[oc oz] octry].
  destruct (LocationExtractor._parse_block countries_get_name
              (LocationExtractor._extract_block _
                 LocationExtractor.empfaenger)) as [[dc dz] dctry].
  cbn [l_origin_zipcode l_destination_zipcode l_origin_city
       l_destination_city l_origin_country l_destination_country].
  tauto.
Qed.

(** ** Blocks without digits *)

Lemma match_needs ic P r p s :
  must_read ic P r = true -> existsb P s = false ->
  match_at ic r p s = None.
Proof.
  intros Hm Hs. destruct (match_at ic r p s) as [e|] eqn:E; [|reflexivity].
  apply match_at_sound in E.
  destruct (must_read_run _ _ _ Hm _ _ E) as (w & Ew & Pw).
  cbn [rest] in Ew. rewrite Ew, existsb_app, Pw in Hs. discriminate Hs.
Qed.

Section NoDigits.
Import WeightExtractor.

Variable line : str.
Hypothesis no_digit : existsb is_digit line = false.

Lemma pass1_no_digit w : pass1_step w line = w.
Proof.
  unfold pass1_step. destruct (_ || _); [|reflexivity].
  unfold re_search.
  rewrite (@search_needs false is_digit RE_INT_FLOAT line None eq_refl
             no_digit).
  rewrite (@search_needs true is_digit RE_NUM_PKG line None eq_refl
             no_digit).
  reflexivity.
Qed.

Lemma pass2_no_digit w : pass2_step w line = w.
Proof.
  unfold pass2_step, re_search.
  rewrite (@search_needs true is_digit RE_PAKETE line None eq_refl no_digit).
  reflexivity.
Qed.

Lemma numbers_no_digit : findall1 false RE_NUMBER line = [].
Proof.
  unfold findall1, finditer.
  rewrite (@scan_needs false is_digit RE_NUMBER line None 0 eq_refl
             no_digit).
  reflexivity.
Qed.

Lemma pass3_no_digit w : pass3_step w line = w.
Proof.
  unfold pass3_step, last_number. rewrite numbers_no_digit.
  cbn [last_opt rev option_map].
  destruct (re_test true RE_WEIGHT_KW line), (re_test true RE_LM line),
    (re_test true RE_CBM line); reflexivity.
Qed.

Lemma pass4_no_digit w : pass4_step w line = Some w.
Proof.
  unfold pass4_step. rewrite numbers_no_digit. cbn [filter map].
  destruct (contains _ _); reflexivity.
Qed.

End NoDigits.

Lemma fold_fixed {A} (f : A -> str -> A) (lines : list str) (a : A) :
  (forall l x, In l lines -> f x l = x) -> fold_left f lines a = a.
Proof.
  revert a. induction lines as [|l lines IH]; intros a H; [reflexivity|].
  cbn [fold_left]. rewrite (H l a (or_introl eq_refl)).
  apply IH. intros l' x Hl'. apply H. right. exact Hl'.
Qed.

Lemma weights_no_digit lines :
  (forall l, In l lines -> existsb is_digit l = false) ->
  WeightExtractor.passes lines = Some WeightExtractor.no_weights.
Proof.
  intros H. unfold WeightExtractor.passes, WeightExtractor.pass4.
  rewrite (fold_fixed WeightExtractor.pass1_step)
    by (intros l x Hl; apply pass1_no_digit, H, Hl).
  rewrite (fold_fixed WeightExtractor.pass2_step)
    by (intros l x Hl; apply pass2_no_digit, H, Hl).
  rewrite (fold_fixed WeightExtractor.pass3_step)
    by (intros l x Hl; apply pass3_no_digit, H, Hl).
  generalize WeightExtractor.no_weights as w.
  induction lines as [|l lines IH]; intros w; [reflexivity|].
  cbn [fold_left opt_bind]. rewrite pass4_no_digit by (apply H; left; auto).
  apply IH. intros l' Hl'. apply H. right. exact Hl'.
Qed.

Lemma costs_no_digit partial_ratio cur lines :
  (forall l, In l lines -> existsb is_digit (strip l) = false) ->
  forall acc,
    fold_left (CostExtractor.cost_step partial_ratio cur) lines acc = acc.
Proof.
  intros H acc. apply fold_fixed. intros l x Hl.
  unfold CostExtractor.cost_step, CostExtractor.row_item.
  destruct (strip l) as [|c t] eqn:E; [reflexivity|].
  destruct (existsb _ CostExtractor.SKIP_KEYWORDS); [reflexivity|].
  unfold re_match.
  rewrite (@match_needs false is_digit CostExtractor.ROW_RE None (c :: t)
             eq_refl).
  - reflexivity.
  - rewrite <- E. apply H, Hl.
Qed.

(** X19: a block of characters below U+0100, as the strings here are, that
    holds none of the digits 0 to 9 yields no date, no weight and no cost
    item: [DateExtractor.extract] returns [None], [WeightExtractor.extract]
    returns its five fields as [None] (and does not raise), and
    [CostExtractor.extract] returns the empty list. (Beyond U+00FF there are
    further decimal digits, which [\d], [int] and [float] accept.) *)
Theorem digit_free_block
  (parse_dayfirst : str -> option Date) (partial_ratio : str -> str -> Q)
  (invoice_year : option nat) (block_text : str) :
  existsb is_digit block_text = false ->
  DateExtractor.extract parse_dayfirst block_text invoice_year = None
  /\ WeightExtractor.extract block_text = Some WeightExtractor.no_weights
  /\ CostExtractor.extract partial_ratio block_text = [].
Proof.
  intros H.
  assert (Hx : forall x, In x block_text -> is_digit x = false).
  { intros x Hx. destruct (is_digit x) eqn:D; [|reflexivity].
    assert (existsb is_digit block_text = true); [|congruence].
    apply existsb_exists. eauto. }
  split; [|split].
  - unfold DateExtractor.extract, DateExtractor.candidates,
      DateExtractor.findall3, finditer, DateExtractor.RE_NUMERIC.
    cbn [flat_map].
    rewrite !(fun r Hr => @scan_needs false is_digit r block_text None 0
                            Hr H) by reflexivity.
    reflexivity.
  - unfold WeightExtractor.extract. apply weights_no_digit.
    intros l Hl. apply absent_existsb. intros x Hxl. apply Hx.
    unfold WeightExtractor.clean_lines in Hl. apply filter_In in Hl.
    eapply stripped_lines_chars; [exact (proj1 Hl) | exact Hxl].
  - unfold CostExtractor.extract. rewrite costs_no_digit; [reflexivity|].
    intros l Hl. apply absent_existsb. intros x Hxl. apply Hx.
    apply strip_chars in Hxl. eapply split_on_chars; eauto.
Qed.

Lemma digit_free_block_witness :
  let text := L "Versender: Berlin
Express Saver, Gewicht unbekannt" in
  DateExtractor.extract Sample.parse_dayfirst text (Some 2025) = None
  /\ WeightExtractor.extract text = Some WeightExtractor.no_weights
  /\ CostExtractor.extract Sample.partial_ratio text = [].
Proof.
  apply digit_free_block. vm_compute. reflexivity.
Defined.
(** * Cost rows: the value of the total *)

Section GermanNumbers.
Import CostExtractor.

Local Abbreviation is_german g :=
  (exists groups decimals,
     german_ok groups decimals /\ g = german groups decimals).

Lemma digit_is_digit w :
  forallb (cls_ok false false [CDigit]) w = true -> forallb is_digit w = true.
Proof. intros H. exact (proj1 (digits_plain _ H)). Qed.

(** The groups after the first: a point and three digits each. *)
Lemma iter_point_groups n : forall s s',
  iter (run false (Lit "." ;; exactly digit 3)%re) n s s' ->
  exists gs,
    Forall (fun g => g <> [] /\ forallb is_digit g = true) gs
    /\ rest s = concat (map (fun g => "."%char :: g) gs) ++ rest s'.
Proof.
  induction n as [|n IH]; intros s s' H; cbn [iter] in H.
  - subst. exists []. split; [constructor | reflexivity].
  - destruct H as (s2 & H1 & H2).
    apply run_seq_inv in H1. destruct H1 as (s1 & Hp & Hd).
    cbn [run] in Hp. destruct Hp as (x & t & E & O & ->).
    unfold lit_ok, ascii_eqb in O. apply Ascii.eqb_eq in O. subst x.
    unfold exactly in Hd. apply run_rep_inv in Hd.
    destruct Hd as (k & [Hk _] & Hd).
    apply iter_cls_len in Hd. destruct Hd as (g & Eg & Lg & Fg).
    cbn [rest adv] in Eg.
    destruct (IH _ _ H2) as (gs & Hgs & Egs).
    exists (g :: gs). split.
    + constructor; [|exact Hgs]. split; [|apply digit_is_digit, Fg].
      destruct g; [cbn in Lg; lia | discriminate].
    + cbn [map concat]. rewrite E, Eg, Egs, <- app_assoc. reflexivity.
Qed.

Lemma join_points g gs :
  join (L ".") (g :: gs) = g ++ concat (map (fun w => "."%char :: w) gs).
Proof.
  revert g. induction gs as [|h gs IH]; intros g.
  - cbn [join map concat]. rewrite app_nil_r. reflexivity.
  - change (join (L ".") (g :: h :: gs))
      with (g ++ L "." ++ join (L ".") (h :: gs)).
    rewrite IH. reflexivity.
Qed.

(** What the pattern of a German number reads. *)
Lemma german_shape s s' :
  run false german_number s s' ->
  exists groups decimals,
    german_ok groups decimals
    /\ rest s = german groups decimals ++ rest s'.
Proof.
  unfold german_number. intros H.
  apply run_seq_inv in H. destruct H as (s1 & H0 & H).
  apply run_seq_inv in H. destruct H as (s2 & Hg & H).
  apply run_seq_inv in H. destruct H as (s3 & Hc & Hd).
  unfold between in H0, Hd. apply run_rep_inv in H0, Hd.
  destruct H0 as (n0 & [Hn0 _] & H0). destruct Hd as (n2 & Hn2 & Hd).
  apply iter_cls_len in H0. destruct H0 as (g0 & E0 & L0 & F0).
  apply iter_cls_len in Hd. destruct Hd as (f & Ef & Lf & Ff).
  unfold star in Hg. apply run_rep_inv in Hg. destruct Hg as (n & _ & Hg).
  apply iter_point_groups in Hg. destruct Hg as (gs & Hgs & Egs).
  cbn [run] in Hc. destruct Hc as (x & t & E & O & ->).
  unfold lit_ok, ascii_eqb in O. apply Ascii.eqb_eq in O. subst x.
  cbn [rest adv] in Ef.
  exists (g0 :: gs), f. split.
  - split; [discriminate|]. split.
    + constructor; [|exact Hgs]. split; [|apply digit_is_digit, F0].
      destruct g0; [cbn in L0; lia | discriminate].
    + unfold rep_bound in Hn2. split; [lia | apply digit_is_digit, Ff].
  - unfold german. rewrite join_points, E0, Egs, E, Ef.
    unfold L. cbn [list_ascii_of_string app]. rewrite <- !app_assoc.
    reflexivity.
Qed.

Lemma german_atoms : atoms_ok false german_char german_number = true.
Proof. vm_compute. reflexivity. Qed.

(** A German number reads at least one character, all digits, points or
    commas. *)
Lemma german_reads s s' :
  run false german_number s s' ->
  exists g, rest s = g ++ rest s' /\ g <> [] /\ forallb german_char g = true
            /\ is_german g.
Proof.
  intros H.
  destruct (@run_reads false german_char _ german_atoms s s' H)
    as (g & E & F).
  exists g. repeat split; auto.
  2:{ destruct (german_shape H) as (groups & decimals & Hok & E').
      exists groups, decimals. split; [exact Hok|].
      rewrite E in E'. apply app_inv_tail in E'. exact E'. }
  intros ->. simpl in E.
  unfold german_number in H. apply run_seq_inv in H.
  destruct H as (s2 & H1 & H2).
  apply run_consumed in H2. destruct H2 as (w2 & E2).
  unfold between in H1. apply run_rep_inv in H1.
  destruct H1 as (n & [Hn _] & H1). destruct n as [|k]; [lia|].
  cbn [iter] in H1. destruct H1 as (s3 & H3 & H4).
  apply iter_consumed in H4. destruct H4 as (w4 & E4).
  unfold digit in H3. cbn [run] in H3.
  destruct H3 as (x & t & Ex & _ & ->). cbn [rest adv] in E4.
  assert (L1 := f_equal (@length _) E).
  rewrite Ex, E4, E2 in L1. cbn [length] in L1.
  rewrite !length_app in L1. lia.
Qed.

(** The columns: at least two numbers, the last one preceded by a blank. *)
Lemma numcols_reads s s' :
  run false (plus (Grp 3 (german_number ;; plus space)) ;; german_number)%re
      s s' ->
  exists W x g, rest s = (W ++ x :: g) ++ rest s' /\ is_space x = true /\
                g <> [] /\ forallb german_char g = true /\ is_german g.
Proof.
  intros H. apply run_seq_inv in H. destruct H as (s2 & H1 & H2).
  apply german_reads in H2. destruct H2 as (g & Eg & Hne & Hg & Hs).
  unfold plus at 1 in H1. apply run_rep_inv in H1.
  destruct H1 as (n & [Hn _] & H1). destruct n as [|k]; [lia|].
  apply iter_snoc in H1. destruct H1 as (m & Hk & Hl).
  apply iter_consumed in Hk. destruct Hk as (W0 & E0).
  apply run_grp_inv in Hl. destruct Hl as (s3 & Hl & ->).
  apply run_seq_inv in Hl. destruct Hl as (s4 & Hg' & Hsp).
  apply run_consumed in Hg'. destruct Hg' as (g' & Eg').
  apply plus_space_last in Hsp. destruct Hsp as (w & x & Ew & Hx).
  exists (W0 ++ g' ++ w), x, g. repeat split; auto.
  rewrite E0, Eg', Ew. cbn [rest set_cap] in Eg. rewrite Eg.
  rewrite <- !app_assoc. reflexivity.
Qed.

(** The shape of a line that matches the row pattern. *)
Lemma row_shape line mo gn :
  re_match false ROW_RE line = Some mo -> group g_numcols mo = Some gn ->
  exists D W x g tail,
    line = D ++ gn ++ tail /\ gn = W ++ x :: g /\ is_space x = true /\
    g <> [] /\ forallb german_char g = true /\ is_german g /\
    (tail = [] \/ tail = ["010"%char]).
Proof.
  unfold re_match. intros H G.
  destruct (match_at false ROW_RE None line) as [e|] eqn:E; [|discriminate].
  injection H as <-. apply match_at_sound in E.
  unfold group, mobj_of in G. cbn [m_caps] in G.
  unfold ROW_RE in E.
  apply run_seq_inv in E. destruct E as (s1 & Hb & E).
  cbn [run] in Hb. destruct Hb as [_ ->].
  apply run_seq_inv in E. destruct E as (s2 & Hd & E).
  apply run_grp_inv in Hd. destruct Hd as (s3 & Hd & ->).
  apply run_seq_inv in E. destruct E as (s4 & Hsp & E).
  apply run_seq_inv in E. destruct E as (s5 & Hn & He).
  apply run_grp_inv in Hn. destruct Hn as (s6 & Hn & ->).
  cbn [run] in He. destruct He as [He ->].
  cbn [rest set_cap caps prev] in *.
  apply run_consumed in Hd. destruct Hd as (D1 & ED1). cbn [rest] in ED1.
  apply run_consumed in Hsp. destruct Hsp as (D2 & ED2).
  cbn [rest set_cap] in ED2.
  apply numcols_reads in Hn.
  destruct Hn as (W & x & g & En & Hx & Hne & Hg & Hs).
  unfold g_numcols in G. cbn [assoc Nat.eqb] in G.
  rewrite En, firstn_consumed in G. injection G as <-.
  exists (D1 ++ D2), W, x, g, (rest s6).
  repeat split; auto.
  rewrite ED1, ED2, En, <- !app_assoc. reflexivity.
Qed.

End GermanNumbers.

Section RowTotal.
Import CostExtractor.

Local Abbreviation is_german g :=
  (exists groups decimals,
     german_ok groups decimals /\ g = german groups decimals).

Variable partial_ratio : str -> str -> Q.

(** The item of a row: its total is read from the last word of the line. *)
Lemma row_item_total cur raw it :
  row_item partial_ratio cur raw = Some it ->
  exists g, mention it = Some (strip raw) /\
            last_opt (split_ws (strip raw)) = Some g /\
            is_german g /\
            total_cost_in_shipment_currency it = _to_float g.
Proof.
  unfold row_item.
  destruct (strip raw) as [|c0 line0] eqn:Hline; [discriminate|].
  destruct (existsb _ SKIP_KEYWORDS); [discriminate|].
  destruct (re_match false ROW_RE (c0 :: line0)) as [mo|] eqn:M;
    [|discriminate].
  destruct (group g_desc mo); [|discriminate].
  destruct (group g_numcols mo) as [gn|] eqn:G; [|discriminate].
  destruct (row_shape _ M G)
    as (D & W & x & g & tail & El & En & Hx & Hne & Hg & Hs & Ht).
  assert (Hw := german_word _ Hg).
  assert (Hlast : last_opt (split_ws gn) = Some g).
  { rewrite En. apply split_ws_aux_last; auto. }
  rewrite Hlast. intros [= <-]. cbn [mention total_cost_in_shipment_currency].
  exists g. repeat split; auto.
  assert (Htail : tail = []).
  { destruct Ht as [-> | ->]; [reflexivity|]. exfalso.
    rewrite app_assoc in El. rewrite <- Hline in El.
    apply strip_last in El. vm_compute in El. discriminate El. }
  subst tail. rewrite El, app_nil_r, En, app_assoc.
  apply split_ws_aux_last; auto.
Qed.

End RowTotal.

Section GermanValue.
Import CostExtractor.

Lemma class_of_digits w :
  forallb is_digit w = true -> forallb (cls_ok false false [CDigit]) w = true.
Proof.
  induction w as [|x w IH]; cbn [forallb]; [reflexivity|].
  intros H. apply andb_true_iff in H. destruct H as [Hx Hw].
  rewrite (IH Hw), andb_true_r.
  unfold cls_ok, items_have. cbn [existsb citem_has xorb].
  rewrite Hx. reflexivity.
Qed.

Lemma digits_no_point w : forallb is_digit w = true -> ~ In "."%char w.
Proof.
  intros H. exact (proj1 (proj2 (digits_plain _ (@class_of_digits w H)))).
Qed.

Lemma digits_no_comma w :
  forallb is_digit w = true -> replace_c "," (L ".") w = w.
Proof.
  intros H. exact (proj2 (proj2 (digits_plain _ (@class_of_digits w H)))).
Qed.

Lemma concat_digits groups :
  Forall (fun g : str => g <> [] /\ forallb is_digit g = true) groups ->
  forallb is_digit (concat groups) = true.
Proof.
  induction 1 as [|g gs [_ Hg] _ IH]; [reflexivity|].
  cbn [concat]. rewrite forallb_app, Hg, IH. reflexivity.
Qed.

(** Without its points, the integer part is the digits of its groups. *)
Lemma join_without_points groups :
  Forall (fun g : str => g <> [] /\ forallb is_digit g = true) groups ->
  replace_c "." [] (join (L ".") groups) = concat groups.
Proof.
  induction 1 as [|g gs [_ Hg] Hgs IH]; [reflexivity|].
  destruct gs as [|h gs].
  - cbn [join concat]. rewrite app_nil_r.
    apply replace_c_same. apply digits_no_point, Hg.
  - change (join (L ".") (g :: h :: gs))
      with (g ++ L "." ++ join (L ".") (h :: gs)).
    rewrite !replace_c_app, IH.
    rewrite (@replace_c_same "." [] g (@digits_no_point g Hg)).
    reflexivity.
Qed.

(** [_to_float] on a German number: the float nearest to its value, if that
    is below [1e7]. *)
Lemma to_float_german groups decimals :
  german_ok groups decimals ->
  _to_float (german groups decimals)
  = below_1e7 (binary64 (german_value groups decimals)).
Proof.
  intros (Hne & Hg & Hl & Hd).
  assert (Hi := concat_digits Hg).
  assert (Hi' : concat groups <> []).
  { destruct groups as [|g gs]; [congruence|].
    inversion Hg as [|? ? [Hg0 _] _]; subst.
    cbn [concat]. destruct g; [congruence | discriminate]. }
  unfold _to_float.
  destruct (german groups decimals) as [|c0 t0] eqn:E.
  { exfalso. unfold german in E. apply app_eq_nil in E.
    destruct E as [_ E]. discriminate E. }
  cbv beta iota zeta. rewrite <- E. unfold german.
  rewrite !replace_c_app, (join_without_points Hg).
  rewrite (@replace_c_same "." [] decimals (@digits_no_point decimals Hd)).
  change (replace_c "." [] (L ",")) with (L ",").
  rewrite (@digits_no_comma _ Hi), (@digits_no_comma _ Hd).
  change (replace_c "," (L ".") (L ",")) with (L ".").
  assert (F : forallb (cls_ok false false [CDigit]) (concat groups ++ decimals)
              = true).
  { apply class_of_digits. rewrite forallb_app, Hi, Hd. reflexivity. }
  rewrite (proj2 (@py_float_decimal _ _ Hi' F)). reflexivity.
Qed.

(** With at most two decimals, the float is below [1e7] exactly when the
    number is. *)
Lemma german_below groups decimals :
  german_ok groups decimals ->
  below_1e7 (binary64 (german_value groups decimals)) = None
  <-> (inject_Z 10000000 <= german_value groups decimals)%Q.
Proof.
  intros (_ & _ & Hl & _).
  rewrite binary64_below_1e7. unfold german_value, decimal, Qle, inject_Z.
  cbn [Qnum Qden].
  set (N := digits_Z (concat groups ++ decimals)).
  destruct decimals as [|a [|b [|c d]]]; cbn [length] in Hl; try lia;
    cbn [length Z.of_nat Pos.of_succ_nat Pos.succ];
    [change (Z.pos (Z.to_pos (10 ^ 1))) with 10%Z
    |change (Z.pos (Z.to_pos (10 ^ 2))) with 100%Z];
    change (2 ^ 30)%Z with 1073741824%Z; lia.
Qed.

End GermanValue.

(** C7, as stated, fails: a row whose rightmost number is 10 000 000 or more
    is matched like any other, and its total is null, not the number. *)
Lemma rightmost_number_is_total_counterexample :
  let line := L "Transport 1,00 10.000.000,00" in
  last_opt (split_ws line)
  = Some (german [L "10"; L "000"; L "000"] (L "00"))
  /\ (german_value [L "10"; L "000"; L "000"] (L "00") == 10000000)%Q
  /\ map (fun it => (mention it, total_cost_in_shipment_currency it))
         (CostExtractor.extract Sample.partial_ratio line)
     = [(Some line, None)].
Proof. cbv zeta. repeat split; vm_compute; reflexivity. Qed.

(** C7, amended: every cost item carries the line it comes from, and the
    last word of that line is the rightmost number of the row, in German
    format. The total is the float nearest to that number when the number
    is below 10 000 000, and null from there on. In particular the row
    "Transport 1.234,56 617,28" yields the total 617.28, the float
    2714826150374277 / 2^42. *)
Theorem rightmost_number_is_total
  (partial_ratio : str -> str -> Q) (text : str) :
  (forall it, In it (CostExtractor.extract partial_ratio text) ->
     exists line groups decimals,
       mention it = Some line
       /\ last_opt (split_ws line) = Some (german groups decimals)
       /\ german_ok groups decimals
       /\ ((german_value groups decimals < inject_Z 10000000)%Q ->
           exists x, binary64 (german_value groups decimals) = Finite x
                     /\ total_cost_in_shipment_currency it = Some x)
       /\ ((inject_Z 10000000 <= german_value groups decimals)%Q ->
           total_cost_in_shipment_currency it = None))
  /\ (let x := 2714826150374277 # 4398046511104 in
      py_float (L "617.28") = Some (Finite x)
      /\ map total_cost_in_shipment_currency
             (CostExtractor.extract partial_ratio
                (L "Transport 1.234,56 617,28")) = [Some x]).
Proof.
  split.
  - intros it Hin. unfold CostExtractor.extract in Hin.
    destruct (@cost_loop_inv partial_ratio
                (CostExtractor._detect_invoice_currency text)
                (split_on "010" text) ([], []))
      as (_ & _ & _ & _ & Ho); [reflexivity | constructor |].
    destruct (Ho it Hin) as [[] | (raw & _ & Hrow)].
    apply row_item_total in Hrow.
    destruct Hrow as (g & Hm & Hl & (groups & decimals & Hok & ->) & Ht).
    exists (strip raw), groups, decimals.
    split; [exact Hm|]. split; [exact Hl|]. split; [exact Hok|].
    rewrite Ht, (to_float_german Hok).
    assert (B := german_below Hok).
    destruct (binary64 (german_value groups decimals)) as [x|] eqn:E.
    + split.
      * intros Hlt. exists x. split; [reflexivity|].
        destruct (below_1e7 (Finite x)) as [y|] eqn:Ey.
        -- unfold below_1e7 in Ey.
           destruct (Qle_bool _ x); [discriminate | congruence].
        -- exfalso. apply (Qlt_not_le _ _ Hlt). apply B. reflexivity.
      * intros Hle. apply B, Hle.
    + split; [|reflexivity].
      intros Hlt. exfalso. apply (Qlt_not_le _ _ Hlt). apply B. reflexivity.
  - cbv zeta. split; vm_compute; reflexivity.
Qed.

Lemma rightmost_number_is_total_witness :
  let text := L "Gesamtkosten EUR 1.851,84
Transport 1.234,56 617,28
Maut 12,00 9.999.999,99" in
  let it := nth 1 (CostExtractor.extract Sample.partial_ratio text)
                (mkCostItem None None None None) in
  exists line groups decimals,
    mention it = Some line
    /\ last_opt (split_ws line) = Some (german groups decimals)
    /\ german_ok groups decimals
    /\ ((german_value groups decimals < inject_Z 10000000)%Q ->
        exists x, binary64 (german_value groups decimals) = Finite x
                  /\ total_cost_in_shipment_currency it = Some x)
    /\ ((inject_Z 10000000 <= german_value groups decimals)%Q ->
        total_cost_in_shipment_currency it = None).
Proof.
  cbv zeta.
  apply (proj1 (@rightmost_number_is_total Sample.partial_ratio
                  (L "Gesamtkosten EUR 1.851,84
Transport 1.234,56 617,28
Maut 12,00 9.999.999,99"))).
  vm_compute. auto.
Defined.

(** * Cost items: the key of the deduplication *)

Section CostKeys.
Import CostExtractor.

Variable partial_ratio : str -> str -> Q.

(** The floats of the model are in lowest terms. *)
Lemma Qred_twice q : Qred (Qred q) = Qred q.
Proof. apply Qred_complete, Qred_correct. Qed.

Lemma binary64_canonical q x : binary64 q = Finite x -> Qred x = x.
Proof.
  unfold binary64. destruct (Qnum q <=? 0)%Z.
  - intros [= <-]. reflexivity.
  - destruct (_ <=? _)%Z; [discriminate|].
    match goal with |- Finite (Qred ?X) = _ -> _ => generalize X end.
    intros X H. injection H as H. rewrite <- H. apply Qred_twice.
Qed.

Lemma to_float_canonical s x : _to_float s = Some x -> Qred x = x.
Proof.
  unfold _to_float. destruct s as [|c t]; [discriminate|].
  destruct (py_float _) as [[v|]|] eqn:E; cbn [opt_bind below_1e7];
    try discriminate.
  destruct (Qle_bool _ v); [discriminate|]. intros [= <-].
  unfold py_float in E.
  destruct (split_on "." _) as [|i [|f [|? ?]]]; try discriminate;
    destruct (_ && _); try discriminate;
    injection E as E; exact (binary64_canonical _ E).
Qed.

Lemma row_item_canonical cur raw it x :
  row_item partial_ratio cur raw = Some it ->
  total_cost_in_shipment_currency it = Some x -> Qred x = x.
Proof.
  intros H Hx. apply row_item_total in H.
  destruct H as (g & _ & _ & _ & Ht). rewrite Ht in Hx.
  exact (to_float_canonical _ Hx).
Qed.

Lemma opt_str_eqb_eq (a b : option str) :
  opt_eqb str_eqb a b = true -> a = b.
Proof.
  destruct a, b; cbn [opt_eqb]; try discriminate; [|reflexivity].
  intros H. apply str_eqb_eq in H. congruence.
Qed.

(** Items with equal keys have the same category, total and currency, the
    totals being floats in lowest terms. *)
Lemma sig_eqb_fields a b :
  (forall x, total_cost_in_shipment_currency a = Some x -> Qred x = x) ->
  (forall x, total_cost_in_shipment_currency b = Some x -> Qred x = x) ->
  sig_eqb (sig_of a) (sig_of b) = true ->
  (extracted_category a, total_cost_in_shipment_currency a, currency a)
  = (extracted_category b, total_cost_in_shipment_currency b, currency b).
Proof.
  intros Ca Cb H. unfold sig_eqb, sig_of in H.
  apply andb_true_iff in H. destruct H as [H Hu].
  apply andb_true_iff in H. destruct H as [Hc Hv].
  apply opt_str_eqb_eq in Hc, Hu. rewrite Hc, Hu.
  destruct (total_cost_in_shipment_currency a) as [x|],
           (total_cost_in_shipment_currency b) as [y|];
    cbn [opt_eqb] in Hv; try discriminate; [|reflexivity].
  apply Qeq_bool_iff, Qred_complete in Hv.
  rewrite (Ca x eq_refl), (Cb y eq_refl) in Hv. rewrite Hv. reflexivity.
Qed.

Lemma fields_sig_eqb a b :
  (extracted_category a, total_cost_in_shipment_currency a, currency a)
  = (extracted_category b, total_cost_in_shipment_currency b, currency b) ->
  sig_eqb (sig_of a) (sig_of b) = true.
Proof.
  intros H. unfold sig_of. rewrite H. apply sig_eqb_refl.
Qed.

Lemma ordered_pairs_nth {A} (R : A -> A -> Prop) (l : list A) :
  ForallOrdPairs R l ->
  forall i j a b, i < j -> nth_error l i = Some a -> nth_error l j = Some b ->
                  R a b.
Proof.
  induction 1 as [|x l Hx _ IH]; intros i j a b Hij Ha Hb.
  - destruct i; discriminate Ha.
  - destruct j as [|j]; [lia|]. cbn [nth_error] in Hb.
    destruct i as [|i]; cbn [nth_error] in Ha.
    + injection Ha as <-. rewrite Forall_forall in Hx.
      apply Hx. eapply nth_error_In; eauto.
    + apply (IH i j); auto. lia.
Qed.

End CostKeys.

(** C8: within one block no two cost items have the same category, the same
    total and the same currency. Every row is represented by exactly one
    item with the row's category, total and currency, so that rows with the
    same three collapse to one item, and rows of different currencies are
    represented by different items, whatever their categories and totals;
    and every item comes from a row. *)
Theorem cost_items_unique (partial_ratio : str -> str -> Q) (text : str) :
  let triple := fun it : CostItem =>
    (extracted_category it, total_cost_in_shipment_currency it,
     currency it) in
  let items := CostExtractor.extract partial_ratio text in
  let row := CostExtractor.row_item partial_ratio
               (CostExtractor._detect_invoice_currency text) in
  (forall i j a b,
     nth_error items i = Some a -> nth_error items j = Some b ->
     triple a = triple b -> i = j)
  /\ (forall raw it,
        In raw (split_on "010" text) -> row raw = Some it ->
        exists i a, nth_error items i = Some a /\ triple a = triple it)
  /\ (forall raw1 raw2 it1 it2,
        In raw1 (split_on "010" text) -> row raw1 = Some it1 ->
        In raw2 (split_on "010" text) -> row raw2 = Some it2 ->
        currency it1 <> currency it2 ->
        exists i j a b,
          i <> j /\ nth_error items i = Some a /\ nth_error items j = Some b
          /\ triple a = triple it1 /\ triple b = triple it2)
  /\ (forall it, In it items ->
        exists raw, In raw (split_on "010" text) /\ row raw = Some it).
Proof.
  cbn zeta. unfold CostExtractor.extract.
  destruct (@cost_loop_inv partial_ratio
              (CostExtractor._detect_invoice_currency text)
              (split_on "010" text) ([], []))
    as (_ & Hd & _ & Hr & Ho); [reflexivity | constructor |].
  cbn zeta in Hd, Hr, Ho.
  set (items := fst (fold_left _ _ _)) in *.
  assert (Hfrom : forall it, In it items ->
            exists raw, In raw (split_on "010" text)
                        /\ CostExtractor.row_item partial_ratio
                             (CostExtractor._detect_invoice_currency text)
                             raw = Some it).
  { intros it Hit. destruct (Ho it Hit) as [[] | H]. exact H. }
  assert (Hcan : forall it, In it items ->
            forall x, total_cost_in_shipment_currency it = Some x ->
                      Qred x = x).
  { intros it Hit x Hx. destruct (Hfrom it Hit) as (raw & _ & Hrow).
    exact (row_item_canonical _ _ _ Hrow Hx). }
  assert (Hrep : forall raw it,
            In raw (split_on "010" text) ->
            CostExtractor.row_item partial_ratio
              (CostExtractor._detect_invoice_currency text) raw = Some it ->
            exists i a, nth_error items i = Some a
              /\ (extracted_category a, total_cost_in_shipment_currency a,
                  currency a)
                 = (extracted_category it, total_cost_in_shipment_currency it,
                    currency it)).
  { intros raw it Hraw Hrow.
    destruct (Hr raw it Hraw Hrow) as (it' & Hin & Heq).
    destruct (In_nth_error _ _ Hin) as (i & Hi).
    exists i, it'. split; [exact Hi|]. symmetry.
    apply sig_eqb_fields; [| apply Hcan, Hin | exact Heq].
    intros x Hx. exact (row_item_canonical _ _ _ Hrow Hx). }
  split; [|split; [exact Hrep | split; [|exact Hfrom]]].
  - intros i j a b Ha Hb Hab.
    destruct (Nat.lt_trichotomy i j) as [Hij | [Hij | Hij]];
      [exfalso | exact Hij | exfalso].
    + assert (F := ordered_pairs_nth Hd Hij Ha Hb). cbn beta in F.
      rewrite (fields_sig_eqb _ _ Hab) in F. discriminate F.
    + assert (F := ordered_pairs_nth Hd Hij Hb Ha). cbn beta in F.
      rewrite (fields_sig_eqb _ _ (eq_sym Hab)) in F. discriminate F.
  - intros raw1 raw2 it1 it2 Hr1 Hi1 Hr2 Hi2 Hcur.
    destruct (Hrep raw1 it1 Hr1 Hi1) as (i & a & Ha & Ea).
    destruct (Hrep raw2 it2 Hr2 Hi2) as (j & b & Hb & Eb).
    exists i, j, a, b. repeat split; auto.
    intros ->. rewrite Ha in Hb. injection Hb as ->.
    apply Hcur. congruence.
Qed.

Lemma cost_items_unique_witness :
  let text := L "Maut 1,00 2,50
Maut EUR 1,00 2,50
Maut 1,00 2,50" in
  let items := CostExtractor.extract Sample.partial_ratio text in
  length items = 2
  /\ exists i j a b,
       i <> j /\ nth_error items i = Some a /\ nth_error items j = Some b
       /\ (extracted_category a, total_cost_in_shipment_currency a,
           currency a)
          = (Some (L "Toll"), Some (5 # 2), None)
       /\ (extracted_category b, total_cost_in_shipment_currency b,
           currency b)
          = (Some (L "Toll"), Some (5 # 2), Some (L "EUR")).
Proof.
  cbv zeta. split; [vm_compute; reflexivity|].
  refine (proj1 (proj2 (proj2
            (@cost_items_unique Sample.partial_ratio (L "Maut 1,00 2,50
Maut EUR 1,00 2,50
Maut 1,00 2,50"))))
          (L "Maut 1,00 2,50") (L "Maut EUR 1,00 2,50")
          (mkCostItem (Some (L "Toll")) (Some (5 # 2)) None
                      (Some (L "Maut 1,00 2,50")))
          (mkCostItem (Some (L "Toll")) (Some (5 # 2)) (Some (L "EUR"))
                      (Some (L "Maut EUR 1,00 2,50")))
          _ _ _ _ _).
  - vm_compute. auto.
  - vm_compute. reflexivity.
  - vm_compute. auto.
  - vm_compute. reflexivity.
  - discriminate.
Defined.
(** * Dates: the earliest candidate *)

(** ** Where the date patterns can match *)

Section DigitFirst.

(** The date patterns start with a word boundary and a group of digits: no
    attempt succeeds at a character that is no digit, nor at the end. *)
Variables (i lo : nat) (hi : option nat) (g : bool) (tail : re).

Local Abbreviation pattern :=
  (WordB ;; Grp i (Rep digit (S lo) hi g) ;; tail)%re.

Lemma digit_first_run p s e :
  run false pattern (mkst p s []) e ->
  exists x t, s = x :: t /\ is_digit x = true.
Proof.
  intros H. apply run_seq_inv in H. destruct H as (s1 & Hb & H).
  cbn [run] in Hb. destruct Hb as [_ ->].
  apply run_seq_inv in H. destruct H as (s2 & H & _).
  apply run_grp_inv in H. destruct H as (s3 & H & _).
  apply run_rep_inv in H. destruct H as (n & [Hn _] & H).
  destruct n as [|n]; [lia|]. cbn [iter] in H.
  destruct H as (s4 & H & _). unfold digit in H. cbn [run] in H.
  destruct H as (x & t & E & O & _). cbn [rest] in E.
  exists x, t. split; [exact E|].
  unfold cls_ok, items_have in O. cbn [existsb citem_has xorb] in O.
  rewrite orb_false_r in O. exact O.
Qed.

Lemma digit_first_none p s :
  match s with [] => True | c :: _ => is_digit c = false end ->
  match_at false pattern p s = None.
Proof.
  intros Hs. destruct (match_at false pattern p s) as [e|] eqn:E;
    [|reflexivity].
  apply match_at_sound, digit_first_run in E.
  destruct E as (x & t & -> & Hx). congruence.
Qed.

(** A stretch without digits holds no match. *)
Lemma digit_free_stretch rest : forall w p,
  existsb is_digit w = false ->
  no_match_in false pattern p w rest = true.
Proof.
  induction w as [|c w IH]; intros p H; [reflexivity|].
  cbn [existsb] in H. apply orb_false_iff in H. destruct H as [Hc Hw].
  cbn [no_match_in]. rewrite (IH _ Hw), andb_true_r.
  cbn [app]. rewrite digit_first_none by exact Hc. reflexivity.
Qed.

End DigitFirst.

Lemma no_match_in_app ic r rest b : forall a p,
  no_match_in ic r p (a ++ b) rest
  = no_match_in ic r p a (b ++ rest)
    && no_match_in ic r (prev_after p a) b rest.
Proof.
  induction a as [|c a IH]; intros p.
  - reflexivity.
  - cbn [app no_match_in]. rewrite IH, prev_after_cons, <- app_assoc.
    cbn [app]. rewrite andb_assoc. reflexivity.
Qed.

Lemma prev_after_app p a b :
  prev_after p (a ++ b) = prev_after (prev_after p a) b.
Proof.
  revert p. induction a as [|c a IH]; intros p; [reflexivity|].
  cbn [app]. rewrite !prev_after_cons. apply IH.
Qed.

(** An attempt of a pattern that starts with a word boundary. *)
Lemma match_at_wordb ic r p s :
  match_at ic (WordB ;; r)%re p s
  = if at_boundary (mkst p s [])
    then m ic r (fun x => Some x) (mkst p s []) else None.
Proof. reflexivity. Qed.

(** Stepping over the characters of a match. *)
Lemma scan_step_over ic r s : forall w p,
  scan ic r p (w ++ s) (length w) = scan ic r (prev_after p w) s 0.
Proof.
  induction w as [|c w IH]; intros p; [reflexivity|].
  cbn [app length scan]. rewrite IH, prev_after_cons. reflexivity.
Qed.

Section DateStrings.
Import DateExtractor.

Local Abbreviation num1 := (nth 0 RE_NUMERIC Eps).
Local Abbreviation num2 := (nth 1 RE_NUMERIC Eps).

Lemma no_match_in_cons ic r p c w rest :
  no_match_in ic r p (c :: w) rest
  = negb (is_some (match_at ic r p (c :: w ++ rest)))
    && no_match_in ic r (Some c) w rest.
Proof. reflexivity. Qed.

(** The textual pattern matches nowhere in a numeric date string, whatever
    surrounds it. *)
Lemma textual_in_day D p tl :
  D = day_27 \/ D = day_30 ->
  no_match_in false RE_TEXTUAL p D tl = true.
Proof.
  intros [-> | ->].
  - unfold day_27, L. cbn [list_ascii_of_string].
    rewrite no_match_in_cons. apply andb_true_iff. split.
    + unfold RE_TEXTUAL. rewrite match_at_wordb.
      destruct (at_boundary _); [vm_compute|]; reflexivity.
    + vm_compute. reflexivity.
  - unfold day_30, L. cbn [list_ascii_of_string].
    rewrite no_match_in_cons. apply andb_true_iff. split.
    + unfold RE_TEXTUAL. rewrite match_at_wordb.
      destruct (at_boundary _); [vm_compute|]; reflexivity.
    + vm_compute. reflexivity.
Qed.

Lemma date_sep_class (x : ascii) :
  implb (cls_ok false false [CChar "."; CChar "-"; CChar "/"] x)
        (is_date_sep x) = true.
Proof. revert x. by_cases_on_char. Qed.

(** The year-first pattern at the year of a date string: no match, unless a
    separator and a digit follow. *)
Lemma year_first_at_year tl :
  match tl with
  | c :: c2 :: _ => is_date_sep c && is_digit c2 = false
  | _ => True
  end ->
  match_at false num2 (Some "."%char) (L "2025" ++ tl) = None.
Proof.
  intros H.
  destruct (match_at false num2 (Some "."%char) (L "2025" ++ tl)) as [e|] eqn:E;
    [exfalso | reflexivity].
  apply match_at_sound in E. unfold RE_NUMERIC in E. cbn [nth] in E.
  apply run_seq_inv in E. destruct E as (s0 & Hb & E).
  cbn [run] in Hb. destruct Hb as [_ ->].
  apply run_seq_inv in E. destruct E as (s1 & H1 & E).
  apply run_grp_inv in H1. destruct H1 as (s1' & H1 & ->).
  unfold exactly in H1. apply run_rep_inv in H1.
  destruct H1 as (n & Hn & H1). unfold rep_bound in Hn.
  assert (n = 4) by lia. subst n.
  apply iter_cls_len in H1. destruct H1 as (w & Ew & Lw & _).
  cbn [rest] in Ew.
  destruct w as [|w1 [|w2 [|w3 [|w4 [|? ?]]]]]; try discriminate Lw.
  unfold L in Ew. cbn [list_ascii_of_string app] in Ew.
  injection Ew as _ _ _ _ Ew.
  apply run_seq_inv in E. destruct E as (s2 & H2 & E).
  unfold date_sep in H2. cbn [run] in H2.
  destruct H2 as (c & t & Ec & Oc & ->). cbn [rest set_cap] in Ec.
  apply run_seq_inv in E. destruct E as (s3 & H3 & _).
  apply run_grp_inv in H3. destruct H3 as (s3' & H3 & _).
  unfold between in H3. apply run_rep_inv in H3.
  destruct H3 as (n & [Hn' _] & H3). destruct n as [|n]; [lia|].
  cbn [iter] in H3. destruct H3 as (s4 & H3 & _).
  unfold digit in H3. cbn [run] in H3.
  destruct H3 as (c2 & t2 & Ec2 & Oc2 & _). cbn [rest adv] in Ec2.
  rewrite Ew, Ec, Ec2 in H.
  assert (A := date_sep_class c). rewrite Oc in A. cbn [implb] in A.
  unfold cls_ok, items_have in Oc2. cbn [existsb citem_has xorb] in Oc2.
  rewrite orb_false_r in Oc2. rewrite A, Oc2 in H. discriminate H.
Qed.

(** The year-first pattern matches nowhere in a date string, unless a
    separator and a digit follow the string. *)
Lemma year_first_in_day D p tl :
  D = day_27 \/ D = day_30 ->
  match tl with
  | c :: c2 :: _ => is_date_sep c && is_digit c2 = false
  | _ => True
  end ->
  no_match_in false num2 p D tl = true.
Proof.
  intros HD Htl.
  assert (Y := year_first_at_year tl Htl).
  unfold L in Y. cbn [list_ascii_of_string app] in Y.
  destruct HD as [-> | ->].
  - unfold day_27, L. cbn [list_ascii_of_string].
    rewrite no_match_in_cons. apply andb_true_iff. split.
    { unfold RE_NUMERIC. cbn [nth]. rewrite match_at_wordb.
      destruct (at_boundary _); [vm_compute|]; reflexivity. }
    do 5 (rewrite no_match_in_cons; apply andb_true_iff;
          split; [vm_compute; reflexivity|]).
    rewrite no_match_in_cons. apply andb_true_iff. split.
    { cbn [app]. rewrite Y. reflexivity. }
    vm_compute. reflexivity.
  - unfold day_30, L. cbn [list_ascii_of_string].
    rewrite no_match_in_cons. apply andb_true_iff. split.
    { unfold RE_NUMERIC. cbn [nth]. rewrite match_at_wordb.
      destruct (at_boundary _); [vm_compute|]; reflexivity. }
    do 5 (rewrite no_match_in_cons; apply andb_true_iff;
          split; [vm_compute; reflexivity|]).
    rewrite no_match_in_cons. apply andb_true_iff. split.
    { cbn [app]. rewrite Y. reflexivity. }
    vm_compute. reflexivity.
Qed.

(** The day-first pattern at a date string between characters that are no
    word characters: it matches the date string. *)
Ltac day_first_at dd :=
  let Hp := fresh "Hp" in let Htl := fresh "Htl" in
  intros Hp Htl; unfold RE_NUMERIC; cbn [nth]; rewrite match_at_wordb;
  unfold at_boundary at 1;
  cbn [prev rest hd_error app day_27 day_30 L list_ascii_of_string opt_word];
  rewrite Hp;
  match goal with
  | |- context [xorb false (is_word ?c)] =>
      change (xorb false (is_word c)) with true
  end;
  cbv iota; unfold between, date_sep, digit;
  cbn -[at_boundary];
  unfold at_boundary at 1; cbn [prev rest set_cap adv hd_error opt_word];
  rewrite Htl; change (xorb (is_word "5") false) with true; cbv iota;
  unfold set_cap; cbn [prev rest adv caps];
  match goal with
  | tl : list ascii |- _ =>
      let E1 := fresh "E" in let E2 := fresh "E" in let E3 := fresh "E" in
      assert (E3 := @firstn_consumed _ (L "2025") tl);
      assert (E2 := @firstn_consumed _ (L "11") (L ".2025" ++ tl));
      assert (E1 := @firstn_consumed _ (L dd) (L ".11.2025" ++ tl));
      unfold L in E1, E2, E3;
      cbn [list_ascii_of_string app] in E1, E2, E3;
      rewrite E1, E2, E3; reflexivity
  end.

Lemma day_first_at_day_27 p tl :
  opt_word p = false -> opt_word (hd_error tl) = false ->
  match_at false num1 p (day_27 ++ tl)
  = Some (mkst (Some "5"%char) tl
               [(3, L "2025"); (2, L "11"); (1, L "27")]).
Proof. day_first_at "27"%string. Qed.

Lemma day_first_at_day_30 p tl :
  opt_word p = false -> opt_word (hd_error tl) = false ->
  match_at false num1 p (day_30 ++ tl)
  = Some (mkst (Some "5"%char) tl
               [(3, L "2025"); (2, L "11"); (1, L "30")]).
Proof. day_first_at "30"%string. Qed.

(** A match that reads [w] is reported, and the scan goes on behind it. *)
Lemma scan_match ic r p (w tl : str) e :
  w <> [] -> match_at ic r p (w ++ tl) = Some e -> rest e = tl ->
  scan ic r p (w ++ tl) 0
  = mkmobj w (caps e) :: scan ic r (prev_after p w) tl 0.
Proof.
  intros Hw H Hr. destruct w as [|c w]; [congruence|].
  cbn [app scan]. cbn [app] in H. rewrite H. unfold mobj_of. rewrite Hr.
  f_equal.
  - f_equal. apply (@firstn_consumed _ (c :: w) tl).
  - replace (length (c :: w ++ tl) - length tl - 1) with (length w)
      by (cbn [length]; rewrite length_app; lia).
    rewrite scan_step_over, prev_after_cons. reflexivity.
Qed.

End DateStrings.

Section TwoDates.
Import DateExtractor.

Local Abbreviation num1 := (nth 0 RE_NUMERIC Eps).
Local Abbreviation num2 := (nth 1 RE_NUMERIC Eps).

Variables pre mid post : str.

Hypothesis pre_plain : existsb is_digit pre = false.
Hypothesis mid_plain : existsb is_digit mid = false.
Hypothesis post_plain : existsb is_digit post = false.
Hypothesis before_27 : opt_word (last_opt pre) = false.
Hypothesis after_27 : opt_word (hd_error mid) = false.
Hypothesis before_30 : opt_word (last_opt mid) = false.
Hypothesis after_30 : opt_word (hd_error post) = false.
Hypothesis apart : mid <> [].
Hypothesis not_joined : mid <> L "." /\ mid <> L "-" /\ mid <> L "/".

Local Abbreviation text := (pre ++ day_27 ++ mid ++ day_30 ++ post).

Lemma prev_after_last p (w : str) :
  w <> [] -> prev_after p w = last_opt w.
Proof.
  intros Hw. unfold prev_after.
  destruct (last_opt w) eqn:E; [reflexivity|].
  exfalso. unfold last_opt in E. destruct (rev w) as [|x l] eqn:R.
  - apply (f_equal (@rev _)) in R. rewrite rev_involutive in R.
    apply Hw. exact R.
  - discriminate E.
Qed.

Lemma prev_pre : opt_word (prev_after None pre) = false.
Proof.
  unfold prev_after. destruct (last_opt pre) eqn:E; [|reflexivity].
  exact before_27.
Qed.

Lemma prev_mid : opt_word (prev_after (Some "5"%char) mid) = false.
Proof. rewrite prev_after_last by exact apart. exact before_30. Qed.

Lemma after_mid_27 : opt_word (hd_error (mid ++ day_30 ++ post)) = false.
Proof. destruct mid; [congruence | exact after_27]. Qed.

Lemma sep_is (c : ascii) :
  is_date_sep c = true -> [c] = L "." \/ [c] = L "-" \/ [c] = L "/".
Proof.
  unfold is_date_sep, ascii_eqb. intros H.
  repeat (apply orb_true_iff in H; destruct H as [H | H]);
    apply Ascii.eqb_eq in H; subst c; auto.
Qed.

Lemma tail_27 :
  match mid ++ day_30 ++ post with
  | c :: c2 :: _ => is_date_sep c && is_digit c2 = false
  | _ => True
  end.
Proof.
  destruct mid as [|c [|c2 t]]; [congruence | |].
  - cbn [app day_30 L list_ascii_of_string].
    destruct (is_date_sep c) eqn:E; [|reflexivity].
    exfalso. apply sep_is in E. tauto.
  - cbn [app]. cbn [existsb] in mid_plain.
    apply orb_false_iff in mid_plain. destruct mid_plain as [_ H].
    apply orb_false_iff in H. destruct H as [H _].
    rewrite H. apply andb_false_r.
Qed.

Lemma tail_30 :
  match post with
  | c :: c2 :: _ => is_date_sep c && is_digit c2 = false
  | _ => True
  end.
Proof.
  destruct post as [|c [|c2 t]]; [exact I | exact I |].
  cbn [existsb] in post_plain.
  apply orb_false_iff in post_plain. destruct post_plain as [_ H].
  apply orb_false_iff in H. destruct H as [H _].
  rewrite H. apply andb_false_r.
Qed.

(** No match of a pattern that matches in none of the five parts. *)
Lemma nowhere (r : re) :
  (forall p (w rest : str), existsb is_digit w = false ->
                            no_match_in false r p w rest = true) ->
  (forall p, match_at false r p [] = None) ->
  (forall p, no_match_in false r p day_27 (mid ++ day_30 ++ post) = true) ->
  (forall p, no_match_in false r p day_30 post = true) ->
  finditer false r text = [].
Proof.
  intros Hplain Hend H27 H30. unfold finditer.
  rewrite <- (app_nil_r text).
  rewrite scan_skip.
  - destruct (prev_after None text) as [c|]; cbn [scan]; rewrite Hend;
      reflexivity.
  - rewrite !no_match_in_app, !app_nil_r.
    rewrite (Hplain _ pre _ pre_plain), (Hplain _ mid _ mid_plain),
      (Hplain _ post _ post_plain), H27, H30.
    reflexivity.
Qed.

Lemma textual_finds_nothing : findall3 RE_TEXTUAL text = [].
Proof.
  unfold findall3. rewrite nowhere; [reflexivity | | | |].
  - intros p w rest H.
    exact (@digit_free_stretch 1 0 (Some 2) true _ rest w p H).
  - intros p. exact (@digit_first_none 1 0 (Some 2) true _ p [] I).
  - intros p. apply textual_in_day. auto.
  - intros p. apply textual_in_day. auto.
Qed.

Lemma year_first_finds_nothing : findall3 num2 text = [].
Proof.
  unfold findall3. rewrite nowhere; [reflexivity | | | |].
  - intros p w rest H.
    exact (@digit_free_stretch 1 3 (Some 4) true _ rest w p H).
  - intros p. exact (@digit_first_none 1 3 (Some 4) true _ p [] I).
  - intros p. apply year_first_in_day; [auto | exact tail_27].
  - intros p. apply year_first_in_day; [auto | exact tail_30].
Qed.

Lemma day_first_finds_both :
  findall3 num1 text
  = [(L "27", L "11", L "2025"); (L "30", L "11", L "2025")].
Proof.
  assert (Hplain : forall p (w rest : str),
            existsb is_digit w = false ->
            no_match_in false num1 p w rest = true).
  { intros p w rest H.
    exact (@digit_free_stretch 1 0 (Some 2) true _ rest w p H). }
  unfold findall3, finditer.
  rewrite scan_skip by (apply Hplain, pre_plain).
  rewrite (@scan_match false num1 _ day_27 _ _ ltac:(discriminate)
             (day_first_at_day_27 _ _ prev_pre after_mid_27) eq_refl).
  change (prev_after (prev_after None pre) day_27) with (Some "5"%char).
  rewrite scan_skip by (apply Hplain, mid_plain).
  rewrite (@scan_match false num1 _ day_30 _ _ ltac:(discriminate)
             (day_first_at_day_30 _ _ prev_mid after_30) eq_refl).
  change (prev_after (prev_after (Some "5"%char) mid) day_30)
    with (Some "5"%char).
  rewrite <- (app_nil_r post).
  rewrite scan_skip by (apply Hplain, post_plain).
  assert (Hend : forall p, scan false num1 p [] 0 = []).
  { intros p. cbn [scan].
    assert (N : match_at false num1 p [] = None)
      by exact (@digit_first_none 1 0 (Some 2) true _ p [] I).
    rewrite N. reflexivity. }
  rewrite Hend. reflexivity.
Qed.

Variable parse_dayfirst : str -> option Date.
Hypothesis parse_27 : parse_dayfirst (L "27-11-2025") = Some date_27.
Hypothesis parse_30 : parse_dayfirst (L "30-11-2025") = Some date_30.

Lemma candidates_two_dates invoice_year :
  candidates parse_dayfirst text invoice_year = [date_27; date_30].
Proof.
  unfold candidates.
  rewrite textual_finds_nothing.
  match goal with
  | |- context [flat_map ?f RE_NUMERIC] =>
      change (flat_map f RE_NUMERIC) with (flat_map f [num1; num2])
  end.
  cbn [flat_map].
  rewrite day_first_finds_both, year_first_finds_nothing.
  cbn [flat_map app].
  assert (E27 : numeric_candidate parse_dayfirst invoice_year
                  (L "27", L "11", L "2025") = Some date_27).
  { rewrite <- parse_27. reflexivity. }
  assert (E30 : numeric_candidate parse_dayfirst invoice_year
                  (L "30", L "11", L "2025") = Some date_30).
  { rewrite <- parse_30. reflexivity. }
  rewrite E27, E30. reflexivity.
Qed.

End TwoDates.

(** ** The order of ISO strings *)

(** ISO strings of dates with a year of four digits are ordered like the
    dates. *)
Lemma strftime_order a b :
  valid_date a -> valid_date b -> 1000 <= d_year a -> 1000 <= d_year b ->
  str_leb (strftime_iso a) (strftime_iso b) = true <-> date_le a b.
Proof.
  intros (Ya & Ma & Da) (Yb & Mb & Db) Ha Hb. unfold strftime_iso, date_le.
  rewrite !dec_four by lia.
  rewrite str_leb_four by assumption.
  unfold L. cbn [list_ascii_of_string].
  destruct (Nat.ltb_spec (d_year a) (d_year b)); [intuition lia|].
  destruct (Nat.ltb_spec (d_year b) (d_year a));
    [split; [discriminate | lia]|].
  cbn [app str_leb]. change (N_of_ascii "-" <? N_of_ascii "-")%N with false.
  cbv iota.
  rewrite str_leb_two by lia.
  destruct (Nat.ltb_spec (d_month a) (d_month b)); [intuition lia|].
  destruct (Nat.ltb_spec (d_month b) (d_month a));
    [split; [discriminate | lia]|].
  cbn [app str_leb]. change (N_of_ascii "-" <? N_of_ascii "-")%N with false.
  cbv iota.
  rewrite <- (app_nil_r (two_digits (d_day a))),
          <- (app_nil_r (two_digits (d_day b))).
  rewrite str_leb_two by lia.
  destruct (Nat.ltb_spec (d_day a) (d_day b)); [intuition lia|].
  destruct (Nat.ltb_spec (d_day b) (d_day a));
    [split; [discriminate | lia]|].
  simpl. intuition lia.
Qed.

Lemma date_le_refl a : date_le a a.
Proof. unfold date_le. lia. Qed.

Lemma date_le_trans a b c : date_le a b -> date_le b c -> date_le a c.
Proof. unfold date_le. lia. Qed.

Lemma date_le_total a b : date_le a b \/ date_le b a.
Proof. unfold date_le. lia. Qed.

(** The head of the sorted ISO strings is the string of an earliest date. *)
Lemma sorted_head_earliest (ds : list Date) :
  ds <> [] -> Forall (fun d => valid_date d /\ 1000 <= d_year d) ds ->
  exists d, In d ds /\
            hd_error (py_sorted (map strftime_iso ds)) = Some (strftime_iso d)
            /\ forall d', In d' ds -> date_le d d'.
Proof.
  induction ds as [|x l IH]; intros Hne Hv; [congruence|].
  inversion Hv as [|? ? [Hx Hx4] Hl]; subst.
  destruct l as [|y l'].
  - exists x. simpl. repeat split; auto.
    intros d' [<- | []]. apply date_le_refl.
  - destruct IH as (d0 & Hin & Hhd & Hmin); [discriminate | assumption |].
    cbn [map py_sorted fold_right] in Hhd |- *.
    fold (py_sorted (map strftime_iso l')) in Hhd |- *.
    destruct (insert_sorted (strftime_iso y)
                (py_sorted (map strftime_iso l'))) as [|h rest] eqn:E;
      [discriminate Hhd|].
    cbn [hd_error] in Hhd. injection Hhd as ->.
    cbn [insert_sorted].
    assert (Hv0 : valid_date d0 /\ 1000 <= d_year d0).
    { rewrite Forall_forall in Hl. apply Hl, Hin. }
    destruct Hv0 as [Hv0 Hv4].
    destruct (str_leb (strftime_iso x) (strftime_iso d0)) eqn:C.
    + apply strftime_order in C; auto.
      exists x. repeat split; [left; reflexivity|].
      intros d' [<- | Hd']; [apply date_le_refl|].
      eapply date_le_trans; eauto.
    + exists d0. repeat split; [right; exact Hin|].
      intros d' [<- | Hd']; [|auto].
      destruct (date_le_total d0 x) as [H | H]; [exact H|].
      apply strftime_order in H; auto. congruence.
Qed.

Section DateFacts.
Import DateExtractor.

Variable parse_dayfirst : str -> option Date.
Hypothesis parse_valid :
  forall ds d, parse_dayfirst ds = Some d -> valid_date d.

Lemma candidates_valid text iy :
  Forall valid_date (candidates parse_dayfirst text iy).
Proof.
  apply Forall_forall. intros d Hd. unfold candidates in Hd.
  apply in_app_or in Hd. destruct Hd as [Hd | Hd].
  - apply in_flat_map in Hd. destruct Hd as (t & _ & Hd).
    unfold textual_candidate in Hd. destruct t as [[day mr] yr].
    destruct (_normalize_month mr); [|destruct Hd].
    destruct (lookup _ MONTH_MAP); [|destruct Hd].
    destruct (truthy_nat _); [|destruct Hd].
    destruct (match yr with [] => iy | _ => _ end); [|destruct Hd].
    unfold _safe_parse in Hd.
    destruct (parse_dayfirst _) eqn:E; [|destruct Hd].
    destruct Hd as [<- | []]. eapply parse_valid; eauto.
  - apply in_flat_map in Hd. destruct Hd as (regex & _ & Hd).
    apply in_flat_map in Hd. destruct Hd as (t & _ & Hd).
    unfold numeric_candidate in Hd. destruct t as [[n0 n1] n2].
    destruct (if length n0 <=? 2 then (n0, n1, n2) else (n2, n1, n0))
      as [[d0 m0] y0].
    destruct (truthy_nat _); [|destruct Hd].
    destruct (_fix_year y0 iy); [|destruct Hd].
    unfold _safe_parse in Hd.
    destruct (parse_dayfirst _) eqn:E; [|destruct Hd].
    destruct Hd as [<- | []]. eapply parse_valid; eauto.
Qed.

Lemma extract_earliest text iy :
  (forall d, In d (candidates parse_dayfirst text iy) -> 1000 <= d_year d) ->
  match extract parse_dayfirst text iy with
  | None => candidates parse_dayfirst text iy = []
  | Some s =>
      exists d, In d (candidates parse_dayfirst text iy) /\
                s = strftime_iso d /\
                forall d', In d' (candidates parse_dayfirst text iy) ->
                           date_le d d'
  end.
Proof.
  intros H4. unfold extract.
  assert (Hv := candidates_valid text iy).
  destruct (candidates parse_dayfirst text iy) as [|c cs] eqn:E;
    [reflexivity|].
  destruct (@sorted_head_earliest (c :: cs)) as (d & Hin & Hhd & Hmin).
  - discriminate.
  - rewrite Forall_forall in *. intros d Hd. split; auto.
  - rewrite Hhd. eauto.
Qed.

End DateFacts.



Lemma sample_parse_valid ds d :
  Sample.parse_dayfirst ds = Some d -> valid_date d.
Proof.
  assert (Hmk : forall y m dd d0,
            Sample.make_date y m dd = Some d0 -> valid_date d0).
  { intros y m dd d0. unfold Sample.make_date.
    destruct (_ && _) eqn:C; [|discriminate]. intros [= <-].
    repeat (apply andb_true_iff in C; destruct C as [C ?]).
    repeat match goal with
    | H : (_ <=? _) = true |- _ => apply Nat.leb_le in H
    | H : (_ <? _) = true |- _ => apply Nat.ltb_lt in H
    end.
    unfold valid_date. cbn [d_year d_month d_day]. repeat split; auto.
    assert (Sample.days_in_month y m <= 31); [|lia].
    unfold Sample.days_in_month.
    do 12 (destruct m as [|m]; [try destruct (Sample.leap y); lia|]).
    lia. }
  unfold Sample.parse_dayfirst.
  destruct (split_on "-" ds) as [|a [|b [|y [|? ?]]]];
    try (destruct (split_on " " ds) as [|d1 [|mn [|y1 [|? ?]]]];
         try discriminate;
         destruct (_ && _); [|discriminate];
         destruct (Sample.month_number mn); [|discriminate];
         apply Hmk).
  destruct (_ && _); [|discriminate].
  destruct (_ || _); apply Hmk.
Qed.

